(** * Scout osquery extension: script resolver, executor and row projector

    A shallow embedding of [scout-query/main.go], [scout-query/cache.go],
    [scout-query/utils.go] and [scout-query/powershell.go], together with the
    properties of the script lifecycle (resolve, verify, execute, project)
    that the design document states about them.

    Go strings are byte strings; they are modelled by [string], whose
    characters are the 256 byte values.  Go's [(value, error)] results are
    modelled as pairs whose second component is [option error], [None] being
    [nil]. *)

From Stdlib Require Import ZArith NArith Ascii String List Bool Lia.
From stdpp Require Import base tactics option list gmap strings pretty sorting.

(* ===================================================================== *)
(** * Part I. Definitions                                                 *)
(* ===================================================================== *)

(** ** Bytes and the [strings] package *)

Definition byte_val (c : ascii) : N := N_of_ascii c.

Definition byte_in (lo hi : N) (c : ascii) : bool :=
  ((lo <=? byte_val c) && (byte_val c <=? hi))%N.

Definition str_eqb (a b : string) : bool := bool_decide (a = b).

Fixpoint str_take (n : nat) (s : string) : string :=
  match n, s with
  | S n', String c s' => String c (str_take n' s')
  | _, _ => ""
  end.

Fixpoint str_drop (n : nat) (s : string) : string :=
  match n, s with
  | S n', String _ s' => str_drop n' s'
  | _, _ => s
  end.

(** [strings.HasPrefix] and [strings.HasSuffix]. *)
Fixpoint strings_HasPrefix (s prefix : string) : bool :=
  match prefix, s with
  | "", _ => true
  | String p prefix', String c s' =>
      bool_decide (p = c) && strings_HasPrefix s' prefix'
  | String _ _, "" => false
  end.

Definition strings_HasSuffix (s suffix : string) : bool :=
  strings_HasPrefix (String.rev s) (String.rev suffix).

(** [strings.ToLower], restricted to its action on ASCII letters: bytes
    outside [A-Z] are kept.  (Go additionally maps non-ASCII upper-case
    runes to their lower-case forms; no suffix or keyword tested by the
    program contains the image of such a rune except through U+0130 and
    U+212A, which are left out of the model.) *)
Definition lower_byte (c : ascii) : ascii :=
  if byte_in 65 90 c then ascii_of_N (byte_val c + 32)%N else c.

Fixpoint strings_ToLower (s : string) : string :=
  match s with
  | "" => ""
  | String c s' => String (lower_byte c) (strings_ToLower s')
  end.

(** [strings.Join]. *)
Fixpoint strings_Join (elems : list string) (sep : string) : string :=
  match elems with
  | [] => ""
  | [e] => e
  | e :: rest => e +:+ sep +:+ strings_Join rest sep
  end.

(** [strings.Split(s, sep)] for a one-byte separator: always at least one
    element, the last one being what follows the last separator. *)
Fixpoint split_go (sep : ascii) (cur : string) (s : string) : list string :=
  match s with
  | "" => [String.rev cur]
  | String c s' =>
      if bool_decide (c = sep) then String.rev cur :: split_go sep "" s'
      else split_go sep (String c cur) s'
  end.

Definition strings_Split (s : string) (sep : ascii) : list string :=
  split_go sep "" s.

(** [strings.TrimRight(s, "/")]. *)
Fixpoint drop_leading (c : ascii) (s : string) : string :=
  match s with
  | String c' s' => if bool_decide (c' = c) then drop_leading c s' else s
  | "" => ""
  end.

Definition strings_TrimRight (s : string) (c : ascii) : string :=
  String.rev (drop_leading c (String.rev s)).

(** ** The [unicode/utf8] package *)

(** Continuation byte [0x80..0xBF]. *)
Definition utf8_cont (c : ascii) : bool := byte_in 128 191 c.

(** [utf8_width s] is the number of bytes of the well-formed UTF-8 sequence
    at the head of [s], or [None] when [utf8.DecodeRuneInString] answers
    [(RuneError, 1)] there (also on the empty string).  The case analysis
    is the [first]/[acceptRanges] table of the package. *)
Definition utf8_width (s : string) : option nat :=
  match s with
  | "" => None
  | String c0 r0 =>
      let b0 := byte_val c0 in
      if (b0 <? 128)%N then Some 1
      else if (b0 <? 194)%N then None
      else if (b0 <? 224)%N then
        match r0 with
        | String c1 _ => if utf8_cont c1 then Some 2 else None
        | _ => None
        end
      else if (b0 <? 240)%N then
        match r0 with
        | String c1 (String c2 _) =>
            let lo := if (b0 =? 224)%N then 160%N else 128%N in
            let hi := if (b0 =? 237)%N then 159%N else 191%N in
            if byte_in lo hi c1 && utf8_cont c2 then Some 3 else None
        | _ => None
        end
      else if (b0 <? 245)%N then
        match r0 with
        | String c1 (String c2 (String c3 _)) =>
            let lo := if (b0 =? 240)%N then 144%N else 128%N in
            let hi := if (b0 =? 244)%N then 143%N else 191%N in
            if byte_in lo hi c1 && utf8_cont c2 && utf8_cont c3
            then Some 4 else None
        | _ => None
        end
      else None
  end.

(** The UTF-8 encoding of U+FFFD, [utf8.RuneError]. *)
Definition rune_error_bytes : string :=
  String (ascii_of_N 239) (String (ascii_of_N 191) (String (ascii_of_N 189) "")).

(** One step of [for i, c := range s]: the bytes that [WriteRune(c)] would
    write for the rune at the head of [s] (the sequence itself when it is
    well formed, U+FFFD otherwise) and the number of bytes consumed. *)
Definition utf8_chunk (s : string) : string * nat :=
  match utf8_width s with
  | Some n => (str_take n s, n)
  | None => (rune_error_bytes, 1)
  end.

(** A rune as [range] yields it: its byte offset, its UTF-8 encoding, and
    the byte itself when the rune is a one-byte (ASCII) character. *)
Record rune_at := RuneAt {
  r_index : nat;
  r_bytes : string;
  r_ascii : option ascii
}.

Fixpoint range_go (fuel : nat) (i : nat) (s : string) : list rune_at :=
  match fuel, s with
  | S fuel', String c _ =>
      let '(bytes, n) := utf8_chunk s in
      let a := if (byte_val c <? 128)%N then Some c else None in
      RuneAt i bytes a :: range_go fuel' (i + n) (str_drop n s)
  | _, _ => []
  end.

(** [for i, c := range s]; every step consumes at least one byte, so the
    length of [s] is enough fuel. *)
Definition range_string (s : string) : list rune_at :=
  range_go (String.length s) 0 s.

(** [utf8.EncodeRune] on a code point (surrogates and values above
    U+10FFFF are written as U+FFFD). *)
Definition utf8_EncodeRune (r : N) : string :=
  let b (n : N) := ascii_of_N n in
  let cont (n : N) := b (128 + N.land n 63)%N in
  if (r <? 128)%N then String (b r) ""
  else if (r <? 2048)%N then
    String (b (192 + N.shiftr r 6)%N) (String (cont r) "")
  else if ((55296 <=? r) && (r <=? 57343))%N then rune_error_bytes
  else if (r <? 65536)%N then
    String (b (224 + N.shiftr r 12)%N)
      (String (cont (N.shiftr r 6)) (String (cont r) ""))
  else if (r <=? 1114111)%N then
    String (b (240 + N.shiftr r 18)%N)
      (String (cont (N.shiftr r 12))
         (String (cont (N.shiftr r 6)) (String (cont r) "")))
  else rune_error_bytes.

(** [utf8.ValidString]: the string is a sequence of well-formed UTF-8
    sequences. *)
Fixpoint utf8_valid_go (fuel : nat) (s : string) : bool :=
  match s with
  | "" => true
  | String _ _ =>
      match fuel with
      | S fuel' =>
          match utf8_width s with
          | Some n => utf8_valid_go fuel' (str_drop n s)
          | None => false
          end
      | O => false
      end
  end.

Definition utf8_ValidString (s : string) : bool :=
  utf8_valid_go (String.length s) s.

(** [strings.TrimSpace(s) == ""]: every rune of [s] is white space in the
    sense of [unicode.IsSpace] (the six ASCII ones, U+0085, U+00A0, U+1680,
    U+2000..U+200A, U+2028, U+2029, U+202F, U+205F, U+3000). *)
Fixpoint all_space (s : string) : bool :=
  match s with
  | "" => true
  | String c0 r0 =>
      let b0 := byte_val c0 in
      if (b0 <? 128)%N then Ascii.is_space c0 && all_space r0
      else
        match r0 with
        | String c1 r1 =>
            let b1 := byte_val c1 in
            if (b0 =? 194)%N then
              ((b1 =? 133) || (b1 =? 160))%N && all_space r1
            else
              match r1 with
              | String c2 r2 =>
                  let b2 := byte_val c2 in
                  let sp :=
                    (((b0 =? 225) && (b1 =? 154) && (b2 =? 128))
                     || ((b0 =? 226) && (b1 =? 128)
                         && ((128 <=? b2) && (b2 <=? 138)
                             || (b2 =? 168) || (b2 =? 169) || (b2 =? 175)))
                     || ((b0 =? 226) && (b1 =? 129) && (b2 =? 159))
                     || ((b0 =? 227) && (b1 =? 128) && (b2 =? 128)))%N in
                  sp && all_space r2
              | _ => false
              end
        | _ => false
        end
  end.

Definition trims_to_empty (s : string) : bool := all_space s.

(** ** The [encoding/hex] package *)

Definition hex_digit (n : N) : ascii :=
  if (n <? 10)%N then ascii_of_N (48 + n)%N else ascii_of_N (87 + n)%N.

(** [hex.EncodeToString]: two lower-case digits per byte. *)
Fixpoint hex_EncodeToString (s : string) : string :=
  match s with
  | "" => ""
  | String c s' =>
      String (hex_digit (N.shiftr (byte_val c) 4))
        (String (hex_digit (N.land (byte_val c) 15)) (hex_EncodeToString s'))
  end.

Definition hex_value (c : ascii) : option N :=
  if byte_in 48 57 c then Some (byte_val c - 48)%N
  else if byte_in 97 102 c then Some (byte_val c - 87)%N
  else if byte_in 65 70 c then Some (byte_val c - 55)%N
  else None.

(** [hex.DecodeString]: [None] on an odd length or a character that is not
    a hexadecimal digit. *)
Fixpoint hex_DecodeString (s : string) : option string :=
  match s with
  | "" => Some ""
  | String h (String l s') =>
      match hex_value h, hex_value l, hex_DecodeString s' with
      | Some a, Some b, Some r => Some (String (ascii_of_N (16 * a + b)%N) r)
      | _, _, _ => None
      end
  | String _ "" => None
  end.

(** ** The [encoding/json] package: decoding

    The grammar is the one of the package's scanner: white space is space,
    tab, carriage return and line feed; nothing but white space may follow
    the top-level value; containers nest at most 10000 deep. *)

#[local] Set Warnings "-register-all".

Inductive json : Type :=
  | JNull
  | JBool (b : bool)
  | JNumber (literal : string)
  | JString (s : string)
  | JArray (elems : list json)
  | JObject (members : list (string * json)).

Definition json_space (c : ascii) : bool :=
  ((c =? " ") || (c =? "009") || (c =? "013") || (c =? "010"))%char.

Fixpoint skip_ws (s : string) : string :=
  match s with
  | String c s' => if json_space c then skip_ws s' else s
  | "" => ""
  end.

(** Four hexadecimal digits of a [\uXXXX] escape ([getu4] without the
    two leading characters). *)
Definition hex4 (s : string) : option (N * string) :=
  match s with
  | String a (String b (String c (String d rest))) =>
      match hex_value a, hex_value b, hex_value c, hex_value d with
      | Some x, Some y, Some z, Some w =>
          Some ((((x * 16 + y) * 16 + z) * 16 + w)%N, rest)
      | _, _, _, _ => None
      end
  | _ => None
  end.

Definition is_surrogate (r : N) : bool := ((55296 <=? r) && (r <? 57344))%N.

(** [utf16.DecodeRune]: the code point of a surrogate pair, if it is one. *)
Definition utf16_DecodeRune (r1 r2 : N) : option N :=
  if ((55296 <=? r1) && (r1 <? 56320) && (56320 <=? r2) && (r2 <? 57344))%N
  then Some ((r1 - 55296) * 1024 + (r2 - 56320) + 65536)%N
  else None.

(** The second half of a surrogate pair: [getu4] on what follows. *)
Definition low_surrogate (r1 : N) (s : string) : option (N * string) :=
  match s with
  | String bs (String u s') =>
      if ((bs =? "\") && (u =? "u"))%char then
        match hex4 s' with
        | Some (r2, rest) =>
            match utf16_DecodeRune r1 r2 with
            | Some r => Some (r, rest)
            | None => None
            end
        | None => None
        end
      else None
  | _ => None
  end.

(** The body of a string literal, after the opening quote: the decoded
    string and what follows the closing quote ([unquote] applied to what the
    scanner accepts).  Raw bytes from [0x80] on go through
    [utf8.DecodeRune]/[EncodeRune], so ill-formed sequences come out as
    U+FFFD.  Each step consumes at least one byte. *)
Fixpoint parse_str (fuel : nat) (s : string) : option (string * string) :=
  match fuel, s with
  | S fuel', String c rest =>
      if (c =? "034")%char then Some ("", rest)
      else if (c =? "\")%char then
        match rest with
        | String e rest' =>
            let simple (out : ascii) :=
              match parse_str fuel' rest' with
              | Some (str, r) => Some (String out str, r)
              | None => None
              end in
            if ((e =? "034") || (e =? "\") || (e =? "/"))%char then simple e
            else if (e =? "b")%char then simple "008"%char
            else if (e =? "f")%char then simple "012"%char
            else if (e =? "n")%char then simple "010"%char
            else if (e =? "r")%char then simple "013"%char
            else if (e =? "t")%char then simple "009"%char
            else if (e =? "u")%char then
              match hex4 rest' with
              | Some (rr, after) =>
                  let '(bytes, next) :=
                    if is_surrogate rr then
                      match low_surrogate rr after with
                      | Some (dec, after') => (utf8_EncodeRune dec, after')
                      | None => (rune_error_bytes, after)
                      end
                    else (utf8_EncodeRune rr, after) in
                  match parse_str fuel' next with
                  | Some (str, r) => Some (bytes +:+ str, r)
                  | None => None
                  end
              | None => None
              end
            else None
        | "" => None
        end
      else if (byte_val c <? 32)%N then None
      else if (byte_val c <? 128)%N then
        match parse_str fuel' rest with
        | Some (str, r) => Some (String c str, r)
        | None => None
        end
      else
        let '(bytes, n) := utf8_chunk s in
        match parse_str fuel' (str_drop n s) with
        | Some (str, r) => Some (bytes +:+ str, r)
        | None => None
        end
  | _, _ => None
  end.

Definition is_digit (c : ascii) : bool := byte_in 48 57 c.

Fixpoint span_digits (s : string) : string * string :=
  match s with
  | String c s' =>
      if is_digit c then
        let '(ds, r) := span_digits s' in (String c ds, r)
      else ("", s)
  | "" => ("", "")
  end.

(** A number literal: an optional minus sign, then 0 or a digit sequence
    that does not start with 0, then an optional fraction (a dot and at
    least one digit), then an optional exponent (e or E, an optional sign
    and at least one digit). *)
Definition parse_number (s : string) : option (string * string) :=
  let '(sign, s1) :=
    match s with
    | String c r => if (c =? "-")%char then ("-", r) else ("", s)
    | "" => ("", s)
    end in
  let int_part :=
    match s1 with
    | String c r =>
        if (c =? "0")%char then Some ("0", r)
        else if is_digit c then Some (span_digits s1)
        else None
    | "" => None
    end in
  match int_part with
  | None => None
  | Some (ip, s2) =>
      let frac :=
        match s2 with
        | String c r =>
            if (c =? ".")%char then
              match span_digits r with
              | ("", _) => None
              | (ds, r') => Some ("." +:+ ds, r')
              end
            else Some ("", s2)
        | "" => Some ("", s2)
        end in
      match frac with
      | None => None
      | Some (fp, s3) =>
          match s3 with
          | String c r =>
              if ((c =? "e") || (c =? "E"))%char then
                let '(esign, r1) :=
                  match r with
                  | String c' r' =>
                      if ((c' =? "+") || (c' =? "-"))%char
                      then (String c' "", r') else ("", r)
                  | "" => ("", r)
                  end in
                match span_digits r1 with
                | ("", _) => None
                | (ds, r2) =>
                    Some (sign +:+ ip +:+ fp +:+ String c esign +:+ ds, r2)
                end
              else Some (sign +:+ ip +:+ fp, s3)
          | "" => Some (sign +:+ ip +:+ fp, s3)
          end
      end
  end.

Definition max_nesting_depth : N := 10000.

(** A value starting at the head of [s] (white space already skipped);
    [depth] counts the containers that are open. *)
Fixpoint parse_value (fuel : nat) (depth : N) (s : string)
    : option (json * string) :=
  match fuel, s with
  | S fuel', String c rest =>
      if (c =? "{")%char then
        if (max_nesting_depth <=? depth)%N then None
        else
          match skip_ws rest with
          | String c' rest' =>
              if (c' =? "}")%char then Some (JObject [], rest')
              else
                match parse_members fuel' (depth + 1) (skip_ws rest) with
                | Some (ms, r) => Some (JObject ms, r)
                | None => None
                end
          | "" => None
          end
      else if (c =? "[")%char then
        if (max_nesting_depth <=? depth)%N then None
        else
          match skip_ws rest with
          | String c' rest' =>
              if (c' =? "]")%char then Some (JArray [], rest')
              else
                match parse_elems fuel' (depth + 1) (skip_ws rest) with
                | Some (vs, r) => Some (JArray vs, r)
                | None => None
                end
          | "" => None
          end
      else if (c =? "034")%char then
        match parse_str (String.length rest) rest with
        | Some (str, r) => Some (JString str, r)
        | None => None
        end
      else if (c =? "-")%char || is_digit c then
        match parse_number s with
        | Some (lit, r) => Some (JNumber lit, r)
        | None => None
        end
      else if strings_HasPrefix s "true" then Some (JBool true, str_drop 4 s)
      else if strings_HasPrefix s "false" then Some (JBool false, str_drop 5 s)
      else if strings_HasPrefix s "null" then Some (JNull, str_drop 4 s)
      else None
  | _, _ => None
  end
with parse_elems (fuel : nat) (depth : N) (s : string)
    : option (list json * string) :=
  match fuel with
  | S fuel' =>
      match parse_value fuel' depth s with
      | Some (v, r) =>
          match skip_ws r with
          | String c r' =>
              if (c =? ",")%char then
                match parse_elems fuel' depth (skip_ws r') with
                | Some (vs, r'') => Some (v :: vs, r'')
                | None => None
                end
              else if (c =? "]")%char then Some ([v], r')
              else None
          | "" => None
          end
      | None => None
      end
  | O => None
  end
with parse_members (fuel : nat) (depth : N) (s : string)
    : option (list (string * json) * string) :=
  match fuel, s with
  | S fuel', String q key_rest =>
      if (q =? "034")%char then
        match parse_str (String.length key_rest) key_rest with
        | Some (key, r0) =>
            match skip_ws r0 with
            | String colon r1 =>
                if (colon =? ":")%char then
                  match parse_value fuel' depth (skip_ws r1) with
                  | Some (v, r2) =>
                      match skip_ws r2 with
                      | String c r3 =>
                          if (c =? ",")%char then
                            match parse_members fuel' depth (skip_ws r3) with
                            | Some (ms, r4) => Some ((key, v) :: ms, r4)
                            | None => None
                            end
                          else if (c =? "}")%char then Some ([(key, v)], r3)
                          else None
                      | "" => None
                      end
                  | None => None
                  end
                else None
            | "" => None
            end
        | None => None
        end
      else None
  | _, _ => None
  end.

(** The value a whole text denotes, when the text is valid JSON.  Every
    recursive call of the parser follows the consumption of a byte or hands
    the same input to [parse_value], so [2 * length + 2] steps suffice. *)
Definition json_parse (s : string) : option json :=
  match parse_value (2 * String.length s + 2) 0 (skip_ws s) with
  | Some (v, rest) =>
      match skip_ws rest with
      | "" => Some v
      | _ => None
      end
  | None => None
  end.

(** *** [json.Unmarshal] into the four targets the program uses

    [Unmarshal] first checks that the whole text is valid JSON and then
    stores it into the target; a value of the wrong kind makes the call
    fail, and [null] leaves a string at its zero value. *)

Definition string_or_null (v : json) : option string :=
  match v with
  | JString s => Some s
  | JNull => Some ""
  | _ => None
  end.

(** Target [[]string] ([parseArguments]). *)
Definition json_Unmarshal_strings (data : string) : option (list string) :=
  match json_parse data with
  | Some JNull => Some []
  | Some (JArray vs) => mapM string_or_null vs
  | _ => None
  end.

(** *** [strconv.ParseFloat(s, 64)] on a number literal

    Stored into an [interface{}], a number is converted with
    [strconv.ParseFloat(s, 64)].  A literal denotes [m * 10^e] for a
    natural number [m] (the digits of the integer part and of the
    fraction) and an integer [e].  The conversion rounds to the nearest
    [float64], ties to even, and fails with a range error exactly when the
    result is infinite: when the magnitude is at least [2^1024 - 2^970],
    halfway between the largest [float64] and [2^1024].  A magnitude too
    small for a [float64] gives zero and no error. *)

Fixpoint digits_value (acc : Z) (s : string) : Z :=
  match s with
  | "" => acc
  | String c s' => digits_value (10 * acc + Z.of_N (byte_val c - 48)) s'
  end.

(** The mantissa [m] and the exponent [e] of a literal. *)
Definition decimal_of_literal (lit : string) : Z * Z :=
  let s := match lit with
           | String c r => if (c =? "-")%char then r else lit
           | "" => lit
           end in
  let '(ip, s1) := span_digits s in
  let '(fp, s2) :=
    match s1 with
    | String c r => if (c =? ".")%char then span_digits r else ("", s1)
    | "" => ("", s1)
    end in
  let e :=
    match s2 with
    | String _ (String c ds) =>
        if (c =? "-")%char then (- digits_value 0 ds)%Z
        else if (c =? "+")%char then digits_value 0 ds
        else digits_value 0 (String c ds)
    | _ => 0%Z
    end in
  (digits_value 0 (ip +:+ fp), (e - Z.of_nat (String.length fp))%Z).

Definition float64_overflow : Z := (2 ^ 1024 - 2 ^ 970)%Z.

(** [strconv.ParseFloat(lit, 64)] returns a range error. *)
Definition ParseFloat_range_error (lit : string) : bool :=
  let '(m, e) := decimal_of_literal lit in
  if (0 <=? e)%Z then (float64_overflow <=? m * 10 ^ e)%Z
  else (float64_overflow * 10 ^ (- e) <=? m)%Z.

(** Every number of a value, at any depth, converts to a [float64]. *)
Fixpoint float64_numbers (v : json) : bool :=
  match v with
  | JNumber lit => negb (ParseFloat_range_error lit)
  | JArray vs => forallb float64_numbers vs
  | JObject ms => forallb (λ '(_, v), float64_numbers v) ms
  | _ => true
  end.

(** Target [map[string]interface{}] (first line of the console output):
    every value is stored, and a number that does not convert makes the
    call return an error. *)
Definition json_Unmarshal_any_map (data : string)
    : option (list (string * json)) :=
  match json_parse data with
  | Some JNull => Some []
  | Some (JObject ms) =>
      if forallb (λ '(_, v), float64_numbers v) ms then Some ms else None
  | _ => None
  end.

(** Target [map[string]string] (each line of the console output); a key
    that occurs twice keeps its last value. *)
Definition json_Unmarshal_string_map (data : string)
    : option (gmap string string) :=
  match json_parse data with
  | Some JNull => Some ∅
  | Some (JObject ms) =>
      match mapM (λ kv : string * json, pair kv.1 <$> string_or_null kv.2) ms with
      | Some kvs => Some (list_to_map (reverse kvs))
      | None => None
      end
  | _ => None
  end.

(** Struct fields are matched by name, exactly or up to (ASCII) case. *)
Definition field_matches (key name : string) : bool :=
  str_eqb (strings_ToLower key) (strings_ToLower name).

(** One string field of a struct target: the members are stored in order. *)
Fixpoint store_string_field (name : string) (ms : list (string * json))
    (cur : string) : option string :=
  match ms with
  | [] => Some cur
  | (k, v) :: ms' =>
      if field_matches k name then
        match v with
        | JString s => store_string_field name ms' s
        | JNull => store_string_field name ms' cur
        | _ => None
        end
      else store_string_field name ms' cur
  end.

(** Target [struct { ScriptHash string `json:"script_hash"` }]
    ([getScriptHashFromServer]). *)
Definition json_Unmarshal_hash_reply (data : string) : option string :=
  match json_parse data with
  | Some JNull => Some ""
  | Some (JObject ms) => store_string_field "script_hash" ms ""
  | _ => None
  end.

(** ** [encoding/json]: encoding of strings

    [json.Marshal] on a string, with the default HTML escaping: quote and
    backslash get a backslash, control characters and [<], [>], [&] a short
    or [\u00XX] escape, U+2028 and U+2029 are escaped, and a byte that does
    not start a well-formed UTF-8 sequence is written as the escape of U+FFFD. *)

Definition u00 (c : ascii) : string :=
  "\u00" +:+ String (hex_digit (N.shiftr (byte_val c) 4))
                (String (hex_digit (N.land (byte_val c) 15)) "").

Definition escape_ascii (c : ascii) : string :=
  if ((c =? "034") || (c =? "\"))%char then String "\" (String c "")
  else if (c =? "008")%char then "\b"
  else if (c =? "012")%char then "\f"
  else if (c =? "010")%char then "\n"
  else if (c =? "013")%char then "\r"
  else if (c =? "009")%char then "\t"
  else if (byte_val c <? 32)%N || (c =? "<")%char || (c =? ">")%char
          || (c =? "&")%char then u00 c
  else String c "".

Definition line_separator : string := utf8_EncodeRune 8232.
Definition paragraph_separator : string := utf8_EncodeRune 8233.

Fixpoint json_escape (fuel : nat) (s : string) : string :=
  match fuel, s with
  | S fuel', String c rest =>
      if (byte_val c <? 128)%N then escape_ascii c +:+ json_escape fuel' rest
      else
        match utf8_width s with
        | None => "\ufffd" +:+ json_escape fuel' rest
        | Some n =>
            let chunk := str_take n s in
            (if str_eqb chunk line_separator then "\u2028"
             else if str_eqb chunk paragraph_separator then "\u2029"
             else chunk) +:+ json_escape fuel' (str_drop n s)
        end
  | _, _ => ""
  end.

Definition dquote : string := String "034" "".

Definition json_Marshal_string (s : string) : string :=
  dquote +:+ json_escape (String.length s) s +:+ dquote.

(** ** Data model of the program *)

Definition error := string.

(** [Script] (main.go). *)
Record Script := mkScript {
  Name : string;
  Description : string;
  Contents : string;
  Hash : string;
  Cached : bool
}.

Definition Script_zero : Script := mkScript "" "" "" "" false.

(** [ExecutionResult] (main.go). *)
Record ExecutionResult := mkExecutionResult {
  JobID : string;
  ScriptName : string;
  Args : string;
  ConsoleOut : string;
  ErrorOut : string;
  ExecutionTime : string;
  Duration : string;
  ScriptHash : string;
  FromCache : string;
  CacheEnabled : string;
  Status : string
}.

(** [CacheMeta] (cache.go); a [time.Time] is an instant, counted in
    nanoseconds. *)
Record CacheMeta := mkCacheMeta {
  meta_ScriptHash : string;
  meta_ScriptName : string;
  meta_CacheTime : Z
}.

Definition CacheMeta_zero (zero_time : Z) : CacheMeta :=
  mkCacheMeta "" "" zero_time.

(** [ScoutConfig] (utils.go); durations are counted in nanoseconds. *)
Record ScoutConfig := mkScoutConfig {
  ServerURL : string;
  PublicKey : string;
  CacheWindow : Z;
  ExecTimeout : Z;
  CacheDir : string
}.

(** The part of [table.QueryContext] that the program reads. *)
Inductive Operator : Type :=
  | OperatorEquals
  | OperatorGreaterThan
  | OperatorLessThanOrEquals
  | OperatorLessThan
  | OperatorGreaterThanOrEquals
  | OperatorMatch
  | OperatorLike
  | OperatorGlob
  | OperatorRegexp
  | OperatorUnique.

Record Constraint := mkConstraint {
  Op : Operator;
  Expression : string
}.

Abbreviation QueryContext := (gmap string (list Constraint)).

(** ** Library functions that stay abstract

    Cryptography, URL and path normalisation and the rendering of times are
    Go library code whose results the program only passes on; they are
    parameters of the model. *)

Inductive pkix_key (K : Type) : Type :=
  | PkixError (e : error)
  | PkixRSA (k : K)
  | PkixOther.

Arguments PkixError {K} e.
Arguments PkixRSA {K} k.
Arguments PkixOther {K}.

Record GoLib := mkGoLib {
  (** [sha256.New(); Write; Sum(nil)]: the 32-byte digest *)
  sha256_Sum : string → string;
  (** [*rsa.PublicKey] *)
  rsa_PublicKey : Type;
  (** [pem.Decode]: the bytes of the first block, if there is one *)
  pem_Decode : string → option string;
  (** [x509.ParsePKIXPublicKey] followed by the type assertion to RSA *)
  x509_ParsePKIXPublicKey : string → pkix_key rsa_PublicKey;
  (** [rsa.VerifyPKCS1v15(pub, crypto.SHA256, hashed, sig)]: [None] is [nil] *)
  rsa_VerifyPKCS1v15 : rsa_PublicKey → string → string → option error;
  (** [url.PathEscape] *)
  url_PathEscape : string → string;
  (** [filepath.Join] of a directory and a file name *)
  filepath_Join : string → string → string;
  (** [time.Time.MarshalJSON], without the surrounding quotes *)
  time_MarshalJSON : Z → option string;
  (** [time.Time.UnmarshalJSON] on the content of a string literal *)
  time_UnmarshalJSON : string → option Z;
  (** [t.Format(time.RFC3339)] and [Duration.String] *)
  time_Format_RFC3339 : Z → string;
  duration_String : Z → string
}.

(** ** The world the program runs in *)

(** What [http.Get] hands back: status code, body (and the error of reading
    it, if any) and the [X-Signature] header ([""] when absent). *)
Record HttpResponse := mkHttpResponse {
  StatusCode : Z;
  Body : string;
  BodyErr : option error;
  Header_X_Signature : string
}.

(** What becomes of a child process: whether it could be started, what it
    wrote, what [Wait] returned, how long it ran, and whether the context's
    deadline had passed when [Wait] returned.  What a child does to the
    file system is outside the model: nothing is stated about the files
    after a process has run. *)
Record ProcOutcome := mkProcOutcome {
  start_err : option error;
  proc_stdout : string;
  proc_stderr : string;
  wait_err : option error;
  elapsed : Z;
  deadline_exceeded : bool
}.

(** System calls issued by the program, in order. *)
Inductive event : Type :=
  | EvHttpGet (url : string)
  | EvMkdirAll (path : string)
  | EvWriteFile (path : string) (data : string)
  | EvRemove (path : string)
  | EvChmod (path : string)
  | EvSpawn (program : string) (args : list string) (timeout : option Z)
  | EvKill (program : string).

(** [goos] is [runtime.GOOS], [scoutConfig] the package-level variable.
    [faults] decides, call by call, whether the next system call fails for
    a reason of its own (permissions, a full disk, a broken connection);
    once the list is used up no such failure happens. *)
Record World := mkWorld {
  goos : string;
  scoutConfig : ScoutConfig;
  files : gmap string string;
  dirs : gset string;
  clock : Z;
  server : gmap string HttpResponse;
  proc : string → list string → option Z → ProcOutcome;
  powershell_exe : string;
  temp_dir : string;
  temp_seq : nat;
  faults : list bool;
  trace : list event
}.

Definition set_files (f : gmap string string) (w : World) : World :=
  mkWorld (goos w) (scoutConfig w) f (dirs w) (clock w) (server w) (proc w)
    (powershell_exe w) (temp_dir w) (temp_seq w) (faults w) (trace w).

Definition set_dirs (d : gset string) (w : World) : World :=
  mkWorld (goos w) (scoutConfig w) (files w) d (clock w) (server w) (proc w)
    (powershell_exe w) (temp_dir w) (temp_seq w) (faults w) (trace w).

Definition set_temp_seq (n : nat) (w : World) : World :=
  mkWorld (goos w) (scoutConfig w) (files w) (dirs w) (clock w) (server w)
    (proc w) (powershell_exe w) (temp_dir w) n (faults w) (trace w).

Definition set_faults (fs : list bool) (w : World) : World :=
  mkWorld (goos w) (scoutConfig w) (files w) (dirs w) (clock w) (server w)
    (proc w) (powershell_exe w) (temp_dir w) (temp_seq w) fs (trace w).

Definition set_trace (t : list event) (w : World) : World :=
  mkWorld (goos w) (scoutConfig w) (files w) (dirs w) (clock w) (server w)
    (proc w) (powershell_exe w) (temp_dir w) (temp_seq w) (faults w) t.

(** ** The monad of the program: state passing, with panics *)

Inductive res (A : Type) : Type :=
  | Ret (a : A)
  | Panic (msg : string).

Arguments Ret {A} a.
Arguments Panic {A} msg.

Definition M (A : Type) : Type := World → res A * World.

Global Instance M_ret : MRet M := λ A a w, (Ret a, w).

Global Instance M_bind : MBind M := λ A B k m w,
  match m w with
  | (Ret a, w') => k a w'
  | (Panic msg, w') => (Panic msg, w')
  end.

Definition ret {A} (a : A) : M A := mret a.

Definition panic {A} (msg : string) : M A := λ w, (Panic msg, w).

Definition get_world : M World := λ w, (Ret w, w).

(** [defer cleanup]: the cleanup runs when the body returns or panics. *)
Definition defer {A} (cleanup : M unit) (body : M A) : M A :=
  λ w, let '(r, w1) := body w in
       let '(_, w2) := cleanup w1 in (r, w2).

Definition emit (e : event) : M unit :=
  λ w, (Ret tt, set_trace (trace w ++ [e]) w).

(** The next entry of [faults]. *)
Definition fault : M bool :=
  λ w, match faults w with
       | [] => (Ret false, w)
       | b :: fs => (Ret b, set_faults fs w)
       end.

(** ** System calls *)

Inductive stat_result : Type :=
  | StatOk
  | StatNotExist
  | StatError (e : error).

(** [os.Stat]. *)
Definition os_Stat (path : string) : M stat_result :=
  f ← fault;
  w ← get_world;
  if (f : bool) then ret (StatError ("stat " +:+ path +:+ ": input/output error"))
  else if bool_decide (is_Some (files w !! path)) || bool_decide (path ∈ dirs w)
  then ret StatOk
  else ret StatNotExist.

(** [os.ReadFile]. *)
Definition os_ReadFile (path : string) : M (string * option error) :=
  f ← fault;
  w ← get_world;
  if (f : bool) then ret ("", Some ("read " +:+ path +:+ ": input/output error"))
  else match files w !! path with
       | Some data => ret (data, None)
       | None => ret ("", Some ("open " +:+ path +:+ ": no such file or directory"))
       end.

(** [os.WriteFile]: creates the file or replaces its content. *)
Definition os_WriteFile (path data : string) : M (option error) :=
  _ ← emit (EvWriteFile path data);
  f ← fault;
  if (f : bool) then ret (Some ("write " +:+ path +:+ ": input/output error"))
  else λ w, (Ret None, set_files (<[path := data]> (files w)) w).

(** [os.Remove]. *)
Definition os_Remove (path : string) : M (option error) :=
  _ ← emit (EvRemove path);
  f ← fault;
  w ← get_world;
  if (f : bool) then ret (Some ("remove " +:+ path +:+ ": input/output error"))
  else match files w !! path with
       | Some _ => λ w, (Ret None, set_files (delete path (files w)) w)
       | None => ret (Some ("remove " +:+ path +:+ ": no such file or directory"))
       end.

(** [os.MkdirAll]. *)
Definition os_MkdirAll (path : string) : M (option error) :=
  _ ← emit (EvMkdirAll path);
  f ← fault;
  if (f : bool) then ret (Some ("mkdir " +:+ path +:+ ": permission denied"))
  else λ w, (Ret None, set_dirs ({[path]} ∪ dirs w) w).

(** [os.Chmod]. *)
Definition os_Chmod (path : string) : M (option error) :=
  _ ← emit (EvChmod path);
  f ← fault;
  if (f : bool) then ret (Some ("chmod " +:+ path +:+ ": operation not permitted"))
  else ret None.

(** [http.Get]: the response the server has for the URL, unless the
    transport fails. *)
Definition http_Get (url : string) : M (option HttpResponse * option error) :=
  _ ← emit (EvHttpGet url);
  f ← fault;
  w ← get_world;
  if (f : bool) then ret (None, Some ("Get " +:+ url +:+ ": connection reset by peer"))
  else match server w !! url with
       | Some resp => ret (Some resp, None)
       | None => ret (None, Some ("Get " +:+ url +:+ ": connection refused"))
       end.

(** [io.ReadAll(resp.Body)]. *)
Definition io_ReadAll (resp : HttpResponse) : string * option error :=
  match BodyErr resp with
  | Some e => ("", Some e)
  | None => (Body resp, None)
  end.

(** [time.Now]. *)
Definition time_Now : M Z := λ w, (Ret (clock w), w).

Definition max_Duration : Z := 9223372036854775807.
Definition min_Duration : Z := -9223372036854775808.

(** [t.Sub(u)], which saturates at the bounds of [Duration]. *)
Definition time_Sub (t u : Z) : Z :=
  Z.max min_Duration (Z.min max_Duration (t - u)).

(** The zero [time.Time]: January 1 of year 1, in nanoseconds from the
    epoch of the clock. *)
Definition time_zero : Z := -62135596800 * 1000000000.

(** ** utils.go *)

(** [processContextConstraints]: the expressions of the equality
    constraints on a column, in order. *)
Definition processContextConstraints (queryContext : QueryContext)
    (columnName : string) : list string :=
  match queryContext !! columnName with
  | Some constraintList =>
      omap (λ c, match Op c with
                 | OperatorEquals => Some (Expression c)
                 | _ => None
                 end) constraintList
  | None => []
  end.

(** [processBoolConstraint]. *)
Definition processBoolConstraint (val : string) : bool :=
  let v := strings_ToLower val in
  if str_eqb v "0" || str_eqb v "false" then false
  else if str_eqb v "1" || str_eqb v "true" then true
  else false.

(** ** Script kinds (main.go) *)

Definition has_ext (name ext : string) : bool :=
  strings_HasSuffix (strings_ToLower name) ext.

Definition isVBScript (script : string) : bool :=
  has_ext script ".vbs" || has_ext script ".vbscript".

Definition isBatchScript (scriptName : string) : bool :=
  has_ext scriptName ".bat" || has_ext scriptName ".cmd".

Definition isShellScript (scriptName : string) : bool :=
  has_ext scriptName ".sh".

Definition isPythonScript (scriptName : string) : bool :=
  has_ext scriptName ".py" || has_ext scriptName ".pyc".

Definition isPowerShellScript (script : string) : bool :=
  has_ext script ".ps1" || has_ext script ".psm1" || has_ext script ".psd1".

(** ** [parseArguments] (main.go) *)

Record lexer := mkLexer {
  lx_result : list string;
  lx_currentArg : string;
  lx_inQuotes : bool;
  lx_quoteChar : ascii
}.

Definition lx_write (bytes : string) (st : lexer) : lexer :=
  mkLexer (lx_result st) (lx_currentArg st +:+ bytes) (lx_inQuotes st)
    (lx_quoteChar st).

(** The [switch c] of the loop body. *)
Definition lx_switch (r : rune_at) (st : lexer) : lexer :=
  match r_ascii r with
  | Some c =>
      if ((c =? " ") || (c =? "009"))%char then
        if lx_inQuotes st then lx_write (r_bytes r) st
        else if negb (str_eqb (lx_currentArg st) "") then
          mkLexer (lx_result st ++ [lx_currentArg st]) "" (lx_inQuotes st)
            (lx_quoteChar st)
        else st
      else if ((c =? "034") || (c =? "'"))%char then
        if lx_inQuotes st && (c =? lx_quoteChar st)%char then
          mkLexer (lx_result st) (lx_currentArg st) false (lx_quoteChar st)
        else if negb (lx_inQuotes st) then
          mkLexer (lx_result st) (lx_currentArg st) true c
        else lx_write (r_bytes r) st
      else lx_write (r_bytes r) st
  | None => lx_write (r_bytes r) st
  end.

(** One iteration: the switch, then the test for the last byte offset,
    which appends the argument in progress without resetting it. *)
Definition lx_step (len : nat) (st : lexer) (r : rune_at) : lexer :=
  let st1 := lx_switch r st in
  if (r_index r =? len - 1)%nat && negb (str_eqb (lx_currentArg st1) "")
  then mkLexer (lx_result st1 ++ [lx_currentArg st1]) (lx_currentArg st1)
         (lx_inQuotes st1) (lx_quoteChar st1)
  else st1.

Definition tokenize (args : string) : list string :=
  lx_result
    (foldl (lx_step (String.length args)) (mkLexer [] "" false "000"%char)
       (range_string args)).

Definition parseArguments (args : string) : list string :=
  match json_Unmarshal_strings args with
  | Some array => array
  | None => tokenize args
  end.

(** ** The row projector: the end of [ScoutQuickExecGenerate]

    Rows are [map[string]string]; [range] over a Go map visits each key
    once in an unspecified order, which the model fixes to the order of the
    keys in the text. *)

Abbreviation Row := (gmap string string).

Definition range_keys (ms : list (string * json)) : list string :=
  remove_dups (ms.*1).

(** [json.Unmarshal([]byte(consoleLines[0]), &firstLineData) == nil]. *)
Definition firstLine (consoleLines : list string) : string :=
  default "" (head consoleLines).

Definition isValidJSON (consoleOut : string) : bool :=
  bool_decide
    (is_Some (json_Unmarshal_any_map
                (firstLine (strings_Split consoleOut "010")))).

(** The fields every row of the JSON mode starts with. *)
Definition fixedFields (useCache columns : string) (result : ExecutionResult)
    : Row :=
  <["script_name" := ScriptName result]>
  (<["args" := Args result]>
  (<["from_cache" := useCache]>
  (<["status" := Status result]>
  (<["columns" := columns]> ∅)))).

(** [row[key] = value] for every field of the line: the line wins. *)
Definition jsonRow (useCache columns : string) (result : ExecutionResult)
    (lineData : gmap string string) : Row :=
  lineData ∪ fixedFields useCache columns result.

Definition textRow (useCache : string) (result : ExecutionResult)
    (line : string) : Row :=
  <["script_name" := ScriptName result]>
  (<["args" := Args result]>
  (<["console_out" := line]>
  (<["error_out" := ErrorOut result]>
  (<["execution_time" := ExecutionTime result]>
  (<["duration" := Duration result]>
  (<["script_hash" := ScriptHash result]>
  (<["from_cache" := useCache]>
  (<["status" := Status result]>
  (<["columns" := "console_out"]> ∅))))))))).

Definition projectRows (useCache : string) (result : ExecutionResult)
    : list Row :=
  let consoleLines := strings_Split (ConsoleOut result) "010" in
  match json_Unmarshal_any_map (firstLine consoleLines) with
  | Some firstLineData =>
      let columns := strings_Join (range_keys firstLineData) "," in
      omap (λ line,
              if trims_to_empty line then None
              else jsonRow useCache columns result
                     <$> json_Unmarshal_string_map line)
           consoleLines
  | None =>
      omap (λ line,
              if trims_to_empty line then None
              else Some (textRow useCache result line))
           consoleLines
  end.

Section Scout.

Context (L : GoLib).

(** ** cache.go *)

(** [json.Marshal(CacheMeta{...})]. *)
Definition json_Marshal_CacheMeta (m : CacheMeta) : option string :=
  match time_MarshalJSON L (meta_CacheTime m) with
  | Some t =>
      Some ("{" +:+ dquote +:+ "script_hash" +:+ dquote +:+ ":"
              +:+ json_Marshal_string (meta_ScriptHash m)
              +:+ "," +:+ dquote +:+ "script_name" +:+ dquote +:+ ":"
              +:+ json_Marshal_string (meta_ScriptName m)
              +:+ "," +:+ dquote +:+ "cache_time" +:+ dquote +:+ ":"
              +:+ dquote +:+ t +:+ dquote +:+ "}")
  | None => None
  end.

(** The [cache_time] field: [null] leaves the zero time, a string goes
    through [time.Time.UnmarshalJSON], anything else is an error. *)
Fixpoint store_time_field (name : string) (ms : list (string * json))
    (cur : Z) : option Z :=
  match ms with
  | [] => Some cur
  | (k, v) :: ms' =>
      if field_matches k name then
        match v with
        | JString s =>
            match time_UnmarshalJSON L s with
            | Some t => store_time_field name ms' t
            | None => None
            end
        | JNull => store_time_field name ms' cur
        | _ => None
        end
      else store_time_field name ms' cur
  end.

(** [json.Unmarshal(metadataData, &metadata)]. *)
Definition json_Unmarshal_CacheMeta (data : string) : option CacheMeta :=
  match json_parse data with
  | Some JNull => Some (CacheMeta_zero time_zero)
  | Some (JObject ms) =>
      match store_string_field "script_hash" ms "",
            store_string_field "script_name" ms "",
            store_time_field "cache_time" ms time_zero with
      | Some h, Some n, Some t => Some (mkCacheMeta h n t)
      | _, _, _ => None
      end
  | _ => None
  end.

(** [getOSSubDir]. *)
Definition getOSSubDir (goos : string) : string :=
  if str_eqb goos "windows" then "windows"
  else if str_eqb goos "darwin" then "darwin"
  else "linux".

(** [getScriptURL]. *)
Definition getScriptURL (goos serverURL scriptName : string) : string :=
  strings_TrimRight serverURL "/" +:+ "/" +:+ getOSSubDir goos +:+ "/"
    +:+ url_PathEscape L scriptName.

(** [getSignatureFilePath]. *)
Definition getSignatureFilePath (cacheKey cacheDir : string) : string :=
  filepath_Join L cacheDir (cacheKey +:+ ".script.sig").

(** [getCacheFilePath]. *)
Definition getCacheFilePath (cacheKey cacheDir : string) : string :=
  filepath_Join L cacheDir (cacheKey +:+ ".script").

(** [getCacheKey]. *)
Definition getCacheKey (url : string) : string :=
  hex_EncodeToString (sha256_Sum L url).

(** [loadSignatureFromCache]. *)
Definition loadSignatureFromCache (cacheKey cacheDir : string)
    : M (string * option error) :=
  let signatureFilePath := getSignatureFilePath cacheKey cacheDir in
  '(signature, err) ← os_ReadFile signatureFilePath;
  match err with
  | Some e => ret ("", Some e)
  | None => ret (signature, None)
  end.

(** [loadScriptFromCache]. *)
Definition loadScriptFromCache (cacheKey cacheDir : string)
    : M (string * CacheMeta * option error) :=
  let cacheFilePath := getCacheFilePath cacheKey cacheDir in
  st ← os_Stat cacheFilePath;
  match st with
  | StatNotExist =>
      ret ("", CacheMeta_zero time_zero, Some "cache file does not exist")
  | _ =>
      '(data, err) ← os_ReadFile cacheFilePath;
      match err with
      | Some e => ret ("", CacheMeta_zero time_zero, Some e)
      | None =>
          let metadataFilePath := cacheFilePath +:+ ".meta" in
          '(metadataData, err) ← os_ReadFile metadataFilePath;
          match err with
          | Some e => ret ("", CacheMeta_zero time_zero, Some e)
          | None =>
              match json_Unmarshal_CacheMeta metadataData with
              | None =>
                  ret ("", CacheMeta_zero time_zero,
                       Some "invalid metadata JSON")
              | Some metadata => ret (data, metadata, None)
              end
          end
      end
  end.

(** [if _, err := os.Stat(p); err == nil { err = os.Remove(p); ... }]. *)
Definition remove_if_present (path : string) : M (option error) :=
  st ← os_Stat path;
  match st with
  | StatOk => os_Remove path
  | _ => ret None
  end.

(** [saveScriptToCache]. *)
Definition saveScriptToCache (cacheKey : string) (script : Script)
    (signature : string) (cacheDir : string) : M (option error) :=
  let scriptHash := Hash script in
  let scriptName := Name script in
  let data := Contents script in
  st ← os_Stat cacheDir;
  err ← match st with
        | StatNotExist => os_MkdirAll cacheDir
        | _ => ret None
        end;
  match err with
  | Some e => ret (Some e)
  | None =>
      let cacheFilePath := getCacheFilePath cacheKey cacheDir in
      err ← remove_if_present cacheFilePath;
      match err with
      | Some e => ret (Some e)
      | None =>
          err ← os_WriteFile cacheFilePath data;
          match err with
          | Some e => ret (Some e)
          | None =>
              now ← time_Now;
              match json_Marshal_CacheMeta
                      (mkCacheMeta scriptHash scriptName now) with
              | None => ret (Some "json: error calling MarshalJSON for type time.Time")
              | Some metadataData =>
                  err ← remove_if_present (cacheFilePath +:+ ".meta");
                  match err with
                  | Some e => ret (Some e)
                  | None =>
                      let metadataFilePath := cacheFilePath +:+ ".meta" in
                      err ← os_WriteFile metadataFilePath metadataData;
                      match err with
                      | Some e => ret (Some e)
                      | None =>
                          err ← remove_if_present
                                  (getSignatureFilePath cacheKey cacheDir);
                          match err with
                          | Some e => ret (Some e)
                          | None =>
                              let signatureFilePath :=
                                cacheFilePath +:+ ".sig" in
                              os_WriteFile signatureFilePath signature
                          end
                      end
                  end
              end
          end
      end
  end.

(** [removeScriptFromCache]: the three removals, errors ignored. *)
Definition removeScriptFromCache (cacheKey cacheDir : string) : M unit :=
  let cacheFilePath := getCacheFilePath cacheKey cacheDir in
  _ ← os_Remove cacheFilePath;
  _ ← os_Remove (cacheFilePath +:+ ".meta");
  _ ← os_Remove (getSignatureFilePath cacheKey cacheDir);
  ret tt.

(** [fmt.Sprintf("%d", n)]. *)
Definition fmt_d (n : Z) : string := pretty n.

(** [getScriptHashFromServer]. *)
Definition getScriptHashFromServer (serverURL scriptName : string)
    : M (string * option error) :=
  let hashURL := strings_TrimRight serverURL "/" +:+ "/hash/"
                   +:+ url_PathEscape L scriptName in
  '(resp, err) ← http_Get hashURL;
  match resp, err with
  | Some resp, None =>
      if negb (StatusCode resp =? 200)%Z then
        ret ("", Some ("failed to fetch script hash: received status code "
                         +:+ fmt_d (StatusCode resp)))
      else
        let '(body, err) := io_ReadAll resp in
        match err with
        | Some e =>
            ret ("", Some ("failed to read script hash response: " +:+ e))
        | None =>
            match json_Unmarshal_hash_reply body with
            | None =>
                ret ("", Some "failed to parse script hash JSON: invalid JSON")
            | Some h => ret (h, None)
            end
        end
  | _, Some e => ret ("", Some ("failed to fetch script hash: " +:+ e))
  | None, None => ret ("", Some "failed to fetch script hash: no response")
  end.

(** ** main.go: the resolver *)

(** The freshness gate and the signature gate on a cache entry that was
    loaded: the script to return, or [None] when a gate is closed. *)
Definition checkCached (serverURL publicKeyStr : string) (cacheWindow : Z)
    (cacheKey cacheDir scriptData : string) (scriptMeta : CacheMeta)
    : M (option Script) :=
  let scriptHash := meta_ScriptHash scriptMeta in
  let cacheTimestamp := meta_CacheTime scriptMeta in
  let scriptName := meta_ScriptName scriptMeta in
  now ← time_Now;
  if (time_Sub now cacheTimestamp <? cacheWindow)%Z then
    '(currentHash, err) ← getScriptHashFromServer serverURL scriptName;
    match err with
    | None =>
        if str_eqb currentHash scriptHash then
          let signatureFilePath := getSignatureFilePath cacheKey cacheDir in
          st ← os_Stat signatureFilePath;
          match st with
          | StatOk =>
              '(signature, err) ← loadSignatureFromCache cacheKey cacheDir;
              match err with
              | None =>
                  match pem_Decode L publicKeyStr with
                  | Some block =>
                      match x509_ParsePKIXPublicKey L block with
                      | PkixRSA rsaPub =>
                          let hashed := sha256_Sum L scriptData in
                          let scriptHash := hex_EncodeToString hashed in
                          match rsa_VerifyPKCS1v15 L rsaPub hashed signature with
                          | None =>
                              ret (Some (mkScript scriptName "" scriptData
                                           scriptHash true))
                          | Some _ => ret None
                          end
                      | _ => ret None
                      end
                  | None => ret None
                  end
              | Some _ => ret None
              end
          | _ => ret None
          end
        else ret None
    | Some _ => ret None
    end
  else ret None.

(** The fetch path: GET, signature header, public key, hash, verification,
    save. *)
Definition fetchScript (fullURL cacheKey cacheDir publicKeyStr
    scriptName : string) : M (Script * option error) :=
  '(respHTTP, err) ← http_Get fullURL;
  match err, respHTTP with
  | Some e, _ => ret (Script_zero, Some ("failed to fetch script: " +:+ e))
  | None, None => ret (Script_zero, Some "failed to fetch script: no response")
  | None, Some respHTTP =>
      if negb (StatusCode respHTTP =? 200)%Z then
        ret (Script_zero,
             Some ("failed to fetch script: received status code "
                     +:+ fmt_d (StatusCode respHTTP)))
      else
        let '(scriptData, err) := io_ReadAll respHTTP in
        match err with
        | Some e =>
            ret (Script_zero, Some ("failed to read script data: " +:+ e))
        | None =>
            let signatureHex := Header_X_Signature respHTTP in
            if str_eqb signatureHex "" then
              ret (Script_zero, Some "no signature in response header")
            else
              match hex_DecodeString signatureHex with
              | None =>
                  ret (Script_zero,
                       Some "failed to decode signature: encoding/hex: invalid input")
              | Some signature =>
                  match pem_Decode L publicKeyStr with
                  | None =>
                      ret (Script_zero, Some "failed to parse public key PEM")
                  | Some block =>
                      match x509_ParsePKIXPublicKey L block with
                      | PkixError e =>
                          ret (Script_zero,
                               Some ("failed to parse public key: " +:+ e))
                      | PkixOther =>
                          ret (Script_zero, Some "public key is not rsa")
                      | PkixRSA rsaPub =>
                          let hashed := sha256_Sum L scriptData in
                          let scriptHash := hex_EncodeToString hashed in
                          match rsa_VerifyPKCS1v15 L rsaPub hashed signature with
                          | Some e =>
                              ret (Script_zero,
                                   Some ("Script signature verification failed: "
                                           +:+ e))
                          | None =>
                              let script :=
                                mkScript scriptName "" scriptData scriptHash
                                  false in
                              err ← saveScriptToCache cacheKey script
                                      signature cacheDir;
                              match err with
                              | Some e =>
                                  ret (Script_zero,
                                       Some ("failed to save script to cache: "
                                               +:+ e))
                              | None => ret (script, None)
                              end
                          end
                      end
                  end
              end
        end
  end.

(** The [if useCache] block: load, gates, and removal of the entry when no
    script is returned from it.  The script name is replaced by the one of
    the metadata (the empty one when the load failed). *)
Definition tryCache (serverURL publicKeyStr : string) (cacheWindow : Z)
    (cacheKey cacheDir : string) : M (option Script * string) :=
  '(scriptData, scriptMeta, cacheErr) ← loadScriptFromCache cacheKey cacheDir;
  let scriptName := meta_ScriptName scriptMeta in
  hit ← match cacheErr with
        | None =>
            checkCached serverURL publicKeyStr cacheWindow cacheKey cacheDir
              scriptData scriptMeta
        | Some _ => ret None
        end;
  match hit with
  | Some script => ret (Some script, scriptName)
  | None =>
      _ ← removeScriptFromCache cacheKey cacheDir;
      ret (None, scriptName)
  end.

(** What [getScript] does before the fetch path: with [useCache] the cache
    block, otherwise nothing.  The result is the script to return at once,
    if any, and the script name as the fetch path will see it. *)
Definition cacheBlock (scriptName : string) (useCache : bool)
    : M (option Script * string) :=
  w ← get_world;
  let serverURL := ServerURL (scoutConfig w) in
  let publicKeyStr := PublicKey (scoutConfig w) in
  let cacheWindow := CacheWindow (scoutConfig w) in
  let cacheDir := CacheDir (scoutConfig w) in
  let fullURL := getScriptURL (goos w) serverURL scriptName in
  let cacheKey := getCacheKey fullURL in
  if useCache
  then tryCache serverURL publicKeyStr cacheWindow cacheKey cacheDir
  else ret (None, scriptName).

(** [getScript].  The outer [cacheValid] is never set, so the fetch path
    runs whenever the cache block did not return. *)
Definition getScript (scriptName : string) (useCache : bool)
    : M (Script * option error) :=
  w ← get_world;
  let serverURL := ServerURL (scoutConfig w) in
  let publicKeyStr := PublicKey (scoutConfig w) in
  let cacheDir := CacheDir (scoutConfig w) in
  let fullURL := getScriptURL (goos w) serverURL scriptName in
  let cacheKey := getCacheKey fullURL in
  '(hit, scriptName) ← cacheBlock scriptName useCache;
  match hit with
  | Some script => ret (script, None)
  | None => fetchScript fullURL cacheKey cacheDir publicKeyStr scriptName
  end.

(** ** main.go and powershell.go: the executor *)

Definition set_ConsoleOut (v : string) (r : ExecutionResult) : ExecutionResult :=
  mkExecutionResult (JobID r) (ScriptName r) (Args r) v (ErrorOut r)
    (ExecutionTime r) (Duration r) (ScriptHash r) (FromCache r)
    (CacheEnabled r) (Status r).

Definition set_ErrorOut (v : string) (r : ExecutionResult) : ExecutionResult :=
  mkExecutionResult (JobID r) (ScriptName r) (Args r) (ConsoleOut r) v
    (ExecutionTime r) (Duration r) (ScriptHash r) (FromCache r)
    (CacheEnabled r) (Status r).

Definition set_Status (v : string) (r : ExecutionResult) : ExecutionResult :=
  mkExecutionResult (JobID r) (ScriptName r) (Args r) (ConsoleOut r)
    (ErrorOut r) (ExecutionTime r) (Duration r) (ScriptHash r) (FromCache r)
    (CacheEnabled r) v.

Definition set_Times (start duration : string) (r : ExecutionResult)
    : ExecutionResult :=
  mkExecutionResult (JobID r) (ScriptName r) (Args r) (ConsoleOut r)
    (ErrorOut r) start duration (ScriptHash r) (FromCache r)
    (CacheEnabled r) (Status r).

Definition set_FromCache (v : string) (r : ExecutionResult) : ExecutionResult :=
  mkExecutionResult (JobID r) (ScriptName r) (Args r) (ConsoleOut r)
    (ErrorOut r) (ExecutionTime r) (Duration r) (ScriptHash r) v
    (CacheEnabled r) (Status r).

Definition set_JobID (v : string) (r : ExecutionResult) : ExecutionResult :=
  mkExecutionResult v (ScriptName r) (Args r) (ConsoleOut r)
    (ErrorOut r) (ExecutionTime r) (Duration r) (ScriptHash r) (FromCache r)
    (CacheEnabled r) (Status r).

Definition failed (msg : string) (r : ExecutionResult) : ExecutionResult :=
  set_Status "failed" (set_ErrorOut msg r).

(** [os.CreateTemp("", prefix + "*" + suffix)]: a new empty file.  The name
    is made from a counter of the world and is taken to be the name of no
    file ([os.CreateTemp] tries names until it finds one). *)
Definition os_CreateTemp (prefix suffix : string) : M (string * option error) :=
  f ← fault;
  w ← get_world;
  if (f : bool) then ret ("", Some "open: too many open files")
  else
    let name := temp_dir w +:+ "/" +:+ prefix +:+ pretty (temp_seq w)
                  +:+ suffix in
    λ w, (Ret (name, None),
          set_temp_seq (S (temp_seq w)) (set_files (<[name := ""]> (files w)) w)).

(** [exec.Cmd.Start] followed by [Wait], as the runtime sees them: the
    spawn is recorded and the world says what became of the child. *)
Definition spawn (program : string) (args : list string)
    (timeout : option Z) : M ProcOutcome :=
  _ ← emit (EvSpawn program args timeout);
  w ← get_world;
  ret (proc w program args timeout).

(** [startCommandExecution]; the command and its context are given by the
    program, its arguments and the timeout in seconds. *)
Definition startCommandExecution (program : string) (args : list string)
    (timeout : Z) (execResult : ExecutionResult)
    : M (ExecutionResult * option error) :=
  f ← fault;
  if (f : bool) then
    let e := "pipe: too many open files" in
    ret (failed ("Failed to capture stdout: " +:+ e) execResult, Some e)
  else
    f ← fault;
    if (f : bool) then
      let e := "pipe: too many open files" in
      ret (failed ("Failed to capture stderr: " +:+ e) execResult, Some e)
    else
      startTime ← time_Now;
      out ← spawn program args (Some timeout);
      match start_err out with
      | Some e =>
          ret (failed ("Failed to start command: " +:+ e) execResult, Some e)
      | None =>
          let err := wait_err out in
          if deadline_exceeded out then
            _ ← emit (EvKill program);
            ret (set_Status "timeout"
                   (set_ErrorOut "Script execution timed out" execResult),
                 err)
          else
            let r := set_ConsoleOut (proc_stdout out) execResult in
            let r := set_ErrorOut (ErrorOut r +:+ proc_stderr out) r in
            let r := set_Times (time_Format_RFC3339 L startTime)
                       (duration_String L (elapsed out)) r in
            match err with
            | Some e =>
                ret (set_Status "failed"
                       (set_ErrorOut
                          (ErrorOut r +:+ String "010" "Script execution failed: "
                             +:+ e) r),
                     Some e)
            | None => ret (set_Status "completed" r, None)
            end
      end.

(** [PowerShell.execute] on the session made by [New]: no context, no
    deadline. *)
Definition ps_execute (powerShell scriptPath : string) (args : list string)
    : M (string * string * option error) :=
  let allArgs := ["-NoProfile"; "-ExecutionPolicy"; "Bypass";
                  "-NonInteractive"; "-File"; scriptPath] ++ args in
  out ← spawn powerShell allArgs None;
  match start_err out with
  | Some e => ret ("", "", Some e)
  | None => ret (proc_stdout out, proc_stderr out, wait_err out)
  end.

(** The embedded interpreter of the Windows Python branch: every error
    panics, and the command, local to the branch, is run on the spot. *)
Definition embedded_python (cmdArgs : list string) : M unit :=
  f ← fault;
  if (f : bool) then panic "NewEmbeddedPython failed"
  else
    f ← fault;
    if (f : bool) then panic "PythonCmd failed"
    else
      out ← spawn "python.exe" cmdArgs None;
      match start_err out, wait_err out with
      | Some e, _ => panic e
      | None, Some e => panic e
      | None, None => ret tt
      end.

(** The extension given to the temporary file. *)
Definition fileExt (name : string) : string :=
  if isPowerShellScript name then ".ps1"
  else if isBatchScript name then ".bat"
  else if isVBScript name then ".vbs"
  else if isPythonScript name then ".py"
  else if isShellScript name then ".sh"
  else "".

(** The [switch runtime.GOOS] of [executeScript] and the common execution
    that follows it.  On entry the named result [err] is [nil], and the
    branches for unsupported kinds and hosts return it as it is. *)
Definition dispatch (script : Script) (argsList argsSlice : list string)
    (exec_timeout : Z) (tmpFile : string) (execResult : ExecutionResult)
    : M (ExecutionResult * option error) :=
  w ← get_world;
  let name := Name script in
  let run program cmdArgs :=
    startCommandExecution program cmdArgs exec_timeout
      (set_JobID "quick_exec" execResult) in
  if str_eqb (goos w) "windows" then
    if isPowerShellScript name then
      '(stdOut, stdErr, err) ← ps_execute (powershell_exe w) tmpFile argsList;
      match err with
      | Some e => ret (set_Status "failed" (set_ErrorOut stdErr execResult),
                       Some e)
      | None =>
          ret (set_Status "completed"
                 (set_ErrorOut stdErr (set_ConsoleOut stdOut execResult)),
               None)
      end
    else if isBatchScript name then
      run "cmd.exe" (["/C"; tmpFile] ++ argsList)
    else if isVBScript name then
      run "cscript.exe" ([tmpFile] ++ argsList)
    else if isPythonScript name then
      _ ← embedded_python ([tmpFile] ++ argsList);
      ret (execResult, None)
    else
      ret (failed "Unsupported script type on Windows" execResult, None)
  else if str_eqb (goos w) "darwin" || str_eqb (goos w) "linux" then
    if isShellScript name then
      run "/bin/bash" ([tmpFile] ++ argsSlice)
    else if isPythonScript name then
      run "python3" ([tmpFile] ++ argsSlice)
    else
      ret (failed "Unsupported script type on Unix" execResult, None)
  else
    ret (failed "Unsupported OS" execResult, None).

(** [executeScript]. *)
Definition executeScript (script : Script) (argsList : list string)
    (exec_timeout : Z) : M (ExecutionResult * option error) :=
  let execResult :=
    mkExecutionResult "quick_exec" (Name script) (strings_Join argsList " ")
      "" "" "" "" (Hash script) "" "" "running" in
  '(tmpFile, err) ← os_CreateTemp "remote_script_" (fileExt (Name script));
  match err with
  | Some e =>
      ret (failed ("Failed to create temp file: " +:+ e) execResult, Some e)
  | None =>
      defer (_ ← os_Remove tmpFile; ret tt)
        (err ← os_WriteFile tmpFile (Contents script);
         match err with
         | Some e =>
             ret (failed ("Failed to write script to temp file: " +:+ e)
                    execResult, Some e)
         | None =>
             w ← get_world;
             err ← (if negb (str_eqb (goos w) "windows")
                    then os_Chmod tmpFile else ret None);
             match err with
             | Some e =>
                 ret (failed ("Failed to set script executable: " +:+ e)
                        execResult, Some e)
             | None =>
                 let scriptArgs :=
                   match argsList with
                   | [] => ""
                   | _ => strings_Join argsList " "
                   end in
                 let argsSlice := parseArguments scriptArgs in
                 dispatch script argsList argsSlice exec_timeout tmpFile
                   execResult
             end
         end)
  end.

(** ** main.go: the table generator *)

(** [int(scoutConfig.ExecTimeout.Seconds())], 30 when that is zero. *)
Definition execTimeout (cfg : ScoutConfig) : Z :=
  let s := Z.quot (ExecTimeout cfg) 1000000000 in
  if (s =? 0)%Z then 30%Z else s.

(** [ScoutQuickExecGenerate]. *)
Definition ScoutQuickExecGenerate (queryContext : QueryContext)
    : M (list Row * option error) :=
  let scriptNames := processContextConstraints queryContext "script_name" in
  match scriptNames with
  | [] => ret ([], Some "no script specified in the query")
  | _ :: _ :: _ => ret ([], Some "only one script can be executed at a time")
  | [scriptName] =>
      let argsList := processContextConstraints queryContext "args" in
      let cacheList := processContextConstraints queryContext "from_cache" in
      let useCache := default "false" (head cacheList) in
      let cacheBool := processBoolConstraint useCache in
      '(script, err) ← getScript scriptName cacheBool;
      match err with
      | Some e => ret ([], Some ("failed to get script: " +:+ e))
      | None =>
          w ← get_world;
          '(result, err) ← executeScript script argsList
                             (execTimeout (scoutConfig w));
          match err with
          | Some e => ret ([], Some ("failed to execute script: " +:+ e))
          | None =>
              let result :=
                set_FromCache (if Cached script then "true" else "false")
                  result in
              ret (projectRows useCache result, None)
          end
      end
  end.

End Scout.

(** ** A small instance of the library and of the world

    Used to run the model on concrete inputs.  The digest is the reversed
    input, a public key is any non-empty string, and a signature is valid
    for a digest when it is the key followed by the digest. *)

Definition demo_verify (pub hashed sig : string) : option error :=
  if str_eqb sig (pub +:+ hashed) then None
  else Some "crypto/rsa: verification error".

Definition demoLib : GoLib :=
  mkGoLib
    String.rev
    string
    (λ pemText, if str_eqb pemText "" then None else Some pemText)
    (λ block, PkixRSA block)
    demo_verify
    (λ name, name)
    (λ dir name, dir +:+ "/" +:+ name)
    (λ _, Some "2024-05-01T10:00:00Z")
    (λ _, Some 1714557600000000000%Z)
    (λ _, "2024-05-01T10:00:00Z")
    (λ d, pretty d +:+ "ns").

Definition demo_config : ScoutConfig :=
  mkScoutConfig "http://h/s" "P" 3600000000000 2000000000 "/c".

Definition demo_signature (body : string) : string :=
  hex_EncodeToString ("P" +:+ String.rev body).

(** A server that has one script, [body], under the given URL. *)
Definition demo_server (url body : string) : gmap string HttpResponse :=
  {[ url := mkHttpResponse 200 body None (demo_signature body) ]}.

Definition quiet_proc (stdout : string) : ProcOutcome :=
  mkProcOutcome None stdout "" None 1000000 false.

Definition demo_world (os : string) (srv : gmap string HttpResponse)
    (p : string → list string → option Z → ProcOutcome) : World :=
  mkWorld os demo_config ∅ {["/c"]} 1714557600000000000 srv p
    "powershell.exe" "/tmp" 0 [] [].

Definition eq_constraint (v : string) : list Constraint :=
  [mkConstraint OperatorEquals v].

Definition demo_query (name : string) (args : list string)
    (from_cache : list string) : QueryContext :=
  <["script_name" := eq_constraint name]>
  (<["args" := mkConstraint OperatorEquals <$> args]>
  (<["from_cache" := mkConstraint OperatorEquals <$> from_cache]> ∅)).

(** The hash reply of the demo server for a script: a JSON object with the
    hex digest under [script_hash]. *)
Definition demo_hash_reply (body : string) : HttpResponse :=
  mkHttpResponse 200
    ("{" +:+ dquote +:+ "script_hash" +:+ dquote +:+ ":" +:+ dquote
       +:+ hex_EncodeToString (String.rev body) +:+ dquote +:+ "}")
    None "".

(** Cold cache: the server has [hello.sh] and its hash. *)
Definition hello_server : gmap string HttpResponse :=
  <["http://h/s/hash/hello.sh" := demo_hash_reply "echo hi"]>
  (demo_server "http://h/s/linux/hello.sh" "echo hi").

Definition hello_world : World :=
  demo_world "linux" hello_server (λ _ _ _, quiet_proc "hi").

(** Warm cache: the world after one resolution of [hello.sh]. *)
Definition warm_world : World :=
  Eval vm_compute in (getScript demoLib "hello.sh" false hello_world).2.

(** The world after a second resolution, from the warm cache. *)
Definition rewarmed_world : World :=
  Eval vm_compute in (getScript demoLib "hello.sh" true warm_world).2.

(** A server whose signature for [hello.sh] is not the one of the body. *)
Definition forged_server : gmap string HttpResponse :=
  {[ "http://h/s/linux/hello.sh" :=
       mkHttpResponse 200 "echo pwned" None (demo_signature "echo hi") ]}.

Definition forged_world : World :=
  demo_world "linux" forged_server (λ _ _ _, quiet_proc "").

(** The forged world after the cache block, and after the GET. *)
Definition forged_world_0 : World :=
  Eval vm_compute in (cacheBlock demoLib "hello.sh" true forged_world).2.

Definition forged_world_1 : World :=
  Eval vm_compute in (http_Get "http://h/s/linux/hello.sh" forged_world_0).2.

Definition set_server (srv : gmap string HttpResponse) (w : World) : World :=
  mkWorld (goos w) (scoutConfig w) (files w) (dirs w) (clock w) srv (proc w)
    (powershell_exe w) (temp_dir w) (temp_seq w) (faults w) (trace w).

(** Warm cache, but the hash endpoint of the server is gone. *)
Definition hashless_world : World :=
  Eval vm_compute in
    set_server (demo_server "http://h/s/linux/hello.sh" "echo hi") warm_world.

Definition hello_key : string :=
  Eval vm_compute in getCacheKey demoLib "http://h/s/linux/hello.sh".

(** The same world after the load of the entry, and after the call to the
    hash endpoint. *)
Definition hashless_world_1 : World :=
  Eval vm_compute in (loadScriptFromCache demoLib hello_key "/c" hashless_world).2.

Definition hashless_world_2 : World :=
  Eval vm_compute in
    (getScriptHashFromServer demoLib "http://h/s" "hello.sh" hashless_world_1).2.

(** The same warm cache on a host where the eleventh system call fails;
    the world after the load of the entry, and after the call to the hash
    endpoint. *)
Definition save_fault_world : World :=
  Eval vm_compute in set_faults (replicate 10 false ++ [true]) hashless_world.

Definition save_fault_world_1 : World :=
  Eval vm_compute in
    (loadScriptFromCache demoLib hello_key "/c" save_fault_world).2.

Definition save_fault_world_2 : World :=
  Eval vm_compute in
    (getScriptHashFromServer demoLib "http://h/s" "hello.sh"
       save_fault_world_1).2.

Definition set_proc (p : string → list string → option Z → ProcOutcome)
    (w : World) : World :=
  mkWorld (goos w) (scoutConfig w) (files w) (dirs w) (clock w) (server w) p
    (powershell_exe w) (temp_dir w) (temp_seq w) (faults w) (trace w).

(** Warm cache, and a script that prints one JSON object with a
    [from_cache] field. *)
Definition spoof_world : World :=
  set_proc
    (λ _ _ _, quiet_proc ("{" +:+ dquote +:+ "from_cache" +:+ dquote +:+ ":"
                             +:+ dquote +:+ "zzz" +:+ dquote +:+ "}"))
    warm_world.

(** The query [from_cache = '1'] for [hello.sh] in that world, the rows
    it returns and the world it leaves. *)
Definition spoof_query : QueryContext := demo_query "hello.sh" [] ["1"].

Definition spoof_rows : list Row :=
  Eval vm_compute in
    match (ScoutQuickExecGenerate demoLib spoof_query spoof_world).1 with
    | Ret (rows, _) => rows
    | Panic _ => []
    end.

Definition spoof_end : World :=
  Eval vm_compute in
    (ScoutQuickExecGenerate demoLib spoof_query spoof_world).2.

(** A script of a kind no interpreter is chosen for. *)
Definition notes_server : gmap string HttpResponse :=
  demo_server "http://h/s/linux/notes.txt" "remember the milk".

Definition notes_world : World :=
  demo_world "linux" notes_server (λ _ _ _, quiet_proc "should not run").

(** A script that outlives the deadline: the runtime kills it and [Wait]
    reports the signal. *)
Definition killed_proc : ProcOutcome :=
  mkProcOutcome None "partial output" "" (Some "signal: killed") 2000000000 true.

Definition sleepy_world : World :=
  demo_world "linux" hello_server (λ _ _ _, killed_proc).

(** A Windows host with a batch script. *)
Definition batch_server : gmap string HttpResponse :=
  demo_server "http://h/s/windows/run.bat" "echo %1".

Definition batch_world : World :=
  demo_world "windows" batch_server (λ _ _ _, quiet_proc "a b").

(** ** Notions used in the statements *)

Definition is_write (e : event) : bool :=
  match e with EvWriteFile _ _ => true | _ => false end.

Definition is_spawn (e : event) : bool :=
  match e with EvSpawn _ _ _ => true | _ => false end.

(** [w'] is reached from [w] without any file being written: no call of
    [os.WriteFile] was issued, and every file of [w'] is a file of [w] with
    the content it had. *)
Definition no_write (w w' : World) : Prop :=
  (∀ p, files w' !! p = None ∨ files w' !! p = files w !! p) ∧
  ∃ evs, trace w' = trace w ++ evs ∧ Forall (λ e, is_write e = false) evs.

(** [w'] is reached from [w] on the same host, and every child process
    spawned on the way was given an argument list that satisfies [P]. *)
Definition spawn_ok (P : list string → Prop) (e : event) : Prop :=
  match e with
  | EvSpawn _ args _ => P args
  | _ => True
  end.

Definition spawn_args (P : list string → Prop) (w w' : World) : Prop :=
  goos w' = goos w ∧
  ∃ evs, trace w' = trace w ++ evs ∧ Forall (spawn_ok P) evs.

(** No child process at all. *)
Definition no_spawn : relation World := spawn_args (λ _, False).

(** A relation that is only claimed for runs that start on host [g]. *)
Definition on_host (g : string) (R : relation World) : relation World :=
  λ w w', goos w = g → R w w'.

(** An action that returns in every world: none of its runs panics. *)
Definition Returns {A} (m : M A) : Prop :=
  ∀ w, ∃ a w', m w = (Ret a, w').

(** An action all of whose runs relate the world before to the world
    after, whatever it returns. *)
Definition Preserves {A} (R : relation World) (m : M A) : Prop :=
  ∀ w r w', m w = (r, w') → R w w'.

(** The kinds the executor has an interpreter for, host by host. *)
Definition supported (goos name : string) : bool :=
  if str_eqb goos "windows" then
    isPowerShellScript name || isBatchScript name || isVBScript name
    || isPythonScript name
  else if str_eqb goos "darwin" || str_eqb goos "linux" then
    isShellScript name || isPythonScript name
  else false.






(** The scripts of the demo server, as the resolver returns them. *)
Definition hello_script : Script :=
  mkScript "hello.sh" "" "echo hi" "6968206f686365" false.

Definition notes_script : Script :=
  mkScript "notes.txt" "" "remember the milk"
    (hex_EncodeToString (String.rev "remember the milk")) false.

Definition running (script : Script) (args : string) : ExecutionResult :=
  mkExecutionResult "quick_exec" (Name script) args "" "" "" ""
    (Hash script) "" "" "running".

(** A console output with an empty first line, then one JSON object. *)
Definition blank_then_object : string :=
  String "010" ("{" +:+ dquote +:+ "a" +:+ dquote +:+ ":" +:+ dquote +:+ "1"
                  +:+ dquote +:+ "}").

(** One JSON object with a number that no [float64] holds. *)
Definition overflow_line : string :=
  "{" +:+ dquote +:+ "a" +:+ dquote +:+ ":1e999}".

(** A result whose console output has two object lines around a line that
    is no JSON. *)
Definition mixed_result : ExecutionResult :=
  set_ConsoleOut
    ("{" +:+ dquote +:+ "a" +:+ dquote +:+ ":" +:+ dquote +:+ "1" +:+ dquote
       +:+ "}" +:+ String "010" "oops" +:+ String "010" "{" +:+ dquote +:+ "a"
       +:+ dquote +:+ ":" +:+ dquote +:+ "2" +:+ dquote +:+ "}")
    (running hello_script "").

(** A text that [json.Marshal] leaves as it is between the quotes. *)
Definition json_plain (t : string) : Prop :=
  utf8_ValidString t = true ∧ json_escape (String.length t) t = t.

(** A second version of [hello.sh], and the warm cache after it has been
    saved under the key of the first. *)
Definition bye_script : Script :=
  mkScript "hello.sh" "" "echo bye" "65796220686f6365" false.

Definition resaved_world : World :=
  Eval vm_compute in
    (saveScriptToCache demoLib hello_key bye_script "s2" "/c" warm_world).2.

(** ** table.go *)

Inductive ColumnType : Type :=
  | ColumnTypeText
  | ColumnTypeInteger.

Record ColumnDefinition := mkColumnDefinition {
  column_Name : string;
  column_Type : ColumnType
}.

Definition TextColumn (name : string) : ColumnDefinition :=
  mkColumnDefinition name ColumnTypeText.

Definition IntegerColumn (name : string) : ColumnDefinition :=
  mkColumnDefinition name ColumnTypeInteger.

(** [RemoteExecColumns]. *)
Definition RemoteExecColumns : list ColumnDefinition :=
  [TextColumn "script_name"; TextColumn "args"; TextColumn "console_out";
   TextColumn "error_out"; TextColumn "execution_time"; TextColumn "duration";
   TextColumn "script_hash"; IntegerColumn "from_cache"].

(** [QuickExecColumns]: the table [scout_exec]. *)
Definition QuickExecColumns : list ColumnDefinition :=
  [TextColumn "script_name"; TextColumn "args"; TextColumn "console_out";
   TextColumn "error_out"; TextColumn "execution_time"; TextColumn "duration";
   TextColumn "script_hash"; TextColumn "from_cache"; TextColumn "columns"].

(** [CachedScriptsColumns]: the table [scout_cache]. *)
Definition CachedScriptsColumns : list ColumnDefinition :=
  [TextColumn "name"; TextColumn "description"; TextColumn "hash";
   TextColumn "last_updated"; TextColumn "cache"; TextColumn "path"].

(** [ScheduledExecColumns]. *)
Definition ScheduledExecColumns : list ColumnDefinition :=
  [TextColumn "name"; TextColumn "description"; TextColumn "hash";
   TextColumn "schedule"; TextColumn "last_run"; TextColumn "next_run";
   TextColumn "cache"; TextColumn "path"; TextColumn "status";
   TextColumn "args"].

(** [ExecResultsColumns]. *)
Definition ExecResultsColumns : list ColumnDefinition :=
  [TextColumn "script_name"; TextColumn "args"; TextColumn "console_out";
   TextColumn "error_out"; TextColumn "execution_time"; TextColumn "duration";
   TextColumn "script_hash"; TextColumn "from_cache"; TextColumn "cache";
   TextColumn "timestamp"].

(** ** Directories

    The world names files and directories by their paths, compared as
    strings.  The entries of a directory [dir] are the first components of
    what follows [dir/] in these paths. *)

(** [os.DirEntry], as far as the program reads it. *)
Record DirEntry := mkDirEntry {
  entry_Name : string;
  entry_IsDir : bool
}.

(** The entry of [dir] that [path] lies in or is, and whether [path] is the
    entry itself. *)
Definition entry_of (dir path : string) : option (string * bool) :=
  let prefix := dir +:+ "/" in
  if strings_HasPrefix path prefix then
    match strings_Split (str_drop (String.length prefix) path) "/" with
    | name :: more =>
        if str_eqb name "" then None
        else Some (name, bool_decide (more = []))
    | [] => None
    end
  else None.

(** The entries of [dir], sorted by name; a name that is the one of a file
    of [dir] is a file, every other one a directory. *)
Definition dir_entries (dir : string) (w : World) : list DirEntry :=
  let of_files := omap (entry_of dir) (map_to_list (files w)).*1 in
  let of_dirs := omap (entry_of dir) (elements (dirs w)) in
  let file_names :=
    omap (λ e : string * bool, if e.2 then Some e.1 else None) of_files in
  let names := remove_dups ((of_files ++ of_dirs).*1) in
  (λ n, mkDirEntry n (negb (bool_decide (n ∈ file_names))))
    <$> merge_sort (λ a b, Is_true (String.leb a b)) names.

(** [os.ReadDir]: the entries sorted by file name. *)
Definition os_ReadDir (name : string) : M (list DirEntry * option error) :=
  f ← fault;
  w ← get_world;
  if (f : bool) then ret ([], Some ("open " +:+ name +:+ ": input/output error"))
  else if bool_decide (name ∈ dirs w) then ret (dir_entries name w, None)
  else if bool_decide (is_Some (files w !! name)) then
    ret ([], Some ("readdirent " +:+ name +:+ ": not a directory"))
  else ret ([], Some ("open " +:+ name +:+ ": no such file or directory")).

(** [strings.TrimSuffix]. *)
Definition strings_TrimSuffix (s suffix : string) : string :=
  if strings_HasSuffix s suffix
  then str_take (String.length s - String.length suffix) s
  else s.

(** [cacheDirName] (utils.go). *)
Definition cacheDirName : string := "scout_cache".

(** One row of the table [scout_cache]. *)
Definition cacheRow (name description hash last_updated path : string) : Row :=
  <["name" := name]>
  (<["description" := description]>
  (<["hash" := hash]>
  (<["last_updated" := last_updated]>
  (<["cache" := "true"]>
  (<["path" := path]> ∅))))).

Section ScoutTables.

Context (L : GoLib).

(** ** main.go: the table of the cached scripts

    The world does not record when a file was last written: [mtime] gives
    the [ModTime] that [os.Stat] reports for a path. *)

(** The body of the loop of [ScoutScriptCacheGenerate]: the row for one
    entry of the cache directory, or [None] where the loop continues. *)
Definition cacheEntryRow (mtime : string → Z) (cacheDir : string)
    (file : DirEntry) : M (option Row) :=
  if entry_IsDir file then ret None
  else if negb (strings_HasSuffix (entry_Name file) ".meta") then ret None
  else
    let filePath := cacheDir +:+ "/" +:+ entry_Name file in
    st ← os_Stat filePath;
    match st with
    | StatOk =>
        '(metaData, err) ← os_ReadFile filePath;
        match err with
        | Some _ => ret None
        | None =>
            match json_Unmarshal_CacheMeta L metaData with
            | None => ret None
            | Some scriptMeta =>
                let scriptFilePath := strings_TrimSuffix filePath ".meta" in
                '(scriptData, err) ← os_ReadFile scriptFilePath;
                match err with
                | Some _ => ret None
                | None =>
                    let hashed := sha256_Sum L scriptData in
                    ret (Some (cacheRow (meta_ScriptName scriptMeta) ""
                                 (hex_EncodeToString hashed)
                                 (time_Format_RFC3339 L (mtime filePath))
                                 filePath))
                end
            end
        end
    | _ => ret None
    end.

(** The loop: [results = append(results, row)] entry by entry. *)
Fixpoint cacheRows (mtime : string → Z) (cacheDir : string)
    (files : list DirEntry) : M (list Row) :=
  match files with
  | [] => ret []
  | file :: rest =>
      row ← cacheEntryRow mtime cacheDir file;
      results ← cacheRows mtime cacheDir rest;
      ret (option_list row ++ results)
  end.

(** [ScoutScriptCacheGenerate]. *)
Definition ScoutScriptCacheGenerate (mtime : string → Z)
    (queryContext : QueryContext) : M (list Row * option error) :=
  w ← get_world;
  let cacheDir := CacheDir (scoutConfig w) in
  st ← os_Stat cacheDir;
  err ← match st with
        | StatNotExist => os_MkdirAll cacheDir
        | _ => ret None
        end;
  match err with
  | Some e => ret ([], Some ("failed to create cache directory: " +:+ e))
  | None =>
      '(files, err) ← os_ReadDir cacheDir;
      match err with
      | Some e => ret ([], Some ("failed to read cache directory: " +:+ e))
      | None =>
          results ← cacheRows mtime cacheDir files;
          ret (results, None)
      end
  end.

(** ** utils.go: the cache directory *)

(** [ensureCacheDir]. *)
Definition ensureCacheDir (cacheDir : string) : M (option error) :=
  w ← get_world;
  let cacheDir :=
    if str_eqb cacheDir "" then filepath_Join L (temp_dir w) cacheDirName
    else cacheDir in
  st ← os_Stat cacheDir;
  match st with
  | StatNotExist =>
      err ← os_MkdirAll cacheDir;
      match err with
      | Some e =>
          ret (Some ("failed to create cache directory " +:+ cacheDir +:+ ": "
                       +:+ e))
      | None => ret None
      end
  | _ => ret None
  end.

(** What a row of the table [scout_cache] says, in terms of the files of
    the world. *)
Definition describes_entry (mtime : string → Z) (dir : string) (w : World)
    (row : Row) : Prop :=
  ∃ name text meta data,
    strings_HasSuffix name ".meta" = true ∧
    files w !! (dir +:+ "/" +:+ name) = Some text ∧
    json_Unmarshal_CacheMeta L text = Some meta ∧
    files w !! strings_TrimSuffix (dir +:+ "/" +:+ name) ".meta" = Some data ∧
    row = cacheRow (meta_ScriptName meta) ""
            (hex_EncodeToString (sha256_Sum L data))
            (time_Format_RFC3339 L (mtime (dir +:+ "/" +:+ name)))
            (dir +:+ "/" +:+ name).

End ScoutTables.

(** ** More notions used in the statements *)

(** A byte that the tokenizer of [parseArguments] copies as it is: ASCII,
    and neither a blank nor a quote. *)
Definition plain_byte (c : ascii) : bool :=
  (byte_val c <? 128)%N
  && negb ((c =? " ") || (c =? "009") || (c =? "034") || (c =? "'"))%char.

Fixpoint plain_bytes (s : string) : bool :=
  match s with
  | "" => true
  | String c s' => plain_byte c && plain_bytes s'
  end.

(** A non-empty word of such bytes. *)
Definition plain_word (s : string) : Prop :=
  s ≠ "" ∧ plain_bytes s = true.

(** One well-formed UTF-8 sequence of two bytes or more. *)
Definition multibyte_rune (r : string) : Prop :=
  utf8_width r = Some (String.length r) ∧ 2 <= String.length r.

(** A string that does not start with a continuation byte. *)
Definition starts_rune (t : string) : Prop :=
  match t with
  | "" => True
  | String c _ => utf8_cont c = false
  end.

(** The lexer after the runes of [s], none of which is at the last byte
    offset of the argument string. *)
Definition lexer_after (s : string) : lexer :=
  foldl (λ st x, lx_switch x st) (mkLexer [] "" false "000"%char)
    (range_string s).

(** [w'] is reached from [w] by system calls that all satisfy [Q]. *)
Definition emits (Q : event → Prop) : relation World :=
  λ w w', ∃ evs, trace w' = trace w ++ evs ∧ Forall Q evs.

(** [w'] has the files of [w], with their contents. *)
Definition keeps_files : relation World :=
  λ w w', files w' = files w.

(** What no system call changes: the host, the configuration, the clock,
    the server, the behaviour of child processes, the temporary directory;
    and no fault is due after a call when none was due before. *)
Definition same_env : relation World :=
  λ w w', goos w' = goos w ∧ scoutConfig w' = scoutConfig w
          ∧ clock w' = clock w ∧ server w' = server w ∧ proc w' = proc w
          ∧ powershell_exe w' = powershell_exe w ∧ temp_dir w' = temp_dir w
          ∧ (faults w = [] → faults w' = []).

(** The deadline under which a child process was spawned, for the system
    calls that spawn one. *)
Definition spawned_with (P : string → option Z → Prop) (e : event) : Prop :=
  match e with
  | EvSpawn program _ timeout => P program timeout
  | _ => True
  end.


(** A lower-case hexadecimal digit. *)
Definition is_lower_hex (c : ascii) : bool :=
  byte_in 48 57 c || byte_in 97 102 c.

Fixpoint string_forallb (f : ascii → bool) (s : string) : bool :=
  match s with
  | "" => true
  | String c s' => f c && string_forallb f s'
  end.

(** The names of the columns a table declares. *)
Definition column_names (columns : list ColumnDefinition) : gset string :=
  list_to_set (column_Name <$> columns).

(** [w'] has the directories of [w], and possibly more. *)
Definition grows_dirs : relation World :=
  λ w w', dirs w ⊆ dirs w'.

(** A system call that, if it is a call of [os.WriteFile], stores a part
    of the cache entry with payload path [p]: the payload [data] in [p],
    the metadata in [p.meta], or the signature in [p.sig]. *)
Definition writes_entry (p data signature : string) (e : event) : Prop :=
  match e with
  | EvWriteFile path d =>
      (path = p ∧ d = data) ∨ path = p +:+ ".meta"
      ∨ (path = p +:+ ".sig" ∧ d = signature)
  | _ => True
  end.

(** ** More runs of the demo host *)

(** A run of [hello.sh], as resolved from the server, on the demo host: the
    result and the world it leaves. *)
Definition hello_run : ExecutionResult * option error :=
  Eval vm_compute in
    match (executeScript demoLib hello_script [] 2 hello_world).1 with
    | Ret r => r
    | Panic _ => (running hello_script "", None)
    end.

Definition hello_ran : World :=
  Eval vm_compute in (executeScript demoLib hello_script [] 2 hello_world).2.

(** The same script with two arguments. *)
Definition hello_args_run : ExecutionResult * option error :=
  Eval vm_compute in
    match (executeScript demoLib hello_script ["-n"; "5"] 2 hello_world).1 with
    | Ret r => r
    | Panic _ => (running hello_script "", None)
    end.

Definition hello_args_ran : World :=
  Eval vm_compute in
    (executeScript demoLib hello_script ["-n"; "5"] 2 hello_world).2.

(** A Windows host, a PowerShell script and a Python script. *)
Definition windows_world : World :=
  demo_world "windows" ∅ (λ _ _ _, quiet_proc "ok").

Definition ps_script : Script :=
  mkScript "run.ps1" "" "Get-Date" "" false.

Definition py_script : Script :=
  mkScript "run.py" "" "print(1)" "" false.

Definition ps_run : ExecutionResult * option error :=
  Eval vm_compute in
    match (executeScript demoLib ps_script [] 2 windows_world).1 with
    | Ret r => r
    | Panic _ => (running ps_script "", None)
    end.

Definition ps_ran : World :=
  Eval vm_compute in (executeScript demoLib ps_script [] 2 windows_world).2.

Definition py_ran : World :=
  Eval vm_compute in (executeScript demoLib py_script [] 2 windows_world).2.

(** [hello.sh] as the warm cache gives it back. *)
Definition hello_cached : Script :=
  mkScript "hello.sh" "" "echo hi" "6968206f686365" true.

(** The query [from_cache = '1'] for [hello.sh] on the cold cache. *)
Definition cold_end : World :=
  Eval vm_compute in
    (ScoutQuickExecGenerate demoLib spoof_query hello_world).2.

(** The warm cache after the entry of [hello.sh] has been removed. *)
Definition emptied_world : World :=
  Eval vm_compute in
    (removeScriptFromCache demoLib hello_key "/c" warm_world).2.

(** The rows of the table [scout_cache] on the warm cache, every file
    being as old as the epoch. *)
Definition warm_listing : list Row :=
  Eval vm_compute in
    match (ScoutScriptCacheGenerate demoLib (λ _, 0%Z) ∅ warm_world).1 with
    | Ret (rows, _) => rows
    | Panic _ => []
    end.

(** The demo host after [ensureCacheDir] was given the empty path. *)
Definition ensured_world : World :=
  Eval vm_compute in (ensureCacheDir demoLib "" hello_world).2.

(** Queries without a usable [script_name], and with two of them. *)
Definition like_query : QueryContext :=
  {[ "script_name" := [mkConstraint OperatorLike "hello%"] ]}.

Definition two_scripts_query : QueryContext :=
  {[ "script_name" := eq_constraint "a.sh" ++ eq_constraint "b.sh" ]}.

(* ===================================================================== *)
(** * Part II. Properties                                                 *)
(* ===================================================================== *)

Ltac munfold :=
  unfold ret, get_world, mbind, mret, M_bind, M_ret in *.

(** Case analysis along a run: split on every discriminee, drop the cases
    that contradict the run. *)
Ltac run_cases := repeat (case_match; simplify_eq).

(** ** Relations that every step of an action preserves *)

Section Preserves.

Context (R : relation World) `{!PreOrder R}.

Lemma Preserves_mret {A} (a : A) : Preserves R (mret a).
Proof. intros w r w' [= <- <-]. reflexivity. Qed.

Lemma Preserves_ret {A} (a : A) : Preserves R (ret a).
Proof. apply Preserves_mret. Qed.

Lemma Preserves_panic {A} (msg : string) : Preserves R (panic (A:=A) msg).
Proof. intros w r w' [= <- <-]. reflexivity. Qed.

Lemma Preserves_get_world : Preserves R get_world.
Proof. intros w r w' [= <- <-]. reflexivity. Qed.

Lemma Preserves_time_Now : Preserves R time_Now.
Proof. intros w r w' [= <- <-]. reflexivity. Qed.

Lemma Preserves_bind {A B} (m : M A) (k : A → M B) :
  Preserves R m → (∀ a, Preserves R (k a)) → Preserves R (m ≫= k).
Proof.
  intros Hm Hk w r w'. munfold. destruct (m w) as [[a|msg] w1] eqn:E.
  - intros Hr. etrans; [by eapply Hm|by eapply Hk].
  - intros [= <- <-]. by eapply Hm.
Qed.

Lemma Preserves_defer {A} (cleanup : M unit) (body : M A) :
  Preserves R body → Preserves R cleanup → Preserves R (defer cleanup body).
Proof.
  intros Hb Hc w r w'. unfold defer.
  destruct (body w) as [r1 w1] eqn:E1. destruct (cleanup w1) as [r2 w2] eqn:E2.
  intros [= <- <-]. etrans; [by eapply Hb|by eapply Hc].
Qed.

End Preserves.

Create HintDb preserves.

(** Along the structure of an action: binds, branches, and the primitive
    actions registered in the hint database. *)
Ltac preserves :=
  repeat first
    [ match goal with |- PreOrder _ => apply _ end
    | apply Preserves_mret | apply Preserves_ret | apply Preserves_panic
    | apply Preserves_get_world | apply Preserves_time_Now
    | solve [eauto with preserves]
    | (apply Preserves_bind; [| |intros ?])
    | apply Preserves_defer
    | progress cbv zeta
    | match goal with
      | |- Preserves _ (match ?x with _ => _ end) => destruct x
      | |- Preserves _ (if ?x then _ else _) => destruct x
      end ].

(** *** Not writing *)

Global Instance no_write_preorder : PreOrder no_write.
Proof.
  split.
  - intros w. split; [by right|]. exists []. by rewrite app_nil_r.
  - intros w1 w2 w3 [F1 (e1 & T1 & N1)] [F2 (e2 & T2 & N2)]. split.
    + intros p. destruct (F2 p) as [?|E2]; [by left|].
      rewrite E2. apply F1.
    + exists (e1 ++ e2). rewrite T2, T1, app_assoc. split; [done|].
      by apply Forall_app.
Qed.

Lemma NoWrite_fault : Preserves no_write fault.
Proof.
  intros w r w'. unfold fault. destruct (faults w); intros [= <- <-];
    (split; [by right|exists []; by rewrite app_nil_r]).
Qed.

Lemma NoWrite_emit e : is_write e = false → Preserves no_write (emit e).
Proof.
  intros He w r w' [= <- <-]. split; [by right|].
  exists [e]. split; [done|]. by constructor.
Qed.

Lemma NoWrite_delete path :
  Preserves no_write
    (λ w, (Ret (@None error), set_files (delete path (files w)) w)).
Proof.
  intros w r w' [= <- <-]. split.
  - intros p. cbn. destruct (decide (path = p)) as [->|].
    + left. apply lookup_delete_eq.
    + right. by apply lookup_delete_ne.
  - exists []. by rewrite app_nil_r.
Qed.

Lemma NoWrite_emit_remove p : Preserves no_write (emit (EvRemove p)).
Proof. by apply NoWrite_emit. Qed.

Lemma NoWrite_emit_get u : Preserves no_write (emit (EvHttpGet u)).
Proof. by apply NoWrite_emit. Qed.

#[export] Hint Resolve NoWrite_fault NoWrite_delete NoWrite_emit_remove
  NoWrite_emit_get : preserves.

Lemma NoWrite_os_Stat p : Preserves no_write (os_Stat p).
Proof. unfold os_Stat. preserves. Qed.

Lemma NoWrite_os_ReadFile p : Preserves no_write (os_ReadFile p).
Proof. unfold os_ReadFile. preserves. Qed.

Lemma NoWrite_os_Remove p : Preserves no_write (os_Remove p).
Proof. unfold os_Remove. preserves. Qed.

Lemma NoWrite_http_Get u : Preserves no_write (http_Get u).
Proof. unfold http_Get. preserves. Qed.

#[export] Hint Resolve NoWrite_os_Stat NoWrite_os_ReadFile NoWrite_os_Remove
  NoWrite_http_Get : preserves.

(** *** The arguments of the children that are spawned *)

Section SpawnArgs.

Context (P : list string → Prop).

Global Instance spawn_args_preorder : PreOrder (spawn_args P).
Proof.
  split.
  - intros w. split; [done|]. exists []. by rewrite app_nil_r.
  - intros w1 w2 w3 [G1 (e1 & T1 & N1)] [G2 (e2 & T2 & N2)]. split.
    + congruence.
    + exists (e1 ++ e2). rewrite T2, T1, app_assoc. split; [done|].
      by apply Forall_app.
Qed.

Global Instance on_host_preorder g : PreOrder (on_host g (spawn_args P)).
Proof.
  split.
  - intros w _. reflexivity.
  - intros w1 w2 w3 H12 H23 Hg. specialize (H12 Hg).
    etrans; [exact H12|]. apply H23. destruct H12 as [-> _]. exact Hg.
Qed.

Lemma spawn_args_same_trace w w' :
  goos w' = goos w → trace w' = trace w → spawn_args P w w'.
Proof.
  intros Hg Ht. split; [done|]. exists []. by rewrite app_nil_r.
Qed.

Lemma spawn_args_one w w' e :
  goos w' = goos w → trace w' = trace w ++ [e] → spawn_ok P e →
  spawn_args P w w'.
Proof.
  intros Hg Ht He. split; [done|]. exists [e]. by repeat constructor.
Qed.

Lemma SpawnArgs_fault : Preserves (spawn_args P) fault.
Proof.
  intros w r w'. unfold fault.
  destruct (faults w); intros [= <- <-]; by apply spawn_args_same_trace.
Qed.

Lemma SpawnArgs_emit e : spawn_ok P e → Preserves (spawn_args P) (emit e).
Proof. intros He w r w' [= <- <-]. by eapply spawn_args_one. Qed.

Lemma SpawnArgs_emit_kill p : Preserves (spawn_args P) (emit (EvKill p)).
Proof. by apply SpawnArgs_emit. Qed.

Lemma SpawnArgs_os_CreateTemp pre suf :
  Preserves (spawn_args P) (os_CreateTemp pre suf).
Proof.
  intros w r w'. unfold os_CreateTemp, fault. munfold.
  destruct (faults w) as [|[] ?]; intros [= <- <-];
    by apply spawn_args_same_trace.
Qed.

Lemma SpawnArgs_os_WriteFile p d : Preserves (spawn_args P) (os_WriteFile p d).
Proof.
  intros w r w'. unfold os_WriteFile, emit, fault. munfold. cbn.
  destruct (faults w) as [|[] ?]; intros [= <- <-];
    by eapply (spawn_args_one _ _ (EvWriteFile p d)).
Qed.

Lemma SpawnArgs_os_Chmod p : Preserves (spawn_args P) (os_Chmod p).
Proof.
  intros w r w'. unfold os_Chmod, emit, fault. munfold. cbn.
  destruct (faults w) as [|[] ?]; intros [= <- <-];
    by eapply (spawn_args_one _ _ (EvChmod p)).
Qed.

Lemma SpawnArgs_os_Remove p : Preserves (spawn_args P) (os_Remove p).
Proof.
  intros w r w'. unfold os_Remove, emit, fault. munfold. cbn.
  destruct (faults w) as [|[] ?]; cbn; try destruct (files w !! p);
    intros [= <- <-]; by eapply (spawn_args_one _ _ (EvRemove p)).
Qed.

Lemma SpawnArgs_spawn program args timeout :
  P args → Preserves (spawn_args P) (spawn program args timeout).
Proof.
  intros HP w r w'. unfold spawn, emit. munfold. cbn. intros [= <- <-].
  by eapply (spawn_args_one _ _ (EvSpawn program args timeout)).
Qed.

(** A relation that holds of every run holds of the runs on one host. *)
Lemma Preserves_on_host {A} g (R : relation World) (m : M A) :
  Preserves R m → Preserves (on_host g R) m.
Proof. intros H w r w' Hrun _. by eapply H. Qed.

End SpawnArgs.

#[export] Hint Resolve SpawnArgs_fault SpawnArgs_emit_kill
  SpawnArgs_os_CreateTemp SpawnArgs_os_WriteFile SpawnArgs_os_Chmod
  SpawnArgs_os_Remove SpawnArgs_spawn : preserves.

#[export] Hint Extern 5 (Preserves (on_host _ _) _) =>
  apply Preserves_on_host : preserves.

(** System calls when no fault is due. *)
Lemma os_CreateTemp_ok pre suf w :
  faults w = [] →
  ∃ tmp w', os_CreateTemp pre suf w = (Ret (tmp, None), w') ∧
            goos w' = goos w ∧ faults w' = [] ∧ proc w' = proc w ∧
            trace w' = trace w.
Proof.
  intros Hf. unfold os_CreateTemp, fault. munfold. rewrite Hf.
  eexists _, _. split; [reflexivity|]. done.
Qed.

Lemma os_WriteFile_ok p d w :
  faults w = [] →
  ∃ w', os_WriteFile p d w = (Ret None, w') ∧
        goos w' = goos w ∧ faults w' = [] ∧ proc w' = proc w ∧
        trace w' = trace w ++ [EvWriteFile p d].
Proof.
  intros Hf. unfold os_WriteFile, emit, fault. munfold. cbn. rewrite Hf.
  eexists. split; [reflexivity|]. done.
Qed.

Lemma os_Chmod_ok p w :
  faults w = [] →
  ∃ w', os_Chmod p w = (Ret None, w') ∧
        goos w' = goos w ∧ faults w' = [] ∧ proc w' = proc w ∧
        trace w' = trace w ++ [EvChmod p].
Proof.
  intros Hf. unfold os_Chmod, emit, fault. munfold. cbn. rewrite Hf.
  eexists. split; [reflexivity|]. done.
Qed.

Lemma os_Remove_returns p w :
  ∃ r w', os_Remove p w = (Ret r, w') ∧ trace w' = trace w ++ [EvRemove p].
Proof.
  unfold os_Remove, emit, fault. munfold. cbn.
  destruct (faults w) as [|[] ?]; cbn; try destruct (files w !! p);
    eexists _, _; (split; [reflexivity|done]).
Qed.

(** What a removal does to the trace, to the fault list, and, when no fault
    is due, to the files. *)
Lemma os_Remove_spec p w r w' :
  os_Remove p w = (r, w') →
  trace w' = trace w ++ [EvRemove p] ∧ faults w' = tail (faults w) ∧
  (faults w = [] → files w' = delete p (files w)).
Proof.
  unfold os_Remove, emit, fault. munfold. cbn.
  destruct (faults w) as [|[] fs] eqn:Hf; cbn; rewrite ?Hf; cbn.
  - destruct (files w !! p) eqn:Hp; intros [= <- <-]; cbn; rewrite ?Hf.
    + done.
    + split_and!; [done..|]. intros _. symmetry. by apply delete_id.
  - intros [= <- <-]; cbn. done.
  - destruct (files w !! p) eqn:Hp; intros [= <- <-]; cbn; done.
Qed.

(** ** Argument parsing *)

Lemma mapM_string_or_null (arr : list string) :
  mapM string_or_null (JString <$> arr) = Some arr.
Proof.
  induction arr as [|a arr IH]; [done|].
  rewrite fmap_cons. cbn. rewrite IH. done.
Qed.

(** C8.  When the argument string denotes a JSON array of strings, the
    argument parser returns exactly that array, element for element and in
    order; the tokenizer is not consulted. *)
Theorem parseArguments_json_array (a : string) (arr : list string) :
  json_parse a = Some (JArray (JString <$> arr)) →
  parseArguments a = arr.
Proof.
  intros Ha. unfold parseArguments, json_Unmarshal_strings.
  rewrite Ha, mapM_string_or_null. done.
Qed.

Lemma parseArguments_json_array_witness :
  let a := "[" +:+ dquote +:+ "a b" +:+ dquote +:+ ", " +:+ dquote
             +:+ "c'd" +:+ dquote +:+ "]" in
  json_parse a = Some (JArray (JString <$> ["a b"; "c'd"])) ∧
  parseArguments a = ["a b"; "c'd"].
Proof.
  split; [vm_compute; reflexivity|].
  apply parseArguments_json_array. vm_compute. reflexivity.
Defined.

(** ** The resolver *)

Section Resolver.

Context (L : GoLib).

Lemma fetchScript_hash url key dir pk name w s w' :
  fetchScript L url key dir pk name w = (Ret (s, None), w') →
  Hash s = hex_EncodeToString (sha256_Sum L (Contents s)) ∧ Cached s = false.
Proof.
  unfold fetchScript. munfold. intros H. run_cases. done.
Qed.

Lemma checkCached_hash url pk win key dir data meta w s w' :
  checkCached L url pk win key dir data meta w = (Ret (Some s), w') →
  Hash s = hex_EncodeToString (sha256_Sum L (Contents s)) ∧ Cached s = true.
Proof.
  unfold checkCached. munfold. intros H. run_cases. done.
Qed.

(** C1.  Every script that the resolver returns without error, from the
    cache or from the server, carries the hex-encoded SHA-256 of its own
    contents as its hash. *)
Theorem getScript_hash (name : string) (useCache : bool) (w w' : World)
    (s : Script) :
  getScript L name useCache w = (Ret (s, None), w') →
  Hash s = hex_EncodeToString (sha256_Sum L (Contents s)).
Proof.
  unfold getScript, cacheBlock, tryCache. munfold. intros H. run_cases;
    first [ by eapply fetchScript_hash
          | match goal with
            | H : checkCached _ _ _ _ _ _ _ _ _ = _ |- _ =>
                by apply checkCached_hash in H as [? _]
            end ].
Qed.

(** *** The cache block does not write *)

Lemma NoWrite_loadScriptFromCache k d : Preserves no_write (loadScriptFromCache L k d).
Proof. unfold loadScriptFromCache. preserves. Qed.

Lemma NoWrite_getScriptHashFromServer u n :
  Preserves no_write (getScriptHashFromServer L u n).
Proof. unfold getScriptHashFromServer. preserves. Qed.

Lemma NoWrite_removeScriptFromCache k d :
  Preserves no_write (removeScriptFromCache L k d).
Proof. unfold removeScriptFromCache. preserves. Qed.

Lemma NoWrite_checkCached u pk win k d data meta :
  Preserves no_write (checkCached L u pk win k d data meta).
Proof. unfold checkCached. preserves. Qed.

Lemma NoWrite_tryCache u pk win k d : Preserves no_write (tryCache L u pk win k d).
Proof. unfold tryCache. preserves. Qed.

Lemma NoWrite_cacheBlock n u : Preserves no_write (cacheBlock L n u).
Proof. unfold cacheBlock. preserves. Qed.

(** The fetch path stops at a signature that does not verify. *)
Lemma fetchScript_signature_invalid url key dir pk name w w1 resp signature
    block rsaPub e :
  http_Get url w = (Ret (Some resp, None), w1) →
  StatusCode resp = 200%Z →
  BodyErr resp = None →
  Header_X_Signature resp ≠ "" →
  hex_DecodeString (Header_X_Signature resp) = Some signature →
  pem_Decode L pk = Some block →
  x509_ParsePKIXPublicKey L block = PkixRSA rsaPub →
  rsa_VerifyPKCS1v15 L rsaPub (sha256_Sum L (Body resp)) signature = Some e →
  fetchScript L url key dir pk name w
  = (Ret (Script_zero, Some ("Script signature verification failed: " +:+ e)),
     w1).
Proof.
  intros Hget Hst Hbody Hsig Hhex Hpem Hkey Hver.
  unfold fetchScript, io_ReadAll. munfold.
  rewrite Hget, Hst, Hbody. cbn.
  unfold str_eqb. rewrite bool_decide_eq_false_2 by done.
  rewrite Hhex, Hpem, Hkey, Hver. done.
Qed.

(** C2.  When the fetch path is entered (the cache block returned no
    script, leaving the world [w0]), the GET succeeds with a body and a
    decodable signature header, the configured key is an RSA key, and the
    signature does not verify against the digest of the body, then
    [getScript] returns the signature-verification error in the world [w1]
    that the GET left, and between [w] and [w1] no file was written:
    [saveScriptToCache] is not reached, no [os.WriteFile] was issued, and
    every file (the payload, metadata and signature of the key among them)
    is absent or has the content it had. *)
Theorem getScript_signature_invalid (name : string) (useCache : bool)
    (w w0 w1 : World) (name0 : string) (resp : HttpResponse)
    (signature block : string) (rsaPub : rsa_PublicKey L) (e : error) :
  let url := getScriptURL L (goos w) (ServerURL (scoutConfig w)) name in
  cacheBlock L name useCache w = (Ret (None, name0), w0) →
  http_Get url w0 = (Ret (Some resp, None), w1) →
  StatusCode resp = 200%Z →
  BodyErr resp = None →
  Header_X_Signature resp ≠ "" →
  hex_DecodeString (Header_X_Signature resp) = Some signature →
  pem_Decode L (PublicKey (scoutConfig w)) = Some block →
  x509_ParsePKIXPublicKey L block = PkixRSA rsaPub →
  rsa_VerifyPKCS1v15 L rsaPub (sha256_Sum L (Body resp)) signature = Some e →
  getScript L name useCache w
  = (Ret (Script_zero, Some ("Script signature verification failed: " +:+ e)),
     w1)
  ∧ no_write w w1.
Proof.
  intros url Hc Hget Hst Hbody Hsig Hhex Hpem Hkey Hver. split.
  - unfold getScript. munfold. rewrite Hc.
    by eapply fetchScript_signature_invalid.
  - etrans.
    + by eapply NoWrite_cacheBlock.
    + by eapply NoWrite_http_Get.
Qed.

(** *** Actions that return *)

Lemma Returns_ret {A} (a : A) : Returns (ret a).
Proof. intros w. by eexists _, _. Qed.

Lemma Returns_mret {A} (a : A) : Returns (mret a).
Proof. intros w. by eexists _, _. Qed.

Lemma Returns_bind {A B} (m : M A) (k : A → M B) :
  Returns m → (∀ a, Returns (k a)) → Returns (m ≫= k).
Proof.
  intros Hm Hk w. destruct (Hm w) as (a & w1 & E). munfold. rewrite E.
  apply Hk.
Qed.

Lemma Returns_get_world : Returns get_world.
Proof. intros w. by eexists _, _. Qed.

Lemma Returns_time_Now : Returns time_Now.
Proof. intros w. by eexists _, _. Qed.

Lemma Returns_fault : Returns fault.
Proof. intros w. unfold fault. destruct (faults w); by eexists _, _. Qed.

Lemma Returns_emit e : Returns (emit e).
Proof. intros w. by eexists _, _. Qed.

Ltac returns :=
  repeat first
    [ apply Returns_mret | apply Returns_ret | apply Returns_get_world
    | apply Returns_time_Now | apply Returns_fault | apply Returns_emit
    | match goal with
      | |- Returns (λ w, (Ret _, _)) => intros ?; by eexists _, _
      end
    | solve [auto]
    | (apply Returns_bind; [|intros ?])
    | progress cbv zeta
    | match goal with
      | |- Returns (match ?x with _ => _ end) => destruct x
      | |- Returns (if ?x then _ else _) => destruct x
      end ].

Lemma Returns_os_Stat p : Returns (os_Stat p).
Proof. unfold os_Stat. returns. Qed.

Lemma Returns_os_Remove p : Returns (os_Remove p).
Proof. unfold os_Remove. returns. Qed.

Lemma Returns_os_MkdirAll p : Returns (os_MkdirAll p).
Proof. unfold os_MkdirAll. returns. Qed.

Lemma Returns_os_WriteFile p d : Returns (os_WriteFile p d).
Proof. unfold os_WriteFile. returns. Qed.

Lemma Returns_http_Get u : Returns (http_Get u).
Proof. unfold http_Get. returns. Qed.

Lemma Returns_saveScriptToCache k s σ d : Returns (saveScriptToCache L k s σ d).
Proof.
  pose proof Returns_os_Stat. pose proof Returns_os_Remove.
  pose proof Returns_os_MkdirAll. pose proof Returns_os_WriteFile.
  unfold saveScriptToCache, remove_if_present. returns.
Qed.

Lemma Returns_fetchScript url key dir pk name :
  Returns (fetchScript L url key dir pk name).
Proof.
  pose proof Returns_http_Get. pose proof Returns_saveScriptToCache.
  unfold fetchScript, io_ReadAll. returns.
Qed.

(** *** A hash endpoint that fails *)

Lemma removeScriptFromCache_total k d w :
  ∃ w', removeScriptFromCache L k d w = (Ret tt, w').
Proof.
  unfold removeScriptFromCache, os_Remove, emit, fault. munfold.
  run_cases; eauto.
Qed.

Lemma removeScriptFromCache_spec k d w w' :
  removeScriptFromCache L k d w = (Ret tt, w') →
  let p := getCacheFilePath L k d in
  trace w' = trace w ++ [EvRemove p; EvRemove (p +:+ ".meta");
                         EvRemove (getSignatureFilePath L k d)] ∧
  (faults w = [] →
   files w' !! p = None ∧ files w' !! (p +:+ ".meta") = None ∧
   files w' !! getSignatureFilePath L k d = None).
Proof.
  unfold removeScriptFromCache. munfold. intros H.
  set (p := getCacheFilePath L k d) in *.
  destruct (os_Remove _ w) as [[r1|?] w1] eqn:E1; [|done].
  destruct (os_Remove _ w1) as [[r2|?] w2] eqn:E2; [|done].
  destruct (os_Remove _ w2) as [[r3|?] w3] eqn:E3; [|done].
  simplify_eq.
  apply os_Remove_spec in E1 as (T1 & F1 & D1).
  apply os_Remove_spec in E2 as (T2 & F2 & D2).
  apply os_Remove_spec in E3 as (T3 & F3 & D3).
  split.
  - rewrite T3, T2, T1, <- !app_assoc. done.
  - intros Hf. rewrite Hf in *. cbn in *. rewrite F1 in *. cbn in *.
    rewrite F2 in *. rewrite D3, D2, D1 by done.
    split_and!; rewrite !lookup_delete; repeat case_decide; done.
Qed.

Lemma checkCached_hash_unreachable u pk win k d data meta w h e w1 :
  (time_Sub (clock w) (meta_CacheTime meta) <? win)%Z = true →
  getScriptHashFromServer L u (meta_ScriptName meta) w = (Ret (h, Some e), w1) →
  checkCached L u pk win k d data meta w = (Ret None, w1).
Proof.
  intros Hfresh Hhash. unfold checkCached, time_Now. munfold.
  rewrite Hfresh, Hhash. done.
Qed.

(** When the fetch path returns a script. *)
Lemma fetchScript_success url key dir pk name w s w' :
  fetchScript L url key dir pk name w = (Ret (s, None), w') ↔
  ∃ resp signature block rsaPub w1,
    http_Get url w = (Ret (Some resp, None), w1) ∧
    StatusCode resp = 200%Z ∧ BodyErr resp = None ∧
    Header_X_Signature resp ≠ "" ∧
    hex_DecodeString (Header_X_Signature resp) = Some signature ∧
    pem_Decode L pk = Some block ∧
    x509_ParsePKIXPublicKey L block = PkixRSA rsaPub ∧
    rsa_VerifyPKCS1v15 L rsaPub (sha256_Sum L (Body resp)) signature = None ∧
    s = mkScript name "" (Body resp)
          (hex_EncodeToString (sha256_Sum L (Body resp))) false ∧
    saveScriptToCache L key s signature dir w1 = (Ret None, w').
Proof.
  unfold fetchScript, io_ReadAll. munfold. split.
  - intros H.
    destruct (http_Get url w) as [[[[resp|] [e|]]|?] w1] eqn:E1; try done.
    destruct (negb (StatusCode resp =? 200)%Z) eqn:Est; [done|].
    apply negb_false_iff, Z.eqb_eq in Est.
    destruct (BodyErr resp) eqn:Eb; [done|].
    destruct (str_eqb (Header_X_Signature resp) "") eqn:Ex0; [done|].
    apply bool_decide_eq_false in Ex0.
    destruct (hex_DecodeString _) as [signature|] eqn:Eh; [|done].
    destruct (pem_Decode L pk) as [block|] eqn:Ep; [|done].
    destruct (x509_ParsePKIXPublicKey L block) as [?|rsaPub|] eqn:Ex;
      [done| |done].
    destruct (rsa_VerifyPKCS1v15 _ _ _ _) eqn:Ev; [done|].
    destruct (saveScriptToCache _ _ _ _ _ w1) as [[[?|]|?] w2] eqn:Es;
      try done.
    injection H as <- <-. by exists resp, signature, block, rsaPub, w1.
  - intros (resp & signature & block & rsaPub & w1 & -> & -> & -> & Hx & -> & ->
            & -> & -> & -> & Hs).
    change (negb (200 =? 200)%Z) with false. cbv iota.
    unfold str_eqb. rewrite bool_decide_eq_false_2 by done. by rewrite Hs.
Qed.

(** A script comes with no error, and an error with the zero script. *)
Lemma fetchScript_error url key dir pk name w s e w' :
  fetchScript L url key dir pk name w = (Ret (s, Some e), w') → s = Script_zero.
Proof.
  unfold fetchScript, io_ReadAll. munfold. intros H.
  repeat case_match; by simplify_eq.
Qed.

(** C7, as amended.  With [useCache], when the cache entry loads, is
    younger than the cache window, and the call to the hash endpoint of the
    server fails, the resolver does not return the cached script: it
    removes the entry (the three removals are issued, and they leave none
    of the three files when no system call fails) and then is the fetch
    path, run in the world the removal left, under the script name of the
    metadata.  The call returns a script exactly when the re-fetch gives a
    response with status 200 whose body can be read and whose signature
    header decodes and verifies under the configured key, and the fetched
    script is then saved in the cache without error; the script is the
    fetched one, not marked as cached.  In every other case, a failure of
    the re-fetch or of the save, the call returns (it does not panic) an
    error with the zero script. *)
Theorem getScript_hash_endpoint_failure (name : string) (w w1 w2 : World)
    (data : string) (meta : CacheMeta) (h : string) (e : error) :
  let cfg := scoutConfig w in
  let url := getScriptURL L (goos w) (ServerURL cfg) name in
  let key := getCacheKey L url in
  loadScriptFromCache L key (CacheDir cfg) w = (Ret (data, meta, None), w1) →
  (time_Sub (clock w1) (meta_CacheTime meta) < CacheWindow cfg)%Z →
  getScriptHashFromServer L (ServerURL cfg) (meta_ScriptName meta) w1
    = (Ret (h, Some e), w2) →
  ∃ w3,
    removeScriptFromCache L key (CacheDir cfg) w2 = (Ret tt, w3) ∧
    trace w3 = trace w2 ++
      [EvRemove (getCacheFilePath L key (CacheDir cfg));
       EvRemove (getCacheFilePath L key (CacheDir cfg) +:+ ".meta");
       EvRemove (getSignatureFilePath L key (CacheDir cfg))] ∧
    (faults w2 = [] →
     files w3 !! getCacheFilePath L key (CacheDir cfg) = None ∧
     files w3 !! (getCacheFilePath L key (CacheDir cfg) +:+ ".meta") = None ∧
     files w3 !! getSignatureFilePath L key (CacheDir cfg) = None) ∧
    getScript L name true w
    = fetchScript L url key (CacheDir cfg) (PublicKey cfg)
        (meta_ScriptName meta) w3 ∧
    (∃ s err w', getScript L name true w = (Ret (s, err), w')) ∧
    (∀ s w',
       getScript L name true w = (Ret (s, None), w') ↔
       ∃ resp signature block rsaPub w4,
         http_Get url w3 = (Ret (Some resp, None), w4) ∧
         StatusCode resp = 200%Z ∧ BodyErr resp = None ∧
         Header_X_Signature resp ≠ "" ∧
         hex_DecodeString (Header_X_Signature resp) = Some signature ∧
         pem_Decode L (PublicKey cfg) = Some block ∧
         x509_ParsePKIXPublicKey L block = PkixRSA rsaPub ∧
         rsa_VerifyPKCS1v15 L rsaPub (sha256_Sum L (Body resp)) signature
           = None ∧
         s = mkScript (meta_ScriptName meta) "" (Body resp)
               (hex_EncodeToString (sha256_Sum L (Body resp))) false ∧
         saveScriptToCache L key s signature (CacheDir cfg) w4
           = (Ret None, w')) ∧
    (∀ s e' w', getScript L name true w = (Ret (s, Some e'), w') →
                s = Script_zero).
Proof.
  intros cfg url key Hload Hfresh Hhash.
  destruct (removeScriptFromCache_total key (CacheDir cfg) w2) as [w3 Hrm].
  exists w3. split; [done|].
  destruct (removeScriptFromCache_spec _ _ _ _ Hrm) as [Htr Hgone].
  split; [done|]. split; [done|].
  assert (Hget : getScript L name true w
    = fetchScript L url key (CacheDir cfg) (PublicKey cfg)
        (meta_ScriptName meta) w3).
  { unfold getScript, cacheBlock, tryCache. munfold.
    fold cfg. fold url. fold key. rewrite Hload.
    erewrite checkCached_hash_unreachable; [|by apply Z.ltb_lt|done].
    rewrite Hrm. done. }
  split; [done|]. rewrite Hget. split_and!.
  - destruct (Returns_fetchScript url key (CacheDir cfg) (PublicKey cfg)
                (meta_ScriptName meta) w3) as ([s err] & w' & H).
    by exists s, err, w'.
  - intros s w'. apply fetchScript_success.
  - intros s e' w'. apply fetchScript_error.
Qed.

End Resolver.

Lemma getScript_hash_witness :
  let fetched := mkScript "hello.sh" "" "echo hi" "6968206f686365" false in
  let cached := mkScript "hello.sh" "" "echo hi" "6968206f686365" true in
  Hash fetched = hex_EncodeToString (sha256_Sum demoLib (Contents fetched)) ∧
  Hash cached = hex_EncodeToString (sha256_Sum demoLib (Contents cached)).
Proof.
  intros fetched cached. split.
  - apply (getScript_hash demoLib "hello.sh" false hello_world warm_world).
    reflexivity.
  - apply (getScript_hash demoLib "hello.sh" true warm_world rewarmed_world).
    reflexivity.
Defined.

Lemma getScript_signature_invalid_witness :
  getScript demoLib "hello.sh" true forged_world
  = (Ret (Script_zero,
          Some "Script signature verification failed: crypto/rsa: verification error"),
     forged_world_1)
  ∧ no_write forged_world forged_world_1.
Proof.
  apply (getScript_signature_invalid demoLib "hello.sh" true forged_world
           forged_world_0 forged_world_1 ""
           (mkHttpResponse 200 "echo pwned" None (demo_signature "echo hi"))
           ("P" +:+ String.rev "echo hi") "P" "P"
           "crypto/rsa: verification error").
  - reflexivity.
  - reflexivity.
  - reflexivity.
  - reflexivity.
  - discriminate.
  - vm_compute. reflexivity.
  - reflexivity.
  - reflexivity.
  - vm_compute. reflexivity.
Defined.

Lemma getScript_hash_endpoint_failure_witness :
  ∃ w3,
    removeScriptFromCache demoLib hello_key "/c" hashless_world_2 = (Ret tt, w3) ∧
    ∀ s e w', getScript demoLib "hello.sh" true hashless_world
              = (Ret (s, Some e), w') → s = Script_zero.
Proof.
  destruct (getScript_hash_endpoint_failure demoLib "hello.sh" hashless_world
              hashless_world_1 hashless_world_2
              "echo hi"
              (mkCacheMeta "6968206f686365" "hello.sh" 1714557600000000000)
              ""
              "failed to fetch script hash: Get http://h/s/hash/hello.sh: connection refused")
    as (w3 & Hrm & _ & _ & _ & _ & _ & Hzero).
  - reflexivity.
  - vm_compute. reflexivity.
  - reflexivity.
  - exists w3. split; [exact Hrm|exact Hzero].
Defined.

(** C7 as stated fails: here the cache entry loads and is fresh, the hash
    endpoint fails, and the re-fetch does not fail (the server answers the
    script URL with status 200 and a signature that verifies); the write of
    the payload file fails, and so does the call. *)
Lemma getScript_refetch_save_failure_counterexample :
  let url := "http://h/s/linux/hello.sh" in
  let meta := mkCacheMeta "6968206f686365" "hello.sh" 1714557600000000000 in
  let resp := mkHttpResponse 200 "echo hi" None (demo_signature "echo hi") in
  loadScriptFromCache demoLib hello_key "/c" save_fault_world
    = (Ret ("echo hi", meta, None), save_fault_world_1)
  ∧ (time_Sub (clock save_fault_world_1) (meta_CacheTime meta)
       < CacheWindow (scoutConfig save_fault_world))%Z
  ∧ getScriptHashFromServer demoLib "http://h/s" "hello.sh" save_fault_world_1
    = (Ret ("", Some "failed to fetch script hash: Get http://h/s/hash/hello.sh: connection refused"),
       save_fault_world_2)
  ∧ server save_fault_world !! url = Some resp
  ∧ (∃ signature block rsaPub,
       hex_DecodeString (Header_X_Signature resp) = Some signature ∧
       pem_Decode demoLib (PublicKey (scoutConfig save_fault_world))
         = Some block ∧
       x509_ParsePKIXPublicKey demoLib block = PkixRSA rsaPub ∧
       rsa_VerifyPKCS1v15 demoLib rsaPub (sha256_Sum demoLib (Body resp))
         signature = None)
  ∧ (getScript demoLib "hello.sh" true save_fault_world).1
    = Ret (Script_zero,
           Some ("failed to save script to cache: write /c/" +:+ hello_key
                   +:+ ".script: input/output error")).
Proof.
  intros url meta resp. split_and!.
  - vm_compute. reflexivity.
  - vm_compute. reflexivity.
  - vm_compute. reflexivity.
  - vm_compute. reflexivity.
  - do 3 eexists. split_and!; vm_compute; reflexivity.
  - vm_compute. reflexivity.
Qed.

(** ** The executor *)

Lemma get_world_bind {A} (k : World → M A) w : (get_world ≫= k) w = k w w.
Proof. reflexivity. Qed.

(** A run is covered by a statement about all runs. *)
Lemma Preserves_run {A} (R : relation World) (m : M A) w r w' :
  Preserves R m → m w = (r, w') → R w w'.
Proof. intros H. apply H. Qed.

Lemma no_spawn_events w w' :
  no_spawn w w' →
  ∃ evs, trace w' = trace w ++ evs ∧ Forall (λ e, is_spawn e = false) evs.
Proof.
  intros [_ (evs & Ht & Hn)]. exists evs. split; [done|].
  eapply Forall_impl; [exact Hn|]. by intros [].
Qed.

Section Executor.

Context (L : GoLib).

Lemma SpawnArgs_startCommandExecution P program args t r :
  P args → Preserves (spawn_args P) (startCommandExecution L program args t r).
Proof. intros HP. unfold startCommandExecution. preserves. Qed.

Lemma SpawnArgs_ps_execute P ps path args :
  P (["-NoProfile"; "-ExecutionPolicy"; "Bypass"; "-NonInteractive"; "-File";
      path] ++ args) →
  Preserves (spawn_args P) (ps_execute ps path args).
Proof. intros HP. unfold ps_execute. preserves. Qed.

Lemma SpawnArgs_embedded_python P cmdArgs :
  P cmdArgs → Preserves (spawn_args P) (embedded_python cmdArgs).
Proof. intros HP. unfold embedded_python. preserves. Qed.

(** On darwin and linux the interpreter gets the temporary file followed
    by the parsed arguments. *)
Lemma dispatch_unix_args g script argsList argsSlice t tmp r :
  g = "darwin" ∨ g = "linux" →
  Preserves (on_host g (spawn_args (λ args, args = tmp :: argsSlice)))
    (dispatch L script argsList argsSlice t tmp r).
Proof.
  intros Hg w res w' Hrun Hw. revert Hrun. unfold dispatch.
  rewrite get_world_bind, Hw.
  assert (str_eqb g "windows" = false) as ->.
  { apply bool_decide_eq_false. by destruct Hg as [-> | ->]. }
  assert (str_eqb g "darwin" || str_eqb g "linux" = true) as ->.
  { destruct Hg as [-> | ->]; reflexivity. }
  repeat case_match; apply Preserves_run; preserves.
Qed.

(** On Windows every interpreter gets the constraint values as they are,
    after the temporary file (and the switches of the interpreter). *)
Lemma dispatch_windows_args script argsList argsSlice t tmp r :
  Preserves
    (on_host "windows" (spawn_args (λ args, ∃ pre, args = pre ++ argsList)))
    (dispatch L script argsList argsSlice t tmp r).
Proof.
  intros w res w' Hrun Hw. revert Hrun. unfold dispatch.
  rewrite get_world_bind, Hw.
  change (str_eqb "windows" "windows") with true. cbv iota.
  repeat case_match; apply Preserves_run; preserves.
Qed.

(** Where no interpreter is chosen, the named result [err], still nil, is
    what the branch returns. *)
Lemma dispatch_unsupported script argsList argsSlice t tmp r w :
  supported (goos w) (Name script) = false →
  ∃ msg, dispatch L script argsList argsSlice t tmp r w
         = (Ret (failed msg r, None), w).
Proof.
  unfold supported, dispatch. munfold. intros H.
  destruct (str_eqb (goos w) "windows").
  - apply orb_false_iff in H
      as [[[-> ->]%orb_false_iff ->]%orb_false_iff ->]. eauto.
  - destruct (_ || _).
    + apply orb_false_iff in H as [-> ->]. eauto.
    + eauto.
Qed.

Lemma dispatch_unsupported_no_spawn g script argsList argsSlice t tmp r :
  supported g (Name script) = false →
  Preserves (on_host g no_spawn)
    (dispatch L script argsList argsSlice t tmp r).
Proof.
  intros Hs w res w' Hrun Hw. rewrite <- Hw in Hs.
  destruct (dispatch_unsupported script argsList argsSlice t tmp r w Hs)
    as [msg Hd].
  rewrite Hd in Hrun. injection Hrun as <- <-. reflexivity.
Qed.

(** What [executeScript] does around the dispatch never spawns: a property
    of the arguments of the children that holds of the dispatch holds of
    the whole call. *)
Lemma executeScript_spawn_args g P script argsList t :
  (∀ tmp r,
     Preserves (on_host g (spawn_args P))
       (dispatch L script argsList
          (parseArguments (strings_Join argsList " ")) t tmp r)) →
  Preserves (on_host g (spawn_args P)) (executeScript L script argsList t).
Proof.
  intros Hd. unfold executeScript.
  replace (match argsList with
           | [] => ""
           | _ :: _ => strings_Join argsList " "
           end)
    with (strings_Join argsList " ") by by destruct argsList.
  preserves.
Qed.

(** On darwin and linux, whatever the script and whichever system calls
    fail, a child that [executeScript] spawns is given the temporary file
    and then the output of the argument parser on the joined arguments. *)
Lemma executeScript_unix_args script argsList t w r w' :
  goos w = "darwin" ∨ goos w = "linux" →
  executeScript L script argsList t w = (r, w') →
  spawn_args
    (λ args, ∃ tmp,
       args = tmp :: parseArguments (strings_Join argsList " ")) w w'.
Proof.
  intros Hg Hrun.
  eapply (Preserves_run (on_host (goos w) _)); [|exact Hrun|done].
  apply executeScript_spawn_args. intros tmp r0.
  intros w1 r1 w1' Hrun1 Hw1.
  destruct (dispatch_unix_args (goos w) script argsList
              (parseArguments (strings_Join argsList " ")) t tmp r0 Hg
              w1 r1 w1' Hrun1 Hw1) as [Hgo (evs & Ht & Hall)].
  split; [done|]. exists evs. split; [done|].
  eapply Forall_impl; [exact Hall|]. intros [] He; cbn in *; eauto.
Qed.

(** On Windows the children are given the constraint values unparsed. *)
Lemma executeScript_windows_args script argsList t w r w' :
  goos w = "windows" →
  executeScript L script argsList t w = (r, w') →
  spawn_args (λ args, ∃ pre, args = pre ++ argsList) w w'.
Proof.
  intros Hg Hrun.
  eapply (Preserves_run (on_host "windows" _)); [|exact Hrun|done].
  apply executeScript_spawn_args. intros tmp r0.
  apply dispatch_windows_args.
Qed.

(** No interpreter for the kind on the host: no child, whichever system
    calls fail. *)
Lemma executeScript_unsupported_no_spawn script argsList t w r w' :
  supported (goos w) (Name script) = false →
  executeScript L script argsList t w = (r, w') →
  no_spawn w w'.
Proof.
  intros Hs Hrun.
  eapply (Preserves_run (on_host (goos w) _)); [|exact Hrun|done].
  apply executeScript_spawn_args. intros tmp r0.
  by apply dispatch_unsupported_no_spawn.
Qed.

(** With no failing system call, the temporary file is made, filled and,
    off Windows, made executable; then comes the dispatch, and the removal
    of the file. *)
Lemma executeScript_ok script argsList t w :
  faults w = [] →
  ∃ tmp w1,
    goos w1 = goos w ∧ faults w1 = [] ∧ proc w1 = proc w ∧
    executeScript L script argsList t w
    = defer (_ ← os_Remove tmp; ret tt)
        (dispatch L script argsList
           (parseArguments (strings_Join argsList " ")) t tmp
           (running script (strings_Join argsList " "))) w1.
Proof.
  intros Hf.
  destruct (os_CreateTemp_ok "remote_script_" (fileExt (Name script)) w Hf)
    as (tmp & w0 & E0 & G0 & F0 & P0 & T0).
  destruct (os_WriteFile_ok tmp (Contents script) w0 F0)
    as (w1 & E1 & G1 & F1 & P1 & T1).
  assert (Hargs : match argsList with
                  | [] => ""
                  | _ => strings_Join argsList " "
                  end = strings_Join argsList " ") by by destruct argsList.
  destruct (negb (str_eqb (goos w1) "windows")) eqn:Hwin.
  - destruct (os_Chmod_ok tmp w1 F1) as (w2 & E2 & G2 & F2 & P2 & T2).
    exists tmp, w2. split_and!; [congruence|done|congruence|].
    unfold executeScript, defer. munfold. rewrite E0. cbn.
    rewrite E1, Hwin, E2, Hargs. done.
  - exists tmp, w1. split_and!; [congruence|done|congruence|].
    unfold executeScript, defer. munfold. rewrite E0. cbn.
    rewrite E1, Hwin, Hargs. done.
Qed.

(** The unsupported kinds and hosts, with no failing system call: the
    result says [failed], the error is nil. *)
Lemma executeScript_unsupported script argsList t w :
  faults w = [] →
  supported (goos w) (Name script) = false →
  ∃ msg w',
    executeScript L script argsList t w
    = (Ret (failed msg (running script (strings_Join argsList " ")), None),
       w').
Proof.
  intros Hf Hs.
  destruct (executeScript_ok script argsList t w Hf)
    as (tmp & w1 & G1 & F1 & P1 & ->).
  rewrite <- G1 in Hs.
  edestruct (dispatch_unsupported script) as [msg Hd]; [exact Hs|].
  destruct (os_Remove_returns tmp w1) as (r2 & w2 & E2 & T2).
  unfold defer. rewrite Hd. munfold. rewrite E2. eauto.
Qed.

(** The executor on a deadline that has passed: the child is killed, the
    result carries the status and the marker, and the error is the one of
    [Wait]. *)
Lemma startCommandExecution_timeout program args t r w :
  faults w = [] →
  start_err (proc w program args (Some t)) = None →
  deadline_exceeded (proc w program args (Some t)) = true →
  ∃ w',
    startCommandExecution L program args t r w
    = (Ret (set_Status "timeout" (set_ErrorOut "Script execution timed out" r),
            wait_err (proc w program args (Some t))), w') ∧
    trace w' = trace w ++ [EvSpawn program args (Some t); EvKill program].
Proof.
  intros Hf Hstart Hdead.
  unfold startCommandExecution, spawn, emit, fault, time_Now. munfold.
  rewrite Hf. cbn. rewrite Hf. cbn. rewrite Hstart, Hdead.
  eexists. split; [reflexivity|]. cbn. by rewrite <- app_assoc.
Qed.

Lemma startCommandExecution_status program args t r w r' err w' :
  startCommandExecution L program args t r w = (Ret (r', err), w') →
  Status r' = "timeout" →
  ConsoleOut r' = ConsoleOut r ∧ ErrorOut r' = "Script execution timed out".
Proof.
  unfold startCommandExecution, spawn, emit, fault, time_Now. munfold.
  intros H. run_cases; cbn; try discriminate; done.
Qed.

(** A result with status [timeout] has no console output. *)
Lemma executeScript_timeout_status script argsList t w r err w' :
  executeScript L script argsList t w = (Ret (r, err), w') →
  Status r = "timeout" →
  ConsoleOut r = "" ∧ ErrorOut r = "Script execution timed out".
Proof.
  unfold executeScript, defer, dispatch, ps_execute, embedded_python. munfold.
  intros H. run_cases; cbn; try discriminate;
  try (match goal with
       | H : startCommandExecution _ _ _ _ _ _ = _ |- _ =>
           intros Hs;
           by destruct (startCommandExecution_status _ _ _ _ _ _ _ _ H Hs)
       end).
Qed.

End Executor.

(** ** The row projector *)





(** A field of a JSON-mode row is the one of the line when the line has
    it, the fixed one otherwise. *)
Lemma jsonRow_lookup u c r d k :
  jsonRow u c r d !! k =
  match d !! k with
  | Some v => Some v
  | None => fixedFields u c r !! k
  end.
Proof.
  unfold jsonRow. rewrite lookup_union.
  destruct (d !! k), (fixedFields u c r !! k); done.
Qed.


Lemma projectRows_set_FromCache u x r :
  projectRows u (set_FromCache x r) = projectRows u r.
Proof. reflexivity. Qed.

Lemma projectRows_no_output u r : ConsoleOut r = "" → projectRows u r = [].
Proof. unfold projectRows. intros ->. reflexivity. Qed.



(** The rows of that output: the line in the middle is dropped. *)
Lemma mixed_result_rows :
  projectRows "false" mixed_result
  = [jsonRow "false" "a" mixed_result {[ "a" := "1" ]};
     jsonRow "false" "a" mixed_result {[ "a" := "2" ]}].
Proof. vm_compute. reflexivity. Qed.


(** In the same output the object line becomes a plain-text row. *)
Lemma blank_then_object_rows :
  projectRows "false" (set_ConsoleOut blank_then_object (running hello_script ""))
  = [textRow "false" (running hello_script "")
       ("{" +:+ dquote +:+ "a" +:+ dquote +:+ ":" +:+ dquote +:+ "1"
          +:+ dquote +:+ "}")].
Proof. vm_compute. reflexivity. Qed.

(** An object with a value that is not a string selects JSON mode and is
    then dropped.  A line [null] selects JSON mode too, and yields a row
    with the five fixed fields alone. *)
Lemma number_valued_object_dropped :
  let out := "{" +:+ dquote +:+ "uid" +:+ dquote +:+ ": 0}" in
  isValidJSON out = true ∧
  projectRows "false" (set_ConsoleOut out (running hello_script "")) = [] ∧
  isValidJSON "null" = true ∧
  (λ row : Row, (row !! "script_name", row !! "columns", size row))
    <$> projectRows "false" (set_ConsoleOut "null" (running hello_script ""))
  = [(Some "hello.sh", Some "", 5)].
Proof. split_and!; vm_compute; reflexivity. Qed.

(** A first line with a number out of the range of [float64] does not
    unmarshal: plain-text mode is selected. *)
Lemma number_out_of_range_text_mode :
  isValidJSON overflow_line = false
  ∧ (λ row : Row, (row !! "console_out", row !! "columns"))
      <$> projectRows "false"
            (set_ConsoleOut overflow_line (running hello_script ""))
    = [(Some overflow_line, Some "console_out")].
Proof. split; vm_compute; reflexivity. Qed.

Lemma projectRows_from_cache (u : string) (r : ExecutionResult) (row : Row) :
  row ∈ projectRows u r →
  row !! "from_cache" = Some u ∨
  (isValidJSON (ConsoleOut r) = true ∧
   ∃ line d v, line ∈ strings_Split (ConsoleOut r) "010" ∧
               trims_to_empty line = false ∧
               json_Unmarshal_string_map line = Some d ∧
               d !! "from_cache" = Some v ∧ row !! "from_cache" = Some v).
Proof.
  unfold projectRows, isValidJSON.
  destruct (json_Unmarshal_any_map _) as [ms|] eqn:Hfirst.
  - intros (line & Hline & Hrow)%list_elem_of_omap.
    destruct (trims_to_empty line) eqn:Hblank; [done|].
    destruct (json_Unmarshal_string_map line) as [d|] eqn:Hd; [|done].
    cbn in Hrow. injection Hrow as <-. rewrite jsonRow_lookup.
    destruct (d !! "from_cache") as [v|] eqn:Hv.
    + right. split; [by apply bool_decide_eq_true|]. by exists line, d, v.
    + by left.
  - intros (line & Hline & Hrow)%list_elem_of_omap.
    destruct (trims_to_empty line); [done|]. injection Hrow as <-. by left.
Qed.

(** ** The table generator *)

Section Generator.

Context (L : GoLib).

(** C10, as the code has it.  When the generate call returns rows, they are
    the projection of the executor's result under the [from_cache]
    constraint string ([false] when there is none), whatever the
    [FromCache] field of that result says about the provenance of the
    script; in every row the [from_cache] column is that string verbatim,
    except for a JSON-mode row whose line has a [from_cache] field of its
    own, which is what the row then carries. *)
Theorem generate_from_cache_column (queryContext : QueryContext)
    (w w' : World) (rows : list Row) :
  ScoutQuickExecGenerate L queryContext w = (Ret (rows, None), w') →
  let useCache :=
    default "false"
      (head (processContextConstraints queryContext "from_cache")) in
  ∃ result,
    (∀ fromCache,
       projectRows useCache (set_FromCache fromCache result) = rows) ∧
    ∀ row, row ∈ rows →
      row !! "from_cache" = Some useCache ∨
      (isValidJSON (ConsoleOut result) = true ∧
       ∃ line d v, line ∈ strings_Split (ConsoleOut result) "010" ∧
                   trims_to_empty line = false ∧
                   json_Unmarshal_string_map line = Some d ∧
                   d !! "from_cache" = Some v ∧
                   row !! "from_cache" = Some v).
Proof.
  intros H useCache. unfold ScoutQuickExecGenerate in H. munfold.
  fold useCache in H. run_cases;
    match goal with
    | H : executeScript _ _ _ _ _ = (Ret (?r, None), _) |- _ => exists r
    end;
    (split; [done|]); intros row Hrow;
    by apply projectRows_from_cache in Hrow.
Qed.

(** A result with status [timeout] never becomes a row: the call fails
    with the error of [Wait], or returns no row at all. *)
Lemma generate_timeout_no_row queryContext name w script w0 r err w1 :
  processContextConstraints queryContext "script_name" = [name] →
  getScript L name
    (processBoolConstraint
       (default "false"
          (head (processContextConstraints queryContext "from_cache")))) w
  = (Ret (script, None), w0) →
  executeScript L script (processContextConstraints queryContext "args")
    (execTimeout (scoutConfig w0)) w0 = (Ret (r, err), w1) →
  Status r = "timeout" →
  ScoutQuickExecGenerate L queryContext w
  = (Ret ([], (λ e, "failed to execute script: " +:+ e) <$> err), w1).
Proof.
  intros Hname Hget Hexec Hstatus.
  destruct (executeScript_timeout_status _ _ _ _ _ _ _ _ Hexec Hstatus)
    as [Hout _].
  unfold ScoutQuickExecGenerate. munfold. rewrite Hname, Hget, Hexec.
  destruct err as [e|]; [done|]. cbn.
  by rewrite projectRows_set_FromCache, projectRows_no_output.
Qed.

(** A script of a kind without interpreter on the host: when no system
    call fails, the call returns no row and no error. *)
Lemma generate_unsupported queryContext name w script w0 :
  processContextConstraints queryContext "script_name" = [name] →
  getScript L name
    (processBoolConstraint
       (default "false"
          (head (processContextConstraints queryContext "from_cache")))) w
  = (Ret (script, None), w0) →
  faults w0 = [] →
  supported (goos w0) (Name script) = false →
  ∃ w1, ScoutQuickExecGenerate L queryContext w = (Ret ([], None), w1) ∧
        no_spawn w0 w1.
Proof.
  intros Hname Hget Hf Hs.
  destruct (executeScript_unsupported L script
              (processContextConstraints queryContext "args")
              (execTimeout (scoutConfig w0)) w0 Hf Hs) as (msg & w1 & Hexec).
  exists w1. split.
  - unfold ScoutQuickExecGenerate. munfold. rewrite Hname, Hget, Hexec.
    by rewrite projectRows_set_FromCache, projectRows_no_output.
  - by eapply executeScript_unsupported_no_spawn.
Qed.

End Generator.

Lemma generate_from_cache_column_witness :
  ∃ result,
    projectRows "1" result = spoof_rows ∧
    ∀ row, row ∈ spoof_rows →
      row !! "from_cache" = Some "1" ∨
      ∃ line d v, line ∈ strings_Split (ConsoleOut result) "010" ∧
                  json_Unmarshal_string_map line = Some d ∧
                  d !! "from_cache" = Some v ∧
                  row !! "from_cache" = Some v.
Proof.
  destruct (generate_from_cache_column demoLib spoof_query spoof_world
              spoof_end spoof_rows) as (result & Hrows & Hcol).
  - reflexivity.
  - exists result. split.
    + rewrite <- (Hrows (FromCache result)). by destruct result.
    + intros row Hrow. destruct (Hcol row Hrow) as [H|(_ & l & d & v & H)].
      * left. exact H.
      * right. exists l, d, v. tauto.
Defined.

(** C10 as stated fails: under the constraint [from_cache = '1'] the script
    prints an object with a [from_cache] field, and the only row carries
    the value of the script. *)
Lemma from_cache_column_counterexample :
  let query := demo_query "hello.sh" [] ["1"] in
  processContextConstraints query "from_cache" = ["1"] ∧
  ∃ row,
    (ScoutQuickExecGenerate demoLib query spoof_world).1 = Ret ([row], None) ∧
    row !! "from_cache" = Some "zzz" ∧
    row !! "from_cache" ≠ Some "1".
Proof.
  split; [vm_compute; reflexivity|].
  exists (jsonRow "1" "from_cache"
            (set_Status "completed" (running hello_script ""))
            {[ "from_cache" := "zzz" ]}).
  split; [vm_compute; reflexivity|]. split; [vm_compute; reflexivity|].
  vm_compute. discriminate.
Qed.

(** C3 at a script that outlives the deadline: the executor marks the
    result as timed out and kills the child, and the generate call returns
    the error of [Wait] and no row. *)
Lemma timeout_is_returned_as_error :
  let exec := executeScript demoLib hello_script [] 2 sleepy_world in
  let gen := ScoutQuickExecGenerate demoLib (demo_query "hello.sh" [] [])
               sleepy_world in
  exec.1 = Ret (set_Status "timeout"
                  (set_ErrorOut "Script execution timed out"
                     (running hello_script "")),
                Some "signal: killed") ∧
  EvKill "/bin/bash" ∈ trace exec.2 ∧
  gen.1 = Ret ([], Some "failed to execute script: signal: killed").
Proof.
  split_and!; [vm_compute; reflexivity| |vm_compute; reflexivity].
  vm_compute. apply list_elem_of_In. cbn. tauto.
Qed.

(** C6 on a Windows host: the batch interpreter is given the constraint
    value as one argument, where the argument parser yields two. *)
Lemma windows_arguments_are_not_parsed :
  let gen := ScoutQuickExecGenerate demoLib (demo_query "run.bat" ["a b"] [])
               batch_world in
  filter (λ e, is_spawn e = true) (trace gen.2)
  = [EvSpawn "cmd.exe" ["/C"; "/tmp/remote_script_0.bat"; "a b"] (Some 2%Z)] ∧
  parseArguments (strings_Join ["a b"] " ") = ["a"; "b"].
Proof. split; vm_compute; reflexivity. Qed.

(** C9 at a script whose kind has no interpreter: no child is spawned, the
    executor returns a result marked as failed with a nil error, and the
    generate call returns no row and no error. *)
Lemma unsupported_kind_is_not_an_error :
  let exec := executeScript demoLib notes_script [] 2 notes_world in
  let gen := ScoutQuickExecGenerate demoLib (demo_query "notes.txt" [] [])
               notes_world in
  exec.1 = Ret (failed "Unsupported script type on Unix"
                  (running notes_script ""), None) ∧
  gen.1 = Ret ([], None) ∧
  filter (λ e, is_spawn e = true) (trace gen.2) = [].
Proof. split_and!; vm_compute; reflexivity. Qed.

(** ** Strings, and the JSON codec on strings *)

Lemma string_app_cons c s t : String c s +:+ t = String c (s +:+ t).
Proof. reflexivity. Qed.

Lemma string_app_nil t : "" +:+ t = t.
Proof. reflexivity. Qed.

Lemma string_app_assoc s t u : (s +:+ t) +:+ u = s +:+ (t +:+ u).
Proof. induction s as [|c s IH]; [done|]. rewrite !string_app_cons. by f_equal. Qed.

Lemma string_app_length s t :
  String.length (s +:+ t) = String.length s + String.length t.
Proof. induction s as [|c s IH]; [done|]. rewrite string_app_cons. cbn. by f_equal. Qed.

Lemma str_take_drop n s : str_take n s +:+ str_drop n s = s.
Proof.
  revert s. induction n as [|n IH]; intros [|c s]; try done.
  cbn. rewrite string_app_cons. by f_equal.
Qed.

Lemma str_take_length n s :
  n <= String.length s → String.length (str_take n s) = n.
Proof.
  revert s. induction n as [|n IH]; intros [|c s] Hn; cbn in *; try lia.
  rewrite IH; lia.
Qed.

(** A one-byte step of the string parser on the escape of an ASCII byte. *)
Lemma parse_str_escape_ascii c X fp :
  (byte_val c <? 128)%N = true →
  parse_str (S fp) (escape_ascii c +:+ X)
  = match parse_str fp X with
    | Some (str, r) => Some (String c str, r)
    | None => None
    end.
Proof.
  destruct c as [[] [] [] [] [] [] [] []]; intros Hc;
    first [ discriminate Hc | reflexivity ].
Qed.

Lemma byte_ge_128_not c d :
  (byte_val c <? 128)%N = false → (byte_val d <? 128)%N = true →
  (c =? d)%char = false.
Proof.
  intros Hc Hd. apply Ascii.eqb_neq. intros ->. congruence.
Qed.

(** The well-formed sequence at the head of a string is the same with
    another tail. *)
Lemma utf8_width_prefix s n X :
  utf8_width s = Some n →
  utf8_width (str_take n s +:+ X) = Some n ∧
  str_take n (str_take n s +:+ X) = str_take n s ∧
  str_drop n (str_take n s +:+ X) = X ∧
  0 < n ∧ n <= String.length s.
Proof.
  intros H.
  match goal with |- ?G => set (goal := G) end.
  unfold utf8_width in H.
  destruct s as [|c0 [|c1 [|c2 [|c3 s]]]];
    repeat (case_match; simplify_eq); subst goal; cbn;
    rewrite ?string_app_cons, ?string_app_nil; cbn;
    repeat match goal with H : _ = _ |- _ => rewrite H end;
    split_and!; try done; try lia.
Qed.

Lemma parse_str_line_separator X fp :
  parse_str (S fp) ("\u2028" +:+ X)
  = match parse_str fp X with
    | Some (str, r) => Some (line_separator +:+ str, r)
    | None => None
    end.
Proof. reflexivity. Qed.

Lemma parse_str_paragraph_separator X fp :
  parse_str (S fp) ("\u2029" +:+ X)
  = match parse_str fp X with
    | Some (str, r) => Some (paragraph_separator +:+ str, r)
    | None => None
    end.
Proof. reflexivity. Qed.

(** A step of the string parser on a well-formed multi-byte sequence. *)
Lemma parse_str_chunk c s n X fp :
  (byte_val c <? 128)%N = false →
  utf8_width (String c s) = Some n →
  parse_str (S fp) (str_take n (String c s) +:+ X)
  = match parse_str fp X with
    | Some (str, r) => Some (str_take n (String c s) +:+ str, r)
    | None => None
    end.
Proof.
  intros Hc Hw.
  destruct (utf8_width_prefix _ _ X Hw) as (Hw' & Ht & Hd & Hn & _).
  destruct n as [|n]; [lia|].
  assert (Hq : (c =? "034")%char = false) by by apply byte_ge_128_not.
  assert (Hb : (c =? "\")%char = false) by by apply byte_ge_128_not.
  assert (H32 : (byte_val c <? 32)%N = false).
  { apply N.ltb_ge. apply N.ltb_ge in Hc. lia. }
  change (str_take (S n) (String c s)) with (String c (str_take n s)) in *.
  rewrite string_app_cons in *.
  cbn [parse_str]. rewrite Hq, Hb, H32, Hc.
  unfold utf8_chunk. rewrite Hw', Ht, Hd. done.
Qed.

(** What [json_escape] writes for a valid string reads back as the
    string. *)
Lemma parse_str_json_escape fuel_e :
  ∀ s fp rest,
    utf8_valid_go fuel_e s = true →
    String.length s < fp →
    parse_str fp (json_escape fuel_e s +:+ dquote +:+ rest) = Some (s, rest).
Proof.
  induction fuel_e as [|f IH]; intros s fp rest Hv Hfp.
  - destruct s; [|done]. destruct fp; [cbn in Hfp; lia|]. reflexivity.
  - destruct s as [|c s].
    { destruct fp; [cbn in Hfp; lia|]. reflexivity. }
    destruct fp as [|fp]; [lia|].
    cbn [utf8_valid_go] in Hv. cbn [json_escape].
    destruct (byte_val c <? 128)%N eqn:Hc.
    + assert (Hw : utf8_width (String c s) = Some 1).
      { unfold utf8_width. by rewrite Hc. }
      rewrite Hw in Hv. cbn [str_drop] in Hv.
      rewrite string_app_assoc, parse_str_escape_ascii by done.
      rewrite IH; [done|done|]. cbn in Hfp. lia.
    + destruct (utf8_width (String c s)) as [n|] eqn:Hw; [|done].
      destruct (utf8_width_prefix _ _ "" Hw) as (_ & _ & _ & Hn & Hlen).
      assert (Hdrop : String.length (str_drop n (String c s)) < fp).
      { rewrite <- (str_take_drop n (String c s)) in Hfp.
        rewrite string_app_length in Hfp.
        rewrite str_take_length in Hfp by done.
        lia. }
      destruct (str_eqb _ line_separator) eqn:Hls.
      { apply bool_decide_eq_true in Hls.
        rewrite string_app_assoc, parse_str_line_separator, IH by done.
        by rewrite <- Hls, str_take_drop. }
      destruct (str_eqb _ paragraph_separator) eqn:Hps.
      { apply bool_decide_eq_true in Hps.
        rewrite string_app_assoc, parse_str_paragraph_separator, IH by done.
        by rewrite <- Hps, str_take_drop. }
      rewrite string_app_assoc, parse_str_chunk, IH by done.
      by rewrite str_take_drop.
Qed.

Lemma escape_ascii_length c : 1 <= String.length (escape_ascii c).
Proof.
  unfold escape_ascii, u00.
  repeat case_match; rewrite ?string_app_length; cbn; lia.
Qed.

Lemma json_escape_length fuel_e :
  ∀ s, utf8_valid_go fuel_e s = true →
       String.length s <= String.length (json_escape fuel_e s).
Proof.
  induction fuel_e as [|f IH]; intros s Hv.
  - by destruct s.
  - destruct s as [|c s]; [done|].
    cbn [utf8_valid_go] in Hv. cbn [json_escape].
    destruct (byte_val c <? 128)%N eqn:Hc.
    + assert (Hw : utf8_width (String c s) = Some 1).
      { unfold utf8_width. by rewrite Hc. }
      rewrite Hw in Hv. cbn [str_drop] in Hv.
      rewrite string_app_length. specialize (IH s Hv).
      pose proof (escape_ascii_length c). cbn. lia.
    + destruct (utf8_width (String c s)) as [n|] eqn:Hw; [|done].
      destruct (utf8_width_prefix _ _ "" Hw) as (_ & _ & _ & Hn & Hlen).
      specialize (IH _ Hv).
      rewrite <- (str_take_drop n (String c s)) at 1.
      rewrite !string_app_length.
      pose proof (str_take_length n (String c s) Hlen) as Htl.
      rewrite Htl.
      destruct (str_eqb _ line_separator) eqn:Hls.
      { apply bool_decide_eq_true in Hls. rewrite Hls in Htl.
        cbn [String.length line_separator] in *. cbn in Htl. lia. }
      destruct (str_eqb _ paragraph_separator) eqn:Hps.
      { apply bool_decide_eq_true in Hps. rewrite Hps in Htl.
        cbn [String.length paragraph_separator] in *. cbn in Htl. lia. }
      rewrite Htl. lia.
Qed.

(** A string literal written by [json.Marshal] reads back. *)
Lemma parse_str_marshal s rest :
  utf8_ValidString s = true →
  let body := json_escape (String.length s) s +:+ dquote +:+ rest in
  parse_str (String.length body) body = Some (s, rest).
Proof.
  intros Hv body. apply parse_str_json_escape; [done|].
  unfold body. rewrite !string_app_length.
  pose proof (json_escape_length _ _ Hv).
  change (String.length dquote) with 1. lia.
Qed.

Lemma marshal_string_cons s rest :
  json_Marshal_string s +:+ rest
  = String "034" (json_escape (String.length s) s +:+ dquote +:+ rest).
Proof.
  unfold json_Marshal_string, dquote.
  rewrite !string_app_cons, !string_app_nil, !string_app_assoc.
  rewrite !string_app_cons, !string_app_nil. done.
Qed.

Lemma skip_ws_marshal s rest :
  skip_ws (json_Marshal_string s +:+ rest) = json_Marshal_string s +:+ rest.
Proof. rewrite marshal_string_cons. reflexivity. Qed.

Lemma parse_value_string f d s rest :
  utf8_ValidString s = true →
  parse_value (S f) d (json_Marshal_string s +:+ rest) = Some (JString s, rest).
Proof.
  intros Hv. rewrite marshal_string_cons. cbn [parse_value].
  change ("034" =? "{")%char with false. change ("034" =? "[")%char with false.
  change ("034" =? "034")%char with true. cbv iota.
  by rewrite (parse_str_marshal s rest Hv).
Qed.

(** A member whose value is a string literal, and what follows it. *)
Lemma parse_members_string f d k s rest :
  utf8_ValidString k = true → utf8_ValidString s = true →
  parse_members (S (S f)) d
    (json_Marshal_string k +:+ ":" +:+ json_Marshal_string s +:+ rest)
  = match skip_ws rest with
    | String c r3 =>
        if (c =? ",")%char then
          match parse_members (S f) d (skip_ws r3) with
          | Some (ms, r4) => Some ((k, JString s) :: ms, r4)
          | None => None
          end
        else if (c =? "}")%char then Some ([(k, JString s)], r3)
        else None
    | "" => None
    end.
Proof.
  intros Hk Hs. rewrite marshal_string_cons. cbn [parse_members].
  change ("034" =? "034")%char with true. cbv iota.
  rewrite (parse_str_marshal k _ Hk).
  rewrite string_app_cons, string_app_nil. cbn [skip_ws json_space].
  change (json_space ":") with false. cbv iota.
  change (":" =? ":")%char with true. cbv iota.
  rewrite skip_ws_marshal, parse_value_string by done. done.
Qed.

Lemma parse_members_string_more f d k s k' rest :
  utf8_ValidString k = true → utf8_ValidString s = true →
  parse_members (S (S f)) d
    (json_Marshal_string k +:+ ":" +:+ json_Marshal_string s +:+ ","
       +:+ json_Marshal_string k' +:+ rest)
  = match parse_members (S f) d (json_Marshal_string k' +:+ rest) with
    | Some (ms, r) => Some ((k, JString s) :: ms, r)
    | None => None
    end.
Proof.
  intros Hk Hs. rewrite parse_members_string by done.
  rewrite string_app_cons, string_app_nil. cbn [skip_ws].
  change (json_space ",") with false. cbv iota.
  change ("," =? ",")%char with true. cbv iota.
  by rewrite skip_ws_marshal.
Qed.

Lemma parse_members_string_last f d k s :
  utf8_ValidString k = true → utf8_ValidString s = true →
  parse_members (S (S f)) d
    (json_Marshal_string k +:+ ":" +:+ json_Marshal_string s +:+ "}")
  = Some ([(k, JString s)], "").
Proof.
  intros Hk Hs. rewrite parse_members_string by done. reflexivity.
Qed.

Lemma parse_value_object f d k rest :
  (max_nesting_depth <=? d)%N = false →
  parse_value (S f) d ("{" +:+ json_Marshal_string k +:+ rest)
  = match parse_members f (d + 1) (json_Marshal_string k +:+ rest) with
    | Some (ms, r) => Some (JObject ms, r)
    | None => None
    end.
Proof.
  intros Hd. rewrite string_app_cons, string_app_nil, !marshal_string_cons.
  cbn [parse_value]. change ("{" =? "{")%char with true. cbv iota.
  rewrite Hd. reflexivity.
Qed.

Ltac eval_field_matches :=
  repeat match goal with
         | |- context [field_matches ?a ?b] =>
             let v := eval vm_compute in (field_matches a b) in
             change (field_matches a b) with v
         end.

(** The text of an object with three string members reads back as the
    object. *)
Lemma json_parse_three_members k1 s1 k2 s2 k3 s3 :
  utf8_ValidString k1 = true → utf8_ValidString s1 = true →
  utf8_ValidString k2 = true → utf8_ValidString s2 = true →
  utf8_ValidString k3 = true → utf8_ValidString s3 = true →
  json_parse
    ("{" +:+ json_Marshal_string k1 +:+ ":" +:+ json_Marshal_string s1
       +:+ "," +:+ json_Marshal_string k2 +:+ ":" +:+ json_Marshal_string s2
       +:+ "," +:+ json_Marshal_string k3 +:+ ":" +:+ json_Marshal_string s3
       +:+ "}")
  = Some (JObject [(k1, JString s1); (k2, JString s2); (k3, JString s3)]).
Proof.
  intros Hk1 Hs1 Hk2 Hs2 Hk3 Hs3. unfold json_parse.
  match goal with
  | |- context [parse_value ?fuel 0 (skip_ws ?text)] =>
      assert (Hfuel : 5 <= fuel);
      [|destruct fuel as [|[|[|[|[|f]]]]]; [lia..|];
        replace (skip_ws text) with text]
  end.
  { rewrite string_app_cons, string_app_nil, marshal_string_cons.
    cbn [String.length]. lia. }
  - rewrite parse_value_object by done.
    rewrite parse_members_string_more by done.
    rewrite parse_members_string_more by done.
    rewrite parse_members_string_last by done. done.
  - by rewrite string_app_cons, string_app_nil.
Qed.

Lemma string_app_inj p s t : p +:+ s = p +:+ t → s = t.
Proof.
  induction p as [|c p IH]; [by rewrite !string_app_nil|].
  rewrite !string_app_cons. intros [= H]. by apply IH.
Qed.

Lemma string_app_ne p s : s ≠ "" → p +:+ s ≠ p.
Proof.
  intros Hs. induction p as [|c p IH].
  - by rewrite string_app_nil.
  - rewrite string_app_cons. intros [= H]. by apply IH.
Qed.

(** ** The cache store *)

(** What the system calls of the cache store do to the files and to the
    clock. *)
Lemma os_Stat_frame p w r w' :
  os_Stat p w = (r, w') → files w' = files w ∧ clock w' = clock w.
Proof.
  unfold os_Stat, fault. munfold. intros H. by run_cases.
Qed.

Lemma os_MkdirAll_frame p w r w' :
  os_MkdirAll p w = (r, w') → files w' = files w ∧ clock w' = clock w.
Proof.
  unfold os_MkdirAll, emit, fault. munfold. cbn. intros H. by run_cases.
Qed.

Lemma os_Remove_frame q w r w' :
  os_Remove q w = (r, w') →
  (∀ p, p ≠ q → files w' !! p = files w !! p) ∧ clock w' = clock w.
Proof.
  unfold os_Remove, emit, fault. munfold. cbn. intros H. run_cases; cbn;
    (split; [|done]); intros p Hp; by rewrite ?lookup_delete_ne.
Qed.

Lemma os_WriteFile_frame q d w w' :
  os_WriteFile q d w = (Ret None, w') →
  files w' = <[q := d]> (files w) ∧ clock w' = clock w.
Proof.
  unfold os_WriteFile, emit, fault. munfold. cbn. intros H. by run_cases.
Qed.

Lemma os_ReadFile_frame p w data w' :
  os_ReadFile p w = (Ret (data, None), w') →
  files w !! p = Some data ∧ files w' = files w.
Proof.
  unfold os_ReadFile, fault. munfold. intros H. by run_cases.
Qed.

Lemma os_ReadFile_ok p w data :
  faults w = [] → files w !! p = Some data →
  os_ReadFile p w = (Ret (data, None), w).
Proof.
  intros Hf Hp. unfold os_ReadFile, fault. munfold. rewrite Hf, Hp. done.
Qed.

Lemma os_Stat_ok p w data :
  faults w = [] → files w !! p = Some data → os_Stat p w = (Ret StatOk, w).
Proof.
  intros Hf Hp. unfold os_Stat, fault. munfold. rewrite Hf, Hp.
  by rewrite bool_decide_eq_true_2.
Qed.

Lemma remove_if_present_frame q w r w' :
  remove_if_present q w = (r, w') →
  (∀ p, p ≠ q → files w' !! p = files w !! p) ∧ clock w' = clock w.
Proof.
  unfold remove_if_present. munfold. intros H.
  destruct (os_Stat q w) as [[st|msg] w0] eqn:E0.
  - apply os_Stat_frame in E0 as [F0 C0].
    destruct st; simplify_eq; try by rewrite F0, C0.
    apply os_Remove_frame in H as [F1 C1]. split; [|congruence].
    intros p Hp. by rewrite F1, F0.
  - apply os_Stat_frame in E0 as [F0 C0]. simplify_eq. by rewrite F0, C0.
Qed.

Section CacheStore.

Context (L : GoLib).

Lemma json_Marshal_CacheMeta_text m text :
  json_Marshal_CacheMeta L m = Some text →
  ∃ t, time_MarshalJSON L (meta_CacheTime m) = Some t ∧
    text = "{" +:+ json_Marshal_string "script_hash" +:+ ":"
             +:+ json_Marshal_string (meta_ScriptHash m) +:+ ","
             +:+ json_Marshal_string "script_name" +:+ ":"
             +:+ json_Marshal_string (meta_ScriptName m) +:+ ","
             +:+ json_Marshal_string "cache_time" +:+ ":"
             +:+ dquote +:+ t +:+ dquote +:+ "}".
Proof.
  unfold json_Marshal_CacheMeta. intros H.
  destruct (time_MarshalJSON L (meta_CacheTime m)) as [t|]; [|done].
  exists t. split; [done|]. injection H as <-.
  change (json_Marshal_string "script_hash")
    with (dquote +:+ "script_hash" +:+ dquote).
  change (json_Marshal_string "script_name")
    with (dquote +:+ "script_name" +:+ dquote).
  change (json_Marshal_string "cache_time")
    with (dquote +:+ "cache_time" +:+ dquote).
  by rewrite !string_app_assoc.
Qed.

(** The metadata written by [saveScriptToCache] is read back by
    [loadScriptFromCache] with the same hash and name, as soon as both are
    valid UTF-8 and the time codec reads back what it prints. *)
Lemma json_CacheMeta_roundtrip m text :
  utf8_ValidString (meta_ScriptHash m) = true →
  utf8_ValidString (meta_ScriptName m) = true →
  (∀ t, time_MarshalJSON L (meta_CacheTime m) = Some t →
        json_plain t ∧ is_Some (time_UnmarshalJSON L t)) →
  json_Marshal_CacheMeta L m = Some text →
  ∃ t', json_Unmarshal_CacheMeta L text
        = Some (mkCacheMeta (meta_ScriptHash m) (meta_ScriptName m) t').
Proof.
  intros Hh Hn Ht Hm.
  apply json_Marshal_CacheMeta_text in Hm as (t & Et & ->).
  destruct (Ht t Et) as [[Hv Hp] [t' Ht']].
  exists t'. unfold json_Unmarshal_CacheMeta.
  assert (dquote +:+ t +:+ dquote +:+ "}" = json_Marshal_string t +:+ "}") as ->.
  { unfold json_Marshal_string. by rewrite Hp, !string_app_assoc. }
  rewrite json_parse_three_members by done.
  cbn [store_string_field store_time_field]. eval_field_matches.
  cbn. by rewrite Ht'.
Qed.

Lemma loadScriptFromCache_reads K dir w data meta w' :
  loadScriptFromCache L K dir w = (Ret (data, meta, None), w') →
  let p := getCacheFilePath L K dir in
  ∃ text, files w !! p = Some data ∧ files w !! (p +:+ ".meta") = Some text
          ∧ json_Unmarshal_CacheMeta L text = Some meta.
Proof.
  intros H p. unfold loadScriptFromCache in H. fold p in H. munfold.
  destruct (os_Stat p w) as [[st|msg] w0] eqn:E0; [|done].
  apply os_Stat_frame in E0 as [F0 _].
  assert (∃ text, files w0 !! p = Some data
            ∧ files w0 !! (p +:+ ".meta") = Some text
            ∧ json_Unmarshal_CacheMeta L text = Some meta) as Hgoal.
  { destruct st; [|done|].
    all: destruct (os_ReadFile p w0) as [[[d [?|]]|?] w1] eqn:E1;
      try done.
    all: apply os_ReadFile_frame in E1 as [R1 F1].
    all: destruct (os_ReadFile (p +:+ ".meta") w1)
           as [[[md [?|]]|?] w2] eqn:E2; try done.
    all: apply os_ReadFile_frame in E2 as [R2 F2].
    all: destruct (json_Unmarshal_CacheMeta L md) as [meta'|] eqn:E3;
      [|done].
    all: rewrite F1 in R2; simplify_eq; by exists md. }
  by rewrite <- F0.
Qed.

Lemma loadScriptFromCache_ok K dir w data text meta :
  let p := getCacheFilePath L K dir in
  faults w = [] → files w !! p = Some data →
  files w !! (p +:+ ".meta") = Some text →
  json_Unmarshal_CacheMeta L text = Some meta →
  loadScriptFromCache L K dir w = (Ret (data, meta, None), w).
Proof.
  intros p Hf Hp Hm Hj. unfold loadScriptFromCache. fold p. munfold.
  rewrite (os_Stat_ok _ _ _ Hf Hp), (os_ReadFile_ok _ _ _ Hf Hp),
    (os_ReadFile_ok _ _ _ Hf Hm), Hj. done.
Qed.

Lemma saveScriptToCache_files K s σ dir w w1 :
  let p := getCacheFilePath L K dir in
  getSignatureFilePath L K dir = p +:+ ".sig" →
  saveScriptToCache L K s σ dir w = (Ret None, w1) →
  ∃ text,
    json_Marshal_CacheMeta L (mkCacheMeta (Hash s) (Name s) (clock w))
      = Some text
    ∧ files w1 !! p = Some (Contents s)
    ∧ files w1 !! (p +:+ ".meta") = Some text
    ∧ files w1 !! (p +:+ ".sig") = Some σ
    ∧ ∀ q, q ≠ p → q ≠ p +:+ ".meta" → q ≠ p +:+ ".sig" →
           files w1 !! q = files w !! q.
Proof.
  intros p Hsig H. unfold saveScriptToCache in H. rewrite Hsig in H.
  fold p in H. unfold time_Now in H. munfold.
  destruct (os_Stat dir w) as [[st|?] wa] eqn:Ea; [|done].
  apply os_Stat_frame in Ea as [Fa Ca].
  destruct st;
    [ rename wa into wb, Fa into Fb, Ca into Cb
    |      destruct (os_MkdirAll dir wa) as [[[?|]|?] wb] eqn:Eb; try done;
      apply os_MkdirAll_frame in Eb as [Fb Cb];
      rewrite Fa in Fb; rewrite Ca in Cb; clear Fa Ca
    | rename wa into wb, Fa into Fb, Ca into Cb ].
  all: destruct (remove_if_present p wb) as [[[?|]|?] wc] eqn:Ec; try done.
  all: apply remove_if_present_frame in Ec as [Fc Cc].
  all: destruct (os_WriteFile p (Contents s) wc) as [[[?|]|?] wd] eqn:Ed;
    try done.
  all: apply os_WriteFile_frame in Ed as [Fd Cd].
  all: destruct (json_Marshal_CacheMeta L _) as [text|] eqn:Em; [|done].
  all: destruct (remove_if_present (p +:+ ".meta") wd)
         as [[[?|]|?] we] eqn:Ee; try done.
  all: apply remove_if_present_frame in Ee as [Fe Ce].
  all: destruct (os_WriteFile (p +:+ ".meta") text we)
         as [[[?|]|?] wf] eqn:Ef; try done.
  all: apply os_WriteFile_frame in Ef as [Ff Cf].
  all: destruct (remove_if_present (p +:+ ".sig") wf)
         as [[[?|]|?] wg] eqn:Eg; try done.
  all: apply remove_if_present_frame in Eg as [Fg Cg].
  all: apply os_WriteFile_frame in H as [Fh Ch].
  all: assert (p +:+ ".meta" ≠ p) as N1 by by apply string_app_ne.
  all: assert (p +:+ ".sig" ≠ p) as N2 by by apply string_app_ne.
  all: assert (p +:+ ".meta" ≠ p +:+ ".sig") as N3
    by (intros E; by apply string_app_inj in E).
  all: exists text; rewrite Cd, Cc, Cb in Em; (split; [done|]).
  all: rewrite Fh; split_and!; [| | |intros q Q1 Q2 Q3].
  all: try (assert (p ≠ q) by done; assert (p +:+ ".meta" ≠ q) by done;
            assert (p +:+ ".sig" ≠ q) by done).
  all: assert (p ≠ p +:+ ".meta") by done.
  all: assert (p ≠ p +:+ ".sig") by done.
  all: assert (p +:+ ".sig" ≠ p +:+ ".meta") by done.
  all: rewrite ?lookup_insert_ne by done; rewrite ?Fg by done; rewrite ?Ff.
  all: rewrite ?lookup_insert_ne by done; rewrite ?Fe by done; rewrite ?Fd.
  all: rewrite ?lookup_insert_ne by done; rewrite ?Fc by done; rewrite ?Fb.
  all: rewrite ?lookup_insert_eq; done.
Qed.

(** C4, as amended.  For every key, signature and script whose name and hash
    are valid UTF-8: once [saveScriptToCache] has succeeded, whatever the
    three paths of the key held before, they hold the contents, the metadata
    and the signature of this save; a later [loadScriptFromCache] of the key
    that succeeds returns these contents and a metadata record with the
    hash and the name of the script, and it does succeed when no system call
    fails.  The path of the signature is the one [filepath.Join] gives, and
    the time codec reads back what it prints. *)
Theorem saveScriptToCache_then_load K s σ dir w w1 :
  let p := getCacheFilePath L K dir in
  utf8_ValidString (Name s) = true →
  utf8_ValidString (Hash s) = true →
  getSignatureFilePath L K dir = p +:+ ".sig" →
  (∀ t, time_MarshalJSON L (clock w) = Some t →
        json_plain t ∧ is_Some (time_UnmarshalJSON L t)) →
  saveScriptToCache L K s σ dir w = (Ret None, w1) →
  files w1 !! p = Some (Contents s)
  ∧ files w1 !! (p +:+ ".sig") = Some σ
  ∧ (∃ text t', files w1 !! (p +:+ ".meta") = Some text
       ∧ json_Unmarshal_CacheMeta L text
         = Some (mkCacheMeta (Hash s) (Name s) t'))
  ∧ (∀ w2 data meta w3,
       files w2 = files w1 →
       loadScriptFromCache L K dir w2 = (Ret (data, meta, None), w3) →
       data = Contents s ∧ meta_ScriptHash meta = Hash s
       ∧ meta_ScriptName meta = Name s)
  ∧ (∀ w2,
       files w2 = files w1 → faults w2 = [] →
       ∃ meta,
         loadScriptFromCache L K dir w2 = (Ret (Contents s, meta, None), w2)
         ∧ meta_ScriptHash meta = Hash s ∧ meta_ScriptName meta = Name s)
  ∧ (∀ w2,
       files w2 = files w1 → faults w2 = [] →
       loadSignatureFromCache L K dir w2 = (Ret (σ, None), w2)).
Proof.
  intros p Hn Hh Hsig Ht Hsave.
  destruct (saveScriptToCache_files K s σ dir w w1 Hsig Hsave)
    as (text & Hm & Fp & Fm & Fs & _).
  destruct (json_CacheMeta_roundtrip
              (mkCacheMeta (Hash s) (Name s) (clock w)) text Hh Hn Ht Hm)
    as [t' Hu].
  cbn [meta_ScriptHash meta_ScriptName] in Hu.
  split_and!; [done|done|by exists text, t'| | |].
  - intros w2 data meta w3 Hf Hload.
    apply loadScriptFromCache_reads in Hload as (text' & R1 & R2 & R3).
    cbn zeta in R1, R2. rewrite Hf in R1, R2. subst p.
    rewrite Fp in R1. rewrite Fm in R2. by simplify_eq.
  - intros w2 Hf H0. exists (mkCacheMeta (Hash s) (Name s) t').
    split; [|done].
    apply loadScriptFromCache_ok with (text := text);
      subst p; rewrite ?Hf; done.
  - intros w2 Hf H0. unfold loadSignatureFromCache. rewrite Hsig. munfold.
    rewrite (os_ReadFile_ok _ _ σ); [done|done|by subst p; rewrite Hf].
Qed.

End CacheStore.

Lemma saveScriptToCache_then_load_witness :
  files resaved_world !! ("/c/" +:+ hello_key +:+ ".script") = Some "echo bye"
  ∧ files resaved_world !! ("/c/" +:+ hello_key +:+ ".script.sig") = Some "s2".
Proof.
  destruct (saveScriptToCache_then_load demoLib hello_key bye_script "s2" "/c"
              warm_world resaved_world) as (H1 & H2 & _).
  - reflexivity.
  - reflexivity.
  - reflexivity.
  - intros t [= <-]. split; [split; reflexivity|]. eexists. reflexivity.
  - reflexivity.
  - split; [exact H1|exact H2].
Defined.

(** A script name that is not valid UTF-8 does not survive the metadata
    file: [json.Marshal] stores U+FFFD for the offending byte. *)
Lemma saveScriptToCache_invalid_name_counterexample :
  let s := mkScript (String "255" "") "" "echo hi" "6968206f686365" false in
  let saved := saveScriptToCache demoLib "k" s "sig" "/c" hello_world in
  saved.1 = Ret None
  ∧ (loadScriptFromCache demoLib "k" "/c" saved.2).1
    = Ret ("echo hi",
           mkCacheMeta "6968206f686365" rune_error_bytes 1714557600000000000,
           None)
  ∧ rune_error_bytes ≠ Name s.
Proof.
  split_and!; [vm_compute; reflexivity|vm_compute; reflexivity|done].
Qed.

(* ===================================================================== *)
(** * Part III. Further properties                                        *)
(* ===================================================================== *)

Lemma str_eqb_false a b : a ≠ b → str_eqb a b = false.
Proof. intros H. by apply bool_decide_eq_false. Qed.

(** ** More relations that every step preserves *)

(** *** The environment *)

Global Instance same_env_preorder : PreOrder same_env.
Proof.
  split.
  - intros w. unfold same_env. done.
  - intros w1 w2 w3 (G1 & C1 & K1 & S1 & P1 & E1 & T1 & F1)
      (G2 & C2 & K2 & S2 & P2 & E2 & T2 & F2).
    unfold same_env. split_and!; try congruence. auto.
Qed.

(** A step that changes nothing but the files, the directories, the
    trace, the counter of temporary files, or that uses up a fault. *)
Lemma same_env_fields w w' :
  goos w' = goos w → scoutConfig w' = scoutConfig w → clock w' = clock w →
  server w' = server w → proc w' = proc w →
  powershell_exe w' = powershell_exe w → temp_dir w' = temp_dir w →
  (faults w' = faults w ∨ faults w' = tail (faults w)) →
  same_env w w'.
Proof.
  intros. unfold same_env. split_and!; try done.
  intros Hf. destruct H6 as [-> | ->]; by rewrite Hf.
Qed.

Ltac same_env_prim :=
  let w := fresh "w" in let r := fresh "r" in let w' := fresh "w'" in
  intros w r w';
  unfold os_Stat, os_ReadFile, os_WriteFile, os_Remove, os_MkdirAll,
    os_Chmod, http_Get, os_CreateTemp, os_ReadDir, spawn, emit, fault,
    time_Now;
  munfold; cbn;
  let Hf := fresh "Hf" in
  destruct (faults w) as [|[] ?] eqn:Hf; cbn;
  repeat case_match; intros [= <- <-];
  apply same_env_fields; cbn; rewrite ?Hf; cbn; auto.

Lemma SameEnv_fault : Preserves same_env fault.
Proof. same_env_prim. Qed.

Lemma SameEnv_emit e : Preserves same_env (emit e).
Proof. same_env_prim. Qed.

Lemma SameEnv_os_Stat p : Preserves same_env (os_Stat p).
Proof. same_env_prim. Qed.

Lemma SameEnv_os_ReadFile p : Preserves same_env (os_ReadFile p).
Proof. same_env_prim. Qed.

Lemma SameEnv_os_WriteFile p d : Preserves same_env (os_WriteFile p d).
Proof. same_env_prim. Qed.

Lemma SameEnv_os_Remove p : Preserves same_env (os_Remove p).
Proof. same_env_prim. Qed.

Lemma SameEnv_os_MkdirAll p : Preserves same_env (os_MkdirAll p).
Proof. same_env_prim. Qed.

Lemma SameEnv_os_Chmod p : Preserves same_env (os_Chmod p).
Proof. same_env_prim. Qed.

Lemma SameEnv_http_Get u : Preserves same_env (http_Get u).
Proof. same_env_prim. Qed.

Lemma SameEnv_os_CreateTemp pre suf : Preserves same_env (os_CreateTemp pre suf).
Proof. same_env_prim. Qed.

Lemma SameEnv_os_ReadDir d : Preserves same_env (os_ReadDir d).
Proof. same_env_prim. Qed.

Lemma SameEnv_spawn p a t : Preserves same_env (spawn p a t).
Proof. same_env_prim. Qed.

#[export] Hint Resolve SameEnv_fault SameEnv_emit SameEnv_os_Stat
  SameEnv_os_ReadFile SameEnv_os_WriteFile SameEnv_os_Remove
  SameEnv_os_MkdirAll SameEnv_os_Chmod SameEnv_http_Get
  SameEnv_os_CreateTemp SameEnv_os_ReadDir SameEnv_spawn : preserves.

(** *** The files *)

Global Instance keeps_files_preorder : PreOrder keeps_files.
Proof.
  split; [by intros w|]. intros w1 w2 w3. unfold keeps_files. congruence.
Qed.

Ltac keeps_files_prim :=
  let w := fresh "w" in let r := fresh "r" in let w' := fresh "w'" in
  intros w r w';
  unfold os_Stat, os_ReadFile, os_MkdirAll, os_Chmod, http_Get, os_ReadDir,
    spawn, emit, fault;
  munfold; cbn;
  destruct (faults w) as [|[] ?]; cbn;
  repeat case_match; by intros [= <- <-].

Lemma KeepsFiles_fault : Preserves keeps_files fault.
Proof. keeps_files_prim. Qed.

Lemma KeepsFiles_emit e : Preserves keeps_files (emit e).
Proof. keeps_files_prim. Qed.

Lemma KeepsFiles_os_Stat p : Preserves keeps_files (os_Stat p).
Proof. keeps_files_prim. Qed.

Lemma KeepsFiles_os_ReadFile p : Preserves keeps_files (os_ReadFile p).
Proof. keeps_files_prim. Qed.

Lemma KeepsFiles_os_ReadDir d : Preserves keeps_files (os_ReadDir d).
Proof. keeps_files_prim. Qed.

Lemma KeepsFiles_os_MkdirAll p : Preserves keeps_files (os_MkdirAll p).
Proof. keeps_files_prim. Qed.

Lemma KeepsFiles_os_Chmod p : Preserves keeps_files (os_Chmod p).
Proof. keeps_files_prim. Qed.

Lemma KeepsFiles_http_Get u : Preserves keeps_files (http_Get u).
Proof. keeps_files_prim. Qed.


#[export] Hint Resolve KeepsFiles_fault KeepsFiles_emit KeepsFiles_os_Stat
  KeepsFiles_os_ReadFile KeepsFiles_os_ReadDir KeepsFiles_os_MkdirAll
  KeepsFiles_os_Chmod KeepsFiles_http_Get : preserves.

(** *** The system calls that are issued *)

Section Emits.

Context (Q : event → Prop).

Global Instance emits_preorder : PreOrder (emits Q).
Proof.
  split.
  - intros w. exists []. by rewrite app_nil_r.
  - intros w1 w2 w3 (e1 & T1 & N1) (e2 & T2 & N2).
    exists (e1 ++ e2). rewrite T2, T1, app_assoc. split; [done|].
    by apply Forall_app.
Qed.

Lemma emits_same w w' : trace w' = trace w → emits Q w w'.
Proof. intros Ht. exists []. by rewrite app_nil_r. Qed.

Lemma emits_one w w' e : trace w' = trace w ++ [e] → Q e → emits Q w w'.
Proof. intros Ht He. exists [e]. by repeat constructor. Qed.

Ltac emits_prim e :=
  let w := fresh "w" in let r := fresh "r" in let w' := fresh "w'" in
  intros w r w';
  unfold os_Stat, os_ReadFile, os_WriteFile, os_Remove, os_MkdirAll,
    os_Chmod, http_Get, os_CreateTemp, os_ReadDir, spawn, emit, fault;
  munfold; cbn;
  destruct (faults w) as [|[] ?]; cbn;
  repeat case_match; intros [= <- <-];
  first [ by apply emits_same | by apply (emits_one _ _ e) ].

Lemma Emits_fault : Preserves (emits Q) fault.
Proof. emits_prim (EvKill ""). Qed.

Lemma Emits_emit e : Q e → Preserves (emits Q) (emit e).
Proof. intros He. emits_prim e. Qed.

Lemma Emits_os_Stat p : Preserves (emits Q) (os_Stat p).
Proof. emits_prim (EvKill ""). Qed.

Lemma Emits_os_ReadFile p : Preserves (emits Q) (os_ReadFile p).
Proof. emits_prim (EvKill ""). Qed.

Lemma Emits_os_ReadDir d : Preserves (emits Q) (os_ReadDir d).
Proof. emits_prim (EvKill ""). Qed.

Lemma Emits_os_CreateTemp pre suf : Preserves (emits Q) (os_CreateTemp pre suf).
Proof. emits_prim (EvKill ""). Qed.

Lemma Emits_os_WriteFile p d :
  Q (EvWriteFile p d) → Preserves (emits Q) (os_WriteFile p d).
Proof. intros He. emits_prim (EvWriteFile p d). Qed.

Lemma Emits_os_Remove p : Q (EvRemove p) → Preserves (emits Q) (os_Remove p).
Proof. intros He. emits_prim (EvRemove p). Qed.

Lemma Emits_os_MkdirAll p :
  Q (EvMkdirAll p) → Preserves (emits Q) (os_MkdirAll p).
Proof. intros He. emits_prim (EvMkdirAll p). Qed.

Lemma Emits_os_Chmod p : Q (EvChmod p) → Preserves (emits Q) (os_Chmod p).
Proof. intros He. emits_prim (EvChmod p). Qed.

Lemma Emits_http_Get u : Q (EvHttpGet u) → Preserves (emits Q) (http_Get u).
Proof. intros He. emits_prim (EvHttpGet u). Qed.

Lemma Emits_spawn p a t :
  Q (EvSpawn p a t) → Preserves (emits Q) (spawn p a t).
Proof. intros He. emits_prim (EvSpawn p a t). Qed.

End Emits.

#[export] Hint Resolve Emits_fault Emits_os_Stat Emits_os_ReadFile
  Emits_os_ReadDir Emits_os_CreateTemp : preserves.

(** The side condition on an event: by computation. *)
Ltac emits_side := cbn; intros; simplify_eq; first [done | tauto | eauto].

#[export] Hint Extern 2 (Preserves (emits _) (emit _)) =>
  solve [apply Emits_emit; emits_side] : preserves.
#[export] Hint Extern 2 (Preserves (emits _) (os_WriteFile _ _)) =>
  solve [apply Emits_os_WriteFile; emits_side] : preserves.
#[export] Hint Extern 2 (Preserves (emits _) (os_Remove _)) =>
  solve [apply Emits_os_Remove; emits_side] : preserves.
#[export] Hint Extern 2 (Preserves (emits _) (os_MkdirAll _)) =>
  solve [apply Emits_os_MkdirAll; emits_side] : preserves.
#[export] Hint Extern 2 (Preserves (emits _) (os_Chmod _)) =>
  solve [apply Emits_os_Chmod; emits_side] : preserves.
#[export] Hint Extern 2 (Preserves (emits _) (http_Get _)) =>
  solve [apply Emits_http_Get; emits_side] : preserves.
#[export] Hint Extern 2 (Preserves (emits _) (spawn _ _ _)) =>
  solve [apply Emits_spawn; emits_side] : preserves.

(** *** The directories *)

Global Instance grows_dirs_preorder : PreOrder grows_dirs.
Proof.
  split; [intros w|intros w1 w2 w3]; unfold grows_dirs; set_solver.
Qed.

Ltac grows_dirs_prim :=
  let w := fresh "w" in let r := fresh "r" in let w' := fresh "w'" in
  intros w r w';
  unfold os_Stat, os_ReadFile, os_WriteFile, os_Remove, os_MkdirAll,
    os_Chmod, http_Get, os_CreateTemp, os_ReadDir, spawn, emit, fault;
  munfold; cbn;
  destruct (faults w) as [|[] ?]; cbn;
  repeat case_match; intros [= <- <-]; unfold grows_dirs; cbn;
  set_solver.

Lemma GrowsDirs_os_Stat p : Preserves grows_dirs (os_Stat p).
Proof. grows_dirs_prim. Qed.

Lemma GrowsDirs_os_WriteFile p d : Preserves grows_dirs (os_WriteFile p d).
Proof. grows_dirs_prim. Qed.

Lemma GrowsDirs_os_Remove p : Preserves grows_dirs (os_Remove p).
Proof. grows_dirs_prim. Qed.

Lemma GrowsDirs_os_MkdirAll p : Preserves grows_dirs (os_MkdirAll p).
Proof. grows_dirs_prim. Qed.

#[export] Hint Resolve GrowsDirs_os_Stat GrowsDirs_os_WriteFile
  GrowsDirs_os_Remove GrowsDirs_os_MkdirAll : preserves.

(** ** The tokenizer of [parseArguments] *)


Lemma range_go_plain fuel i c s :
  (byte_val c <? 128)%N = true →
  range_go (S fuel) i (String c s)
  = RuneAt i (String c "") (Some c) :: range_go fuel (i + 1) s.
Proof.
  intros Hc. cbn [range_go]. unfold utf8_chunk, utf8_width. rewrite Hc.
  reflexivity.
Qed.

Lemma lx_switch_plain i c st :
  plain_byte c = true →
  lx_switch (RuneAt i (String c "") (Some c)) st = lx_write (String c "") st.
Proof.
  unfold plain_byte, lx_switch. cbn [r_ascii r_bytes].
  intros [_ H%negb_true_iff]%andb_true_iff.
  apply orb_false_iff in H as [[[H1 H2]%orb_false_iff H3]%orb_false_iff H4].
  rewrite H1, H2, H3, H4. reflexivity.
Qed.

Lemma string_app_nil_r s : s +:+ "" = s.
Proof. induction s as [|c s IH]; [done|]. by rewrite string_app_cons, IH. Qed.

Lemma string_app_snoc s c t : (s +:+ String c "") +:+ t = s +:+ String c t.
Proof. by rewrite string_app_assoc. Qed.

Lemma string_app_not_nil s c t : s +:+ String c t ≠ "".
Proof. destruct s; discriminate. Qed.

Lemma lx_step_plain len i c res cur q :
  plain_byte c = true →
  lx_step len (mkLexer res cur false q) (RuneAt i (String c "") (Some c))
  = if (i =? len - 1)%nat
    then mkLexer (res ++ [cur +:+ String c ""]) (cur +:+ String c "") false q
    else mkLexer res (cur +:+ String c "") false q.
Proof.
  intros Hc. unfold lx_step. rewrite lx_switch_plain by done.
  unfold lx_write. cbn [r_index lx_result lx_currentArg lx_inQuotes lx_quoteChar].
  rewrite str_eqb_false by apply string_app_not_nil.
  by destruct (i =? len - 1)%nat.
Qed.

Lemma plain_byte_ascii c : plain_byte c = true → (byte_val c <? 128)%N = true.
Proof. unfold plain_byte. by intros [? _]%andb_true_iff. Qed.

(** The tokenizer across a run of plain bytes that does not end the input. *)
Lemma tokenize_plain_bytes len w : ∀ rest fuel i res cur q,
  plain_bytes w = true →
  String.length (w +:+ rest) <= fuel →
  rest ≠ "" →
  i + String.length w + String.length rest = len →
  foldl (lx_step len) (mkLexer res cur false q) (range_go fuel i (w +:+ rest))
  = foldl (lx_step len) (mkLexer res (cur +:+ w) false q)
      (range_go (fuel - String.length w) (i + String.length w) rest).
Proof.
  induction w as [|c w IH]; intros rest fuel i res cur q Hw Hfuel Hrest Hlen.
  - rewrite string_app_nil, string_app_nil_r. cbn. by rewrite Nat.sub_0_r, Nat.add_0_r.
  - cbn in Hw. apply andb_true_iff in Hw as [Hc Hw].
    rewrite string_app_cons in *. cbn [String.length] in *.
    destruct fuel as [|fuel]; [lia|].
    rewrite range_go_plain by by apply plain_byte_ascii.
    cbn [foldl]. rewrite lx_step_plain by done.
    assert ((i =? len - 1)%nat = false) as ->.
    { apply Nat.eqb_neq. destruct rest; [done|]. cbn in Hlen. lia. }
    rewrite IH; [|done|lia|done|lia].
    rewrite string_app_snoc. f_equal. f_equal; lia.
Qed.

(** The tokenizer across a run of plain bytes that ends the input: the
    argument in progress is appended at the last byte. *)
Lemma tokenize_plain_last len w : ∀ fuel i res cur q,
  plain_bytes w = true → w ≠ "" →
  String.length w <= fuel →
  i + String.length w = len →
  foldl (lx_step len) (mkLexer res cur false q) (range_go fuel i w)
  = mkLexer (res ++ [cur +:+ w]) (cur +:+ w) false q.
Proof.
  induction w as [|c w IH]; intros fuel i res cur q Hw Hne Hfuel Hlen; [done|].
  cbn in Hw. apply andb_true_iff in Hw as [Hc Hw].
  cbn [String.length] in *. destruct fuel as [|fuel]; [lia|].
  rewrite range_go_plain by by apply plain_byte_ascii.
  cbn [foldl]. rewrite lx_step_plain by done.
  destruct w as [|c' w].
  - assert ((i =? len - 1)%nat = true) as -> by (apply Nat.eqb_eq; cbn in Hlen; lia).
    destruct fuel; reflexivity.
  - assert ((i =? len - 1)%nat = false) as ->
      by (apply Nat.eqb_neq; cbn in Hlen; lia).
    rewrite IH; [|done|done|cbn in *; lia|cbn in *; lia].
    by rewrite string_app_snoc.
Qed.

Lemma string_length_pos s : s ≠ "" → 0 < String.length s.
Proof. destruct s; [done|cbn; lia]. Qed.

(** Words, each followed by one space. *)
Lemma strings_Join_snoc ws x :
  strings_Join (ws ++ [x]) " "
  = foldr (λ w acc, w +:+ " " +:+ acc) "" ws +:+ x.
Proof.
  induction ws as [|w ws IH]; [done|].
  cbn [app foldr]. rewrite !string_app_assoc, <- IH.
  destruct ws; reflexivity.
Qed.

Lemma lx_step_space len i res cur q :
  cur ≠ "" → i ≠ len - 1 →
  lx_step len (mkLexer res cur false q) (RuneAt i " " (Some " "%char))
  = mkLexer (res ++ [cur]) "" false q.
Proof.
  intros Hcur Hi. unfold lx_step, lx_switch.
  cbn [r_ascii r_bytes r_index lx_result lx_currentArg lx_inQuotes lx_quoteChar].
  change ((" " =? " ")%char) with true. cbn [orb].
  rewrite (str_eqb_false cur "") by done. cbn [negb].
  cbn [lx_result lx_currentArg lx_inQuotes lx_quoteChar].
  apply Nat.eqb_neq in Hi. rewrite Hi. reflexivity.
Qed.

Lemma tokenize_words_go len ws : ∀ tail fuel i res q,
  Forall plain_word ws → tail ≠ "" →
  let text := foldr (λ w acc, w +:+ " " +:+ acc) "" ws in
  String.length (text +:+ tail) <= fuel →
  i + String.length (text +:+ tail) = len →
  foldl (lx_step len) (mkLexer res "" false q) (range_go fuel i (text +:+ tail))
  = foldl (lx_step len) (mkLexer (res ++ ws) "" false q)
      (range_go (fuel - String.length text) (i + String.length text) tail).
Proof.
  induction ws as [|w ws IH]; intros tail fuel i res q Hws Htail text Hfuel Hlen.
  - subst text. cbn [foldr]. rewrite string_app_nil, app_nil_r. cbn.
    by rewrite Nat.sub_0_r, Nat.add_0_r.
  - apply Forall_cons in Hws as [[Hne Hw] Hws].
    subst text. cbn [foldr] in *.
    set (text := foldr (λ w acc, w +:+ " " +:+ acc) "" ws) in *.
    rewrite !string_app_assoc in *.
    rewrite !string_app_length in Hfuel, Hlen.
    change (String.length " ") with 1 in *.
    rewrite tokenize_plain_bytes;
      [|done|rewrite !string_app_length; cbn; lia|discriminate
       |rewrite !string_app_length; cbn; lia].
    rewrite string_app_nil.
    change (" " +:+ text +:+ tail) with (String " " (text +:+ tail)).
    destruct (fuel - String.length w) as [|fuel'] eqn:Hf; [lia|].
    rewrite range_go_plain by reflexivity.
    pose proof (string_length_pos tail Htail).
    cbn [foldl]. rewrite lx_step_space; [|done|lia].
    rewrite IH; [|done|done|rewrite !string_app_length; lia
                 |rewrite !string_app_length; lia].
    rewrite <- app_assoc. cbn [app].
    rewrite !string_app_length. change (String.length " ") with 1.
    f_equal. f_equal; lia.
Qed.

(** Words of plain bytes, joined by single spaces, come back as they are:
    the tokenizer is a left inverse of [strings.Join]. *)
Lemma tokenize_Join ws :
  Forall plain_word ws → tokenize (strings_Join ws " ") = ws.
Proof.
  intros Hws. destruct ws as [|w0 ws0] using rev_ind; [done|]. clear IHws0.
  apply Forall_app in Hws as [Hws [[Hne Hw] _]%Forall_cons_1].
  unfold tokenize, range_string. rewrite strings_Join_snoc.
  rewrite tokenize_words_go; [|done|done|lia|reflexivity].
  rewrite tokenize_plain_last;
    [done|done|done|rewrite !string_app_length; lia
    |rewrite !string_app_length; lia].
Qed.

Lemma str_take_all s : str_take (String.length s) s = s.
Proof. induction s as [|c s IH]; [done|]. cbn. by rewrite IH. Qed.

Lemma str_drop_all s : str_drop (String.length s) s = "".
Proof. induction s as [|c s IH]; [done|]. done. Qed.

(** [range] on one multi-byte rune: one step, at the offset of its first
    byte. *)
Lemma range_go_multibyte fuel i r :
  multibyte_rune r → range_go (S fuel) i r = [RuneAt i r None].
Proof.
  intros [Hw Hn]. destruct r as [|c r]; [cbn in Hn; lia|].
  cbn [range_go]. unfold utf8_chunk. rewrite Hw, str_take_all, str_drop_all.
  assert ((byte_val c <? 128)%N = false) as ->.
  { destruct (byte_val c <? 128)%N eqn:E; [|done].
    unfold utf8_width in Hw. rewrite E in Hw. injection Hw as Hw.
    cbn in Hw, Hn. lia. }
  by destruct fuel.
Qed.

(** When the last rune takes more than one byte, the test for the end of
    the input, which compares the offset of the first byte of the rune
    with the offset of the last byte of the string, never fires. *)
Lemma tokenize_multibyte_tail ws w r :
  Forall plain_word ws → plain_bytes w = true → multibyte_rune r →
  tokenize (strings_Join (ws ++ [w +:+ r]) " ") = ws.
Proof.
  intros Hws Hw Hr. pose proof Hr as [_ Hn].
  assert (Hne : r ≠ "") by (intros ->; cbn in Hn; lia).
  unfold tokenize, range_string. rewrite strings_Join_snoc.
  rewrite tokenize_words_go;
    [|done|destruct w; [done|discriminate]|lia|reflexivity].
  rewrite tokenize_plain_bytes;
    [|done|rewrite !string_app_length; lia|done
     |rewrite !string_app_length; lia].
  rewrite string_app_nil.
  match goal with
  | |- context [range_go ?f _ r] =>
      destruct f as [|f'] eqn:Hf;
        [rewrite !string_app_length in Hf; lia|]
  end.
  rewrite range_go_multibyte by done. cbn [foldl].
  unfold lx_step, lx_switch, lx_write.
  cbn [r_ascii r_bytes r_index lx_result lx_currentArg lx_inQuotes
       lx_quoteChar].
  match goal with
  | |- context [(?a =? ?b)%nat] =>
      assert ((a =? b)%nat = false) as ->
        by (apply Nat.eqb_neq; rewrite !string_app_length; lia)
  end.
  reflexivity.
Qed.

Lemma lx_step_nonempty len st r :
  Forall (λ t, t ≠ "") (lx_result st) →
  Forall (λ t, t ≠ "") (lx_result (lx_step len st r)).
Proof.
  intros H. unfold lx_step, lx_switch, lx_write.
  repeat case_match; cbn [lx_result lx_currentArg] in *;
    rewrite ?Forall_app, ?Forall_singleton;
    repeat match goal with
    | H : _ && _ = true |- _ => apply andb_true_iff in H as [? ?]
    | H : negb (str_eqb _ _) = true |- _ =>
        apply negb_true_iff, bool_decide_eq_false in H
    end; try done.
Qed.

Lemma foldl_lx_step_nonempty len l : ∀ st,
  Forall (λ t, t ≠ "") (lx_result st) →
  Forall (λ t, t ≠ "") (lx_result (foldl (lx_step len) st l)).
Proof.
  induction l as [|r l IH]; intros st Hst; [done|].
  cbn [foldl]. apply IH. by apply lx_step_nonempty.
Qed.

Lemma tokenize_nonempty s : Forall (λ t, t ≠ "") (tokenize s).
Proof. unfold tokenize. apply foldl_lx_step_nonempty. constructor. Qed.

(** X1.  When the argument string is a list of words joined by single
    spaces, each word non-empty and made of ASCII bytes other than space,
    tab and the two quotes, and the string is not JSON for an array of
    strings, [parseArguments] returns exactly these words, in order. *)
Theorem parseArguments_plain_words (ws : list string) :
  Forall plain_word ws →
  json_Unmarshal_strings (strings_Join ws " ") = None →
  parseArguments (strings_Join ws " ") = ws.
Proof.
  intros Hws Hjson. unfold parseArguments. rewrite Hjson.
  by apply tokenize_Join.
Qed.

Lemma parseArguments_plain_words_witness :
  parseArguments "-n 5 /etc/hosts" = ["-n"; "5"; "/etc/hosts"].
Proof.
  apply (parseArguments_plain_words ["-n"; "5"; "/etc/hosts"]).
  - repeat constructor; discriminate.
  - vm_compute. reflexivity.
Defined.

(** Plain words, the last of which ends with a rune of two bytes or more:
    [parseArguments] returns the words before it only. *)
Lemma parseArguments_multibyte_tail_words (ws : list string) (w r : string) :
  Forall plain_word ws → plain_bytes w = true → multibyte_rune r →
  json_Unmarshal_strings (strings_Join (ws ++ [w +:+ r]) " ") = None →
  parseArguments (strings_Join (ws ++ [w +:+ r]) " ") = ws.
Proof.
  intros Hws Hw Hr Hjson. unfold parseArguments. rewrite Hjson.
  by apply tokenize_multibyte_tail.
Qed.

(** *** A multi-byte rune at the end, in general *)

Lemma byte_in_cont lo hi c :
  (128 <= lo)%N → (hi <= 191)%N → utf8_cont c = false → byte_in lo hi c = false.
Proof.
  unfold utf8_cont, byte_in. intros Hlo Hhi.
  rewrite !andb_false_iff, !N.leb_gt. lia.
Qed.

Lemma utf8_width_bounds s n :
  utf8_width s = Some n → 1 <= n <= String.length s.
Proof.
  unfold utf8_width. intros H.
  repeat (case_match; simplify_eq; cbn; try lia).
Qed.

(** Decoding the head of a string does not depend on what follows a rune
    boundary. *)
Lemma utf8_width_app s t :
  s ≠ "" → starts_rune t → utf8_width (s +:+ t) = utf8_width s.
Proof.
  intros Hs Ht. destruct s as [|c0 s]; [done|]. clear Hs.
  rewrite string_app_cons. unfold utf8_width.
  destruct (byte_val c0 <? 128)%N; [done|].
  destruct (byte_val c0 <? 194)%N; [done|].
  assert (∀ lo hi d u, t = String d u → (128 <= lo)%N → (hi <= 191)%N →
            byte_in lo hi d = false) as Hd.
  { intros lo hi d u -> ? ?. by apply byte_in_cont. }
  assert (∀ d u, t = String d u → utf8_cont d = false) as Hc.
  { by intros d u ->. }
  destruct (byte_val c0 <? 224)%N.
  { destruct s as [|c1 s]; [|done]. rewrite string_app_nil.
    destruct t as [|d u]; [done|]. by rewrite (Hc d u). }
  destruct (byte_val c0 <? 240)%N.
  { destruct s as [|c1 [|c2 s]]; rewrite ?string_app_cons, ?string_app_nil;
      [| |done].
    - destruct t as [|d [|d2 u]]; [done..|].
      rewrite (Hd _ _ d (String d2 u)); [done..| |]; repeat case_match; lia.
    - destruct t as [|d u]; [done|]. rewrite (Hc d u) by done.
      by rewrite andb_false_r. }
  destruct (byte_val c0 <? 245)%N; [|done].
  destruct s as [|c1 [|c2 [|c3 s]]]; rewrite ?string_app_cons, ?string_app_nil;
    [| | |done].
  - destruct t as [|d [|d2 [|d3 u]]]; [done..|].
    rewrite (Hd _ _ d (String d2 (String d3 u))); [done..| |];
      repeat case_match; lia.
  - destruct t as [|d [|d2 u]]; [done..|].
    rewrite (Hc d (String d2 u)) by done. by rewrite andb_false_r.
  - destruct t as [|d u]; [done|]. rewrite (Hc d u) by done.
    by rewrite andb_false_r.
Qed.

Lemma str_take_app_le n s t :
  n <= String.length s → str_take n (s +:+ t) = str_take n s.
Proof.
  revert s. induction n as [|n IH]; intros [|c s] Hn;
    rewrite ?string_app_cons, ?string_app_nil; cbn in *; try lia.
  - by destruct t.
  - done.
  - rewrite IH; [done|lia].
Qed.

Lemma str_drop_app_le n s t :
  n <= String.length s → str_drop n (s +:+ t) = str_drop n s +:+ t.
Proof.
  revert s. induction n as [|n IH]; intros [|c s] Hn;
    rewrite ?string_app_cons, ?string_app_nil; cbn in *; try lia.
  - by destruct t.
  - done.
  - apply IH. lia.
Qed.

Lemma str_drop_length n s :
  n <= String.length s → String.length (str_drop n s) = String.length s - n.
Proof.
  revert s. induction n as [|n IH]; intros [|c s] Hn; cbn in *; try lia.
  apply IH. lia.
Qed.

(** Fuel beyond the length of the string makes no difference. *)
Lemma range_go_fuel a : ∀ b u j,
  String.length u <= a → String.length u <= b →
  range_go a j u = range_go b j u.
Proof.
  induction a as [|a IHa]; intros b u j Ha Hb.
  - destruct u; [by destruct b|cbn in Ha; lia].
  - destruct u as [|c u]; [by destruct b|].
    destruct b as [|b]; [cbn in Hb; lia|]. cbn [range_go].
    unfold utf8_chunk.
    destruct (utf8_width (String c u)) as [n|] eqn:E.
    + apply utf8_width_bounds in E. f_equal.
      apply IHa; rewrite str_drop_length; cbn in *; lia.
    + f_equal. apply IHa; cbn in *; lia.
Qed.

(** [range] over a string followed by more runes: the runes of the string,
    then those of what follows, at their offsets. *)
Lemma range_go_app t : starts_rune t → ∀ f1 f2 f s i,
  String.length s <= f1 → String.length t <= f2 →
  String.length s + String.length t <= f →
  range_go f i (s +:+ t)
  = range_go f1 i s ++ range_go f2 (i + String.length s) t.
Proof.
  intros Ht. induction f1 as [|f1 IH]; intros f2 f s i H1 H2 H.
  - destruct s; [|cbn in H1; lia]. rewrite string_app_nil.
    cbn [range_go app String.length]. rewrite Nat.add_0_r.
    apply range_go_fuel; cbn in *; lia.
  - destruct s as [|c s].
    + rewrite string_app_nil.
      cbn [range_go app String.length]. rewrite Nat.add_0_r.
      apply range_go_fuel; cbn in *; lia.
    + destruct f as [|f]; [cbn in H; lia|].
      rewrite string_app_cons. cbn [range_go].
      rewrite <- string_app_cons. unfold utf8_chunk.
      rewrite utf8_width_app by done.
      destruct (utf8_width (String c s)) as [n|] eqn:E.
      * apply utf8_width_bounds in E.
        rewrite str_take_app_le, str_drop_app_le by lia.
        rewrite <- app_comm_cons. f_equal.
        rewrite (IH f2 f (str_drop n (String c s)) (i + n)).
        -- f_equal. f_equal. rewrite str_drop_length by lia. lia.
        -- rewrite str_drop_length; cbn in *; lia.
        -- done.
        -- rewrite str_drop_length; cbn in *; lia.
      * rewrite <- app_comm_cons. f_equal.
        rewrite string_app_cons. cbn [str_drop].
        rewrite (IH f2 f s (i + 1)); cbn in *; [|lia..].
        f_equal. f_equal. lia.
Qed.

Lemma range_string_app s t :
  starts_rune t →
  range_string (s +:+ t)
  = range_string s ++ range_go (String.length t) (String.length s) t.
Proof.
  intros Ht. unfold range_string. rewrite string_app_length.
  by rewrite (range_go_app t Ht (String.length s) (String.length t)).
Qed.

(** The offsets that [range] yields are offsets of the string. *)
Lemma range_go_index f : ∀ i s,
  Forall (λ r, i <= r_index r < i + String.length s) (range_go f i s).
Proof.
  induction f as [|f IH]; intros i s; [by constructor|].
  destruct s as [|c s]; [by constructor|]. cbn [range_go].
  unfold utf8_chunk. destruct (utf8_width (String c s)) as [n|] eqn:E.
  - apply utf8_width_bounds in E. constructor; [cbn in *; lia|].
    eapply Forall_impl; [apply IH|]. intros r. cbn beta.
    rewrite str_drop_length by lia. cbn in *. lia.
  - constructor; [cbn; lia|].
    eapply Forall_impl; [apply IH|]. intros r. cbn. lia.
Qed.

(** Away from the last byte offset an iteration is the switch alone. *)
Lemma foldl_lx_step_switch len rs : ∀ st,
  Forall (λ r, r_index r ≠ len - 1) rs →
  foldl (lx_step len) st rs = foldl (λ st r, lx_switch r st) st rs.
Proof.
  induction rs as [|r rs IH]; intros st Hrs; [done|].
  apply Forall_cons in Hrs as [Hr Hrs]. cbn. rewrite <- IH by done.
  f_equal. unfold lx_step. by rewrite (proj2 (Nat.eqb_neq _ _) Hr).
Qed.

Lemma multibyte_starts_rune r : multibyte_rune r → starts_rune r.
Proof.
  intros [Hw Hn]. destruct r as [|c r]; [done|]. cbn.
  unfold utf8_width in Hw.
  destruct (byte_val c <? 128)%N eqn:E1; [injection Hw as Hw; cbn in *; lia|].
  destruct (byte_val c <? 194)%N eqn:E2; [done|].
  apply N.ltb_ge in E2. unfold utf8_cont, byte_in.
  apply andb_false_iff. right. apply N.leb_gt. lia.
Qed.

Lemma tokenize_multibyte_end s r :
  multibyte_rune r →
  tokenize (s +:+ r) = lx_result (lexer_after s)
  ∧ tokenize (s +:+ r +:+ " ")
    = lx_result (lexer_after s)
        ++ [lx_currentArg (lexer_after s) +:+ r
              +:+ (if lx_inQuotes (lexer_after s) then " " else "")].
Proof.
  intros Hr. pose proof (multibyte_starts_rune r Hr) as Hstart.
  destruct Hr as [Hw Hn].
  assert (Hrune : ∀ f i, String.length r <= f →
            range_go f i r = [RuneAt i r None]).
  { intros [|f] i Hf; [lia|]. by apply range_go_multibyte. }
  assert (Hs : Forall (λ x, r_index x < String.length s) (range_string s)).
  { eapply Forall_impl; [apply range_go_index|]. intros x. cbn. lia. }
  unfold tokenize, lexer_after. split.
  - rewrite range_string_app by done. rewrite Hrune by done.
    rewrite foldl_lx_step_switch.
    + by rewrite foldl_app.
    + apply Forall_app. split.
      * eapply Forall_impl; [exact Hs|]. intros x. cbn beta.
        rewrite string_app_length. lia.
      * repeat constructor. cbn. rewrite string_app_length. lia.
  - rewrite range_string_app by by destruct r.
    rewrite (range_go_app " " eq_refl (String.length r) 1) by
      (rewrite ?string_app_length; cbn; lia).
    rewrite Hrune by done.
    change (range_go 1 (String.length s + String.length r) " ")
      with [RuneAt (String.length s + String.length r) " " (Some " "%char)].
    rewrite !string_app_length. cbn [String.length].
    rewrite !foldl_app.
    rewrite (foldl_lx_step_switch _ (range_string s)).
    2:{ eapply Forall_impl; [exact Hs|]. intros x. cbn beta. lia. }
    set (st := foldl _ _ (range_string s)).
    cbn [foldl]. unfold lx_step at 2. cbn [r_index].
    rewrite (proj2 (Nat.eqb_neq _ _)) by lia. cbn [andb].
    unfold lx_step. cbn [r_index].
    replace (String.length s + (String.length r + 1) - 1)
      with (String.length s + String.length r) by lia.
    rewrite Nat.eqb_refl. cbn [andb].
    change (lx_switch (RuneAt (String.length s) r None) st)
      with (lx_write r st).
    unfold lx_switch, lx_write, str_eqb. cbn [r_ascii r_bytes].
    change ((" " =? " ")%char || (" " =? "009")%char) with true. cbv iota.
    assert (∀ u, lx_currentArg st +:+ r +:+ u ≠ "") as Hne.
    { intros u. destruct r; [cbn in Hn; lia|]. rewrite string_app_cons.
      apply string_app_not_nil. }
    destruct (lx_inQuotes st); cbn [lx_currentArg lx_result lx_inQuotes].
    + rewrite string_app_assoc.
      by rewrite bool_decide_eq_false_2 by apply Hne.
    + pose proof (Hne "") as Hne0. rewrite string_app_nil_r in Hne0.
      rewrite (bool_decide_eq_false_2 (lx_currentArg st +:+ r = "") Hne0).
      cbn [negb lx_currentArg lx_result lx_inQuotes].
      rewrite bool_decide_eq_true_2 by done. cbn [negb lx_result].
      by rewrite !string_app_nil_r.
Qed.

(** X2.  An argument string that ends with a rune of two bytes or more
    loses its last argument.  For every such string (not JSON for an array
    of strings), whatever precedes the rune, [parseArguments] returns the
    arguments it has completed before, without the one that contains the
    last rune: the same string followed by one blank gives the same
    arguments and exactly one more, which ends with that rune (and with the
    blank when a quote is open).  When what precedes the rune is a list of
    plain words joined by single blanks, the result is these words without
    the last one.  The last argument is appended when the loop index equals
    [len(args)-1], and the index of a multi-byte rune is the offset of its
    first byte. *)
Theorem parseArguments_multibyte_tail (s r : string) :
  multibyte_rune r →
  json_Unmarshal_strings (s +:+ r) = None →
  (json_Unmarshal_strings (s +:+ r +:+ " ") = None →
   ∃ cur blank,
     parseArguments (s +:+ r +:+ " ")
     = parseArguments (s +:+ r) ++ [cur +:+ r +:+ blank]
     ∧ (blank = "" ∨ blank = " "))
  ∧ (∀ ws w,
       Forall plain_word ws → plain_bytes w = true →
       s = strings_Join (ws ++ [w]) " " →
       parseArguments (s +:+ r) = ws).
Proof.
  intros Hr H1. split.
  - intros H2. unfold parseArguments. rewrite H1, H2.
    destruct (tokenize_multibyte_end s r Hr) as [-> ->].
    exists (lx_currentArg (lexer_after s)),
      (if lx_inQuotes (lexer_after s) then " " else "").
    split; [done|]. destruct (lx_inQuotes _); auto.
  - intros ws w Hws Hw ->.
    assert (strings_Join (ws ++ [w]) " " +:+ r
            = strings_Join (ws ++ [w +:+ r]) " ") as Hjoin.
    { by rewrite !strings_Join_snoc, string_app_assoc. }
    rewrite Hjoin in *. by apply parseArguments_multibyte_tail_words.
Qed.

Lemma parseArguments_multibyte_tail_witness :
  let e_acute := String (ascii_of_N 195) (String (ascii_of_N 169) "") in
  parseArguments ("-n caf" +:+ e_acute) = ["-n"]
  ∧ ∃ cur blank,
      parseArguments ("-n caf" +:+ e_acute +:+ " ")
      = parseArguments ("-n caf" +:+ e_acute) ++ [cur +:+ e_acute +:+ blank]
      ∧ (blank = "" ∨ blank = " ").
Proof.
  intros e_acute.
  destruct (parseArguments_multibyte_tail "-n caf" e_acute) as [H1 H2].
  - split; [reflexivity|cbn; lia].
  - vm_compute. reflexivity.
  - split.
    + apply (H2 ["-n"] "caf"); [repeat constructor; discriminate|reflexivity..].
    + apply H1. vm_compute. reflexivity.
Defined.

(** With the blank the argument is returned. *)
Lemma parseArguments_multibyte_then_blank :
  let e_acute := String (ascii_of_N 195) (String (ascii_of_N 169) "") in
  parseArguments ("-n caf" +:+ e_acute +:+ " ") = ["-n"; "caf" +:+ e_acute].
Proof. vm_compute. reflexivity. Qed.

(** X3.  Whenever [parseArguments] falls back to its tokenizer, no
    argument it returns is empty: an argument written as an empty pair of
    quotes is dropped. *)
Theorem parseArguments_no_empty_argument (args : string) :
  json_Unmarshal_strings args = None →
  Forall (λ arg, arg ≠ "") (parseArguments args).
Proof.
  intros Hjson. unfold parseArguments. rewrite Hjson.
  apply tokenize_nonempty.
Qed.

Lemma parseArguments_no_empty_argument_witness :
  Forall (λ arg, arg ≠ "") (parseArguments "a '' b")
  ∧ parseArguments "a '' b" = ["a"; "b"].
Proof.
  split.
  - apply (parseArguments_no_empty_argument "a '' b"). vm_compute. reflexivity.
  - vm_compute. reflexivity.
Defined.

(** ** The executor, run by run *)

(** System calls return. *)
Lemma os_CreateTemp_returns pre suf w msg w' :
  os_CreateTemp pre suf w ≠ (Panic msg, w').
Proof.
  unfold os_CreateTemp, fault. munfold. destruct (faults w) as [|[] ?]; done.
Qed.

Lemma os_WriteFile_returns p d w msg w' :
  os_WriteFile p d w ≠ (Panic msg, w').
Proof.
  unfold os_WriteFile, emit, fault. munfold. cbn.
  destruct (faults w) as [|[] ?]; done.
Qed.

Lemma os_Chmod_returns p w msg w' : os_Chmod p w ≠ (Panic msg, w').
Proof.
  unfold os_Chmod, emit, fault. munfold. cbn.
  destruct (faults w) as [|[] ?]; done.
Qed.


(** The deferred removal: it runs on the world the body left, and the
    result is the one of the body. *)
Lemma remove_at_end {A} tmp (r1 r : res A) w1 w' :
  (let '(_, w2) :=
     let (r0, w'0) := os_Remove tmp w1 in
     match r0 with
     | Ret _ => (Ret (), w'0)
     | Panic msg => (Panic msg, w'0)
     end in (r1, w2)) = (r, w') →
  ∃ rr, os_Remove tmp w1 = (rr, w') ∧ r = r1.
Proof.
  destruct (os_Remove tmp w1) as [[?|?] ?]; cbn; intros [= <- <-]; eauto.
Qed.

Section ExecutorRuns.

Context (L : GoLib).

(** The shape of every run of [executeScript]: the temporary file cannot
    be made; or it is made, the script is written to it, the file is made
    executable off Windows, the dispatch runs, and, whatever happened after
    the creation, [os.Remove] is called on the file at the end. *)
Lemma executeScript_run script argsList t w r w' :
  executeScript L script argsList t w = (r, w') →
  let res0 := running script (strings_Join argsList " ") in
  let argsSlice := parseArguments (strings_Join argsList " ") in
  (∃ tmp e,
     os_CreateTemp "remote_script_" (fileExt (Name script)) w
       = (Ret (tmp, Some e), w') ∧
     r = Ret (failed ("Failed to create temp file: " +:+ e) res0, Some e))
  ∨ ∃ tmp w0 w4 rr,
      os_CreateTemp "remote_script_" (fileExt (Name script)) w
        = (Ret (tmp, None), w0) ∧
      os_Remove tmp w4 = (rr, w') ∧
      ((∃ e, os_WriteFile tmp (Contents script) w0 = (Ret (Some e), w4) ∧
             r = Ret (failed ("Failed to write script to temp file: " +:+ e)
                        res0, Some e))
       ∨ ∃ w1, os_WriteFile tmp (Contents script) w0 = (Ret None, w1) ∧
           ((∃ e, goos w1 ≠ "windows" ∧
                  os_Chmod tmp w1 = (Ret (Some e), w4) ∧
                  r = Ret (failed ("Failed to set script executable: " +:+ e)
                             res0, Some e))
            ∨ ∃ w2,
                (if decide (goos w1 = "windows") then w2 = w1
                 else os_Chmod tmp w1 = (Ret None, w2)) ∧
                dispatch L script argsList argsSlice t tmp res0 w2 = (r, w4))).
Proof.
  intros Hrun res0 argsSlice. unfold executeScript in Hrun.
  replace (match argsList with
           | [] => ""
           | _ :: _ => strings_Join argsList " "
           end)
    with (strings_Join argsList " ") in Hrun by by destruct argsList.
  fold argsSlice in Hrun. fold (running script (strings_Join argsList " ")) in Hrun.
  fold res0 in Hrun. munfold.
  destruct (os_CreateTemp _ _ w) as [[[tmp [e|]]|msg] w0] eqn:E0.
  - left. exists tmp, e. by simplify_eq.
  - right. unfold defer in Hrun.
    destruct (os_WriteFile tmp (Contents script) w0) as [[[e|]|msg] w1] eqn:E1.
    + cbn in Hrun. apply remove_at_end in Hrun as (rr & Hrm & ->).
      exists tmp, w0, w1, rr. split_and!; [done..|]. left. by exists e.
    + unfold str_eqb in Hrun.
      destruct (decide (goos w1 = "windows")) as [Hwin|Hwin].
      * rewrite bool_decide_eq_true_2 in Hrun by done. cbn in Hrun.
        destruct (dispatch L script argsList argsSlice t tmp res0 w1)
          as [r1 w4] eqn:Ed.
        apply remove_at_end in Hrun as (rr & Hrm & ->).
        exists tmp, w0, w4, rr. split_and!; [done..|]. right.
        exists w1. split; [done|]. right. exists w1.
        rewrite decide_True by done. done.
      * rewrite bool_decide_eq_false_2 in Hrun by done. cbn in Hrun.
        destruct (os_Chmod tmp w1) as [[[e|]|msg] w2] eqn:E2.
        -- cbn in Hrun. apply remove_at_end in Hrun as (rr & Hrm & ->).
           exists tmp, w0, w2, rr. split_and!; [done..|]. right.
           exists w1. split; [done|]. left. by exists e.
        -- destruct (dispatch L script argsList argsSlice t tmp res0 w2)
             as [r1 w4] eqn:Ed.
           apply remove_at_end in Hrun as (rr & Hrm & ->).
           exists tmp, w0, w4, rr. split_and!; [done..|]. right.
           exists w1. split; [done|]. right. exists w2.
           rewrite decide_False by done. done.
        -- by apply os_Chmod_returns in E2.
    + by apply os_WriteFile_returns in E1.
  - by apply os_CreateTemp_returns in E0.
Qed.

(** What the executor's parts keep. *)
Lemma SameEnv_startCommandExecution program args t r :
  Preserves same_env (startCommandExecution L program args t r).
Proof. unfold startCommandExecution. preserves. Qed.

Lemma SameEnv_ps_execute ps path args :
  Preserves same_env (ps_execute ps path args).
Proof. unfold ps_execute. preserves. Qed.

Lemma SameEnv_embedded_python cmdArgs :
  Preserves same_env (embedded_python cmdArgs).
Proof. unfold embedded_python. preserves. Qed.

Lemma SameEnv_dispatch script argsList argsSlice t tmp r :
  Preserves same_env (dispatch L script argsList argsSlice t tmp r).
Proof.
  pose proof SameEnv_startCommandExecution.
  pose proof SameEnv_ps_execute. pose proof SameEnv_embedded_python.
  unfold dispatch. preserves.
Qed.









Lemma os_WriteFile_fault_free p d w r w' :
  faults w = [] → os_WriteFile p d w = (r, w') → r = Ret None.
Proof.
  unfold os_WriteFile, emit, fault. munfold. cbn.
  intros ->. by intros [= <- <-].
Qed.


Lemma os_Chmod_fault_free p w r w' :
  faults w = [] → os_Chmod p w = (r, w') → r = Ret None.
Proof.
  unfold os_Chmod, emit, fault. munfold. cbn.
  intros ->. by intros [= <- <-].
Qed.

Lemma os_CreateTemp_fault_free pre suf w tmp e w' :
  faults w = [] → os_CreateTemp pre suf w ≠ (Ret (tmp, Some e), w').
Proof. unfold os_CreateTemp, fault. munfold. by intros ->. Qed.

Lemma same_env_faults w w' : same_env w w' → faults w = [] → faults w' = [].
Proof. unfold same_env. intros (_ & _ & _ & _ & _ & _ & _ & H). exact H. Qed.

Lemma same_env_goos w w' : same_env w w' → goos w' = goos w.
Proof. unfold same_env. by intros (H & _). Qed.



(** The events of a run of [executeScript] are those of the dispatch and
    calls that spawn nothing. *)
Lemma executeScript_emits (Q : event → Prop) script argsList t w r w' :
  (∀ p d, Q (EvWriteFile p d)) → (∀ p, Q (EvChmod p)) → (∀ p, Q (EvRemove p)) →
  (∀ tmp res w2 r2 w4,
     same_env w w2 →
     dispatch L script argsList
       (parseArguments (strings_Join argsList " ")) t tmp res w2 = (r2, w4) →
     emits Q w2 w4) →
  executeScript L script argsList t w = (r, w') →
  emits Q w w'.
Proof.
  intros QW QC QR Hd Hrun.
  destruct (executeScript_run _ _ _ _ _ _ Hrun)
    as [(tmp & e & E0 & ->)
       |(tmp & w0 & w4 & rr & E0 & Erm &
         [(e & E1 & ->)|(w1 & E1 & [(e & Hwin & E2 & ->)|(w2 & E2 & Ed)])])].
  - by eapply Emits_os_CreateTemp.
  - etrans; [by eapply Emits_os_CreateTemp|].
    etrans; [by eapply Emits_os_WriteFile|]. by eapply Emits_os_Remove.
  - etrans; [by eapply Emits_os_CreateTemp|].
    etrans; [by eapply Emits_os_WriteFile|].
    etrans; [by eapply Emits_os_Chmod|]. by eapply Emits_os_Remove.
  - pose proof (SameEnv_os_CreateTemp _ _ _ _ _ E0) as S0.
    pose proof (SameEnv_os_WriteFile _ _ _ _ _ E1) as S1.
    etrans; [by eapply Emits_os_CreateTemp|].
    etrans; [by eapply Emits_os_WriteFile|].
    destruct (decide (goos w1 = "windows")).
    + subst w2. etrans; [eapply Hd; [|exact Ed]; by etrans|].
      by eapply Emits_os_Remove.
    + pose proof (SameEnv_os_Chmod _ _ _ _ E2) as S2.
      etrans; [by eapply Emits_os_Chmod|].
      etrans; [eapply Hd; [|exact Ed]; etrans; [exact S0|by etrans]|].
      by eapply Emits_os_Remove.
Qed.

(** X5.  Where the execution timeout applies.  On a host other than
    Windows every child process that [executeScript] spawns runs under the
    deadline [exec_timeout].  On Windows a PowerShell script is run by the
    PowerShell executable under no deadline at all ([PowerShell.execute]
    builds its command without the context), and so is the child of every
    script that is neither PowerShell, batch nor VBScript, that is, the
    embedded Python interpreter. *)
Theorem executeScript_deadline script argsList t w r w' :
  executeScript L script argsList t w = (r, w') →
  (goos w ≠ "windows" →
   emits (spawned_with (λ _ timeout, timeout = Some t)) w w')
  ∧ (goos w = "windows" → isPowerShellScript (Name script) = true →
     emits (spawned_with (λ program timeout,
                            program = powershell_exe w ∧ timeout = None))
       w w')
  ∧ (goos w = "windows" → isPowerShellScript (Name script) = false →
     isBatchScript (Name script) = false → isVBScript (Name script) = false →
     emits (spawned_with (λ _ timeout, timeout = None)) w w').
Proof.
  intros Hrun. split_and!.
  - intros Hg. eapply executeScript_emits; [done..| |exact Hrun].
    intros tmp res w2 r2 w4 S2. unfold dispatch. rewrite get_world_bind.
    rewrite (same_env_goos _ _ S2).
    rewrite (str_eqb_false (goos w) "windows") by done.
    unfold startCommandExecution.
    repeat case_match; apply Preserves_run; preserves.
  - intros Hg Hps. eapply executeScript_emits; [done..| |exact Hrun].
    intros tmp res w2 r2 w4 S2. unfold dispatch. rewrite get_world_bind.
    rewrite (same_env_goos _ _ S2), Hg, Hps.
    change (str_eqb "windows" "windows") with true.
    cbv iota. unfold ps_execute.
    assert (powershell_exe w2 = powershell_exe w) as ->
      by (unfold same_env in S2; tauto).
    apply Preserves_run. preserves.
  - intros Hg Hps Hbat Hvbs.
    eapply executeScript_emits; [done..| |exact Hrun].
    intros tmp res w2 r2 w4 S2. unfold dispatch. rewrite get_world_bind.
    rewrite (same_env_goos _ _ S2), Hg, Hps, Hbat, Hvbs.
    change (str_eqb "windows" "windows") with true.
    cbv iota. unfold embedded_python.
    repeat case_match; apply Preserves_run; preserves.
Qed.

(** X6.  A Python script on Windows never yields a row.  The branch runs
    the embedded interpreter on the spot, with the output of the script on
    the standard streams of the extension, and panics on every error; when
    it returns, the result still has the status [running] and an empty
    console output, which the row projector turns into no row at all. *)
Theorem executeScript_windows_python script argsList t w r err w' :
  goos w = "windows" →
  isPowerShellScript (Name script) = false →
  isBatchScript (Name script) = false →
  isVBScript (Name script) = false →
  isPythonScript (Name script) = true →
  executeScript L script argsList t w = (Ret (r, err), w') →
  (err = None → r = running script (strings_Join argsList " "))
  ∧ ConsoleOut r = ""
  ∧ ∀ useCache fromCache,
      projectRows useCache (set_FromCache fromCache r) = [].
Proof.
  intros Hg Hps Hbat Hvbs Hpy Hrun.
  assert (H : (err = None → r = running script (strings_Join argsList " "))
              ∧ ConsoleOut r = "").
  { destruct (executeScript_run _ _ _ _ _ _ Hrun)
      as [(tmp & e & E0 & [= -> ->])
         |(tmp & w0 & w4 & rr & E0 & Erm &
           [(e & E1 & [= -> ->])
           |(w1 & E1 & [(e & Hwin & E2 & [= -> ->])|(w2 & E2 & Ed)])])];
      [done..|].
    assert (goos w2 = "windows") as G2.
    { pose proof (same_env_goos _ _ (SameEnv_os_CreateTemp _ _ _ _ _ E0)).
      pose proof (same_env_goos _ _ (SameEnv_os_WriteFile _ _ _ _ _ E1)).
      destruct (decide (goos w1 = "windows")); [by subst|congruence]. }
    unfold dispatch in Ed. rewrite get_world_bind in Ed.
    rewrite G2, Hps, Hbat, Hvbs, Hpy in Ed.
    change (str_eqb "windows" "windows") with true in Ed. cbv iota in Ed.
    munfold. destruct (embedded_python _ w2) as [[[]|?] ?]; by simplify_eq. }
  destruct H as [H1 H2]. split_and!; [done..|].
  intros u x. rewrite projectRows_set_FromCache.
  by apply projectRows_no_output.
Qed.

(** X7.  On darwin and linux, when every value of the [args] constraints
    is a non-empty word of ASCII bytes other than space, tab and the
    quotes, and their join is not JSON for an array of strings, every child
    that [executeScript] spawns is given the temporary file followed by
    exactly these values, in order. *)
Theorem executeScript_unix_plain_args script argsList t w r w' :
  goos w = "darwin" ∨ goos w = "linux" →
  Forall plain_word argsList →
  json_Unmarshal_strings (strings_Join argsList " ") = None →
  executeScript L script argsList t w = (r, w') →
  spawn_args (λ args, ∃ tmp, args = tmp :: argsList) w w'.
Proof.
  intros Hg Hws Hjson Hrun.
  pose proof (executeScript_unix_args L script argsList t w r w' Hg Hrun) as H.
  unfold parseArguments in H. rewrite Hjson, tokenize_Join in H by done.
  exact H.
Qed.

(** Without an interpreter for the kind on the host, the result has no
    console output, whichever system calls fail. *)
Lemma executeScript_unsupported_output script argsList t w r err w' :
  supported (goos w) (Name script) = false →
  executeScript L script argsList t w = (Ret (r, err), w') →
  ConsoleOut r = "".
Proof.
  intros Hs Hrun.
  destruct (executeScript_run _ _ _ _ _ _ Hrun)
    as [(tmp & e & E0 & [= -> ->])
       |(tmp & w0 & w4 & rr & E0 & Erm &
         [(e & E1 & [= -> ->])
         |(w1 & E1 & [(e & Hwin & E2 & [= -> ->])|(w2 & E2 & Ed)])])];
    [done..|].
  assert (goos w2 = goos w) as G2.
  { pose proof (same_env_goos _ _ (SameEnv_os_CreateTemp _ _ _ _ _ E0)).
    pose proof (same_env_goos _ _ (SameEnv_os_WriteFile _ _ _ _ _ E1)).
    destruct (decide (goos w1 = "windows")); [subst; congruence|].
    pose proof (same_env_goos _ _ (SameEnv_os_Chmod _ _ _ _ E2)).
    congruence. }
  rewrite <- G2 in Hs.
  edestruct (dispatch_unsupported L script) as [msg Hd]; [exact Hs|].
  rewrite Hd in Ed. by simplify_eq.
Qed.

Lemma supported_no_name g : supported g "" = false.
Proof. unfold supported. by repeat case_match. Qed.

End ExecutorRuns.


Lemma executeScript_deadline_witness :
  emits (spawned_with (λ _ timeout, timeout = Some 2%Z)) hello_world hello_ran
  ∧ emits (spawned_with (λ program timeout,
                           program = "powershell.exe" ∧ timeout = None))
      windows_world ps_ran.
Proof.
  split.
  - apply (executeScript_deadline demoLib hello_script [] 2 hello_world
             (Ret hello_run) hello_ran); [reflexivity|discriminate].
  - apply (executeScript_deadline demoLib ps_script [] 2 windows_world
             (Ret ps_run) ps_ran); reflexivity.
Defined.

Lemma executeScript_windows_python_witness :
  executeScript demoLib py_script [] 2 windows_world
  = (Ret (running py_script "", None), py_ran)
  ∧ ∀ useCache fromCache,
      projectRows useCache (set_FromCache fromCache (running py_script "")) = [].
Proof.
  split; [reflexivity|].
  apply (executeScript_windows_python demoLib py_script [] 2 windows_world
           (running py_script "") None py_ran); reflexivity.
Defined.

Lemma executeScript_unix_plain_args_witness :
  spawn_args (λ args, ∃ tmp, args = tmp :: ["-n"; "5"])
    hello_world hello_args_ran.
Proof.
  apply (executeScript_unix_plain_args demoLib hello_script ["-n"; "5"] 2
           hello_world (Ret hello_args_run) hello_args_ran).
  - right. reflexivity.
  - repeat constructor; discriminate.
  - reflexivity.
  - reflexivity.
Defined.

(** ** The resolver, run by run *)

Lemma http_Get_inv url w resp w' :
  http_Get url w = (Ret (Some resp, None), w') →
  server w !! url = Some resp ∧ trace w' = trace w ++ [EvHttpGet url]
  ∧ files w' = files w.
Proof.
  unfold http_Get, emit, fault. munfold. cbn.
  destruct (faults w) as [|[] ?]; cbn; try done;
    destruct (server w !! url); by intros [= <- <-].
Qed.

Lemma http_Get_trace url w r w' :
  http_Get url w = (r, w') → trace w' = trace w ++ [EvHttpGet url].
Proof.
  unfold http_Get, emit, fault. munfold. cbn.
  destruct (faults w) as [|[] ?]; cbn; try destruct (server w !! url);
    by intros [= <- <-].
Qed.

Section ResolverRuns.

Context (L : GoLib).

Lemma SameEnv_loadScriptFromCache k d :
  Preserves same_env (loadScriptFromCache L k d).
Proof. unfold loadScriptFromCache. preserves. Qed.

Lemma SameEnv_loadSignatureFromCache k d :
  Preserves same_env (loadSignatureFromCache L k d).
Proof. unfold loadSignatureFromCache. preserves. Qed.

Lemma SameEnv_getScriptHashFromServer u n :
  Preserves same_env (getScriptHashFromServer L u n).
Proof. unfold getScriptHashFromServer. preserves. Qed.

Lemma SameEnv_removeScriptFromCache k d :
  Preserves same_env (removeScriptFromCache L k d).
Proof. unfold removeScriptFromCache. preserves. Qed.

Lemma SameEnv_checkCached u pk win k d data meta :
  Preserves same_env (checkCached L u pk win k d data meta).
Proof.
  pose proof SameEnv_getScriptHashFromServer.
  pose proof SameEnv_loadSignatureFromCache.
  unfold checkCached. preserves.
Qed.

Lemma SameEnv_tryCache u pk win k d : Preserves same_env (tryCache L u pk win k d).
Proof.
  pose proof SameEnv_loadScriptFromCache. pose proof SameEnv_checkCached.
  pose proof SameEnv_removeScriptFromCache.
  unfold tryCache. preserves.
Qed.

Lemma SameEnv_cacheBlock n u : Preserves same_env (cacheBlock L n u).
Proof. pose proof SameEnv_tryCache. unfold cacheBlock. preserves. Qed.

Lemma SameEnv_remove_if_present p : Preserves same_env (remove_if_present p).
Proof. unfold remove_if_present. preserves. Qed.

Lemma SameEnv_saveScriptToCache k s sig d :
  Preserves same_env (saveScriptToCache L k s sig d).
Proof.
  pose proof SameEnv_remove_if_present.
  unfold saveScriptToCache. preserves.
Qed.

Lemma SameEnv_fetchScript url k d pk n :
  Preserves same_env (fetchScript L url k d pk n).
Proof.
  pose proof SameEnv_saveScriptToCache.
  unfold fetchScript. preserves.
Qed.

Lemma SameEnv_getScript n u : Preserves same_env (getScript L n u).
Proof.
  pose proof SameEnv_cacheBlock. pose proof SameEnv_fetchScript.
  unfold getScript. preserves.
Qed.

(** What a successful fetch went through. *)
Lemma fetchScript_inv url key dir pk name w s w' :
  fetchScript L url key dir pk name w = (Ret (s, None), w') →
  ∃ resp signature block rsaPub w1,
    http_Get url w = (Ret (Some resp, None), w1) ∧
    StatusCode resp = 200%Z ∧ BodyErr resp = None ∧
    hex_DecodeString (Header_X_Signature resp) = Some signature ∧
    pem_Decode L pk = Some block ∧
    x509_ParsePKIXPublicKey L block = PkixRSA rsaPub ∧
    rsa_VerifyPKCS1v15 L rsaPub (sha256_Sum L (Body resp)) signature = None ∧
    s = mkScript name "" (Body resp)
          (hex_EncodeToString (sha256_Sum L (Body resp))) false ∧
    saveScriptToCache L key s signature dir w1 = (Ret None, w').
Proof.
  unfold fetchScript, io_ReadAll. munfold. intros H.
  destruct (http_Get url w) as [[[[resp|] [e|]]|?] w1] eqn:E1; try done.
  destruct (negb (StatusCode resp =? 200)%Z) eqn:Est; [done|].
  apply negb_false_iff, Z.eqb_eq in Est.
  destruct (BodyErr resp) eqn:Eb; [done|].
  destruct (str_eqb (Header_X_Signature resp) ""); [done|].
  destruct (hex_DecodeString _) as [signature|] eqn:Eh; [|done].
  destruct (pem_Decode L pk) as [block|] eqn:Ep; [|done].
  destruct (x509_ParsePKIXPublicKey L block) as [?|rsaPub|] eqn:Ex;
    [done| |done].
  destruct (rsa_VerifyPKCS1v15 _ _ _ _) eqn:Ev; [done|].
  destruct (saveScriptToCache _ _ _ _ _ w1) as [[[?|]|?] w2] eqn:Es;
    try done.
  simplify_eq. by exists resp, signature, block, rsaPub, w1.
Qed.

(** What a cache hit went through. *)
Lemma checkCached_inv url pk win key dir data meta w s w' :
  checkCached L url pk win key dir data meta w = (Ret (Some s), w') →
  ∃ signature block rsaPub h w1 w2 w3,
    (time_Sub (clock w) (meta_CacheTime meta) < win)%Z ∧
    getScriptHashFromServer L url (meta_ScriptName meta) w
      = (Ret (h, None), w1) ∧
    h = meta_ScriptHash meta ∧
    os_Stat (getSignatureFilePath L key dir) w1 = (Ret StatOk, w2) ∧
    loadSignatureFromCache L key dir w2 = (Ret (signature, None), w3) ∧
    w' = w3 ∧
    pem_Decode L pk = Some block ∧
    x509_ParsePKIXPublicKey L block = PkixRSA rsaPub ∧
    rsa_VerifyPKCS1v15 L rsaPub (sha256_Sum L data) signature = None ∧
    s = mkScript (meta_ScriptName meta) "" data
          (hex_EncodeToString (sha256_Sum L data)) true.
Proof.
  unfold checkCached, time_Now. munfold. intros H.
  destruct (_ <? win)%Z eqn:Ew; [|done]. apply Z.ltb_lt in Ew.
  destruct (getScriptHashFromServer _ _ _ w) as [[[h [e|]]|?] w1] eqn:E1;
    try done.
  destruct (str_eqb h (meta_ScriptHash meta)) eqn:Eh; [|done].
  apply bool_decide_eq_true in Eh.
  destruct (os_Stat _ w1) as [[[]|?] w2] eqn:E2; try done.
  destruct (loadSignatureFromCache _ _ _ w2) as [[[signature [e|]]|?] w3] eqn:E3;
    try done.
  destruct (pem_Decode L pk) as [block|] eqn:Ep; [|done].
  destruct (x509_ParsePKIXPublicKey L block) as [?|rsaPub|] eqn:Ex;
    [done| |done].
  destruct (rsa_VerifyPKCS1v15 _ _ _ _) eqn:Ev; [done|].
  simplify_eq. by exists signature, block, rsaPub, (meta_ScriptHash meta), w1, w2, w'.
Qed.

(** The two ways in which [getScript] returns a script. *)
Lemma getScript_inv name useCache w s w' :
  getScript L name useCache w = (Ret (s, None), w') →
  let cfg := scoutConfig w in
  let url := getScriptURL L (goos w) (ServerURL cfg) name in
  let key := getCacheKey L url in
  (useCache = true ∧
   ∃ data meta w1,
     loadScriptFromCache L key (CacheDir cfg) w = (Ret (data, meta, None), w1) ∧
     checkCached L (ServerURL cfg) (PublicKey cfg) (CacheWindow cfg) key
       (CacheDir cfg) data meta w1 = (Ret (Some s), w'))
  ∨ ∃ name' w1,
      cacheBlock L name useCache w = (Ret (None, name'), w1) ∧
      (useCache = false → name' = name) ∧
      fetchScript L url key (CacheDir cfg) (PublicKey cfg) name' w1
        = (Ret (s, None), w').
Proof.
  intros H cfg url key. unfold getScript in H. rewrite get_world_bind in H.
  fold cfg in H. fold url in H. fold key in H. munfold.
  destruct (cacheBlock L name useCache w) as [[[[hit|] name']|?] w1] eqn:Ec;
    [| |done].
  - left. injection H as <- <-. unfold cacheBlock in Ec.
    rewrite get_world_bind in Ec. fold cfg in Ec. fold url in Ec. fold key in Ec.
    destruct useCache; [|done]. split; [done|].
    unfold tryCache in Ec. munfold.
    destruct (loadScriptFromCache _ _ _ w) as [[[[data meta] [e|]]|?] w0] eqn:El;
      try done.
    + cbn in Ec.
      destruct (removeScriptFromCache _ _ _ w0) as [[[]|?] ?]; done.
    + destruct (checkCached _ _ _ _ _ _ _ _ w0) as [[[c|]|?] w2] eqn:Ek.
      * injection Ec as <- <- <-. by exists data, meta, w0.
      * destruct (removeScriptFromCache _ _ _ w2) as [[[]|?] ?]; done.
      * done.
  - right. exists name', w1. split; [done|]. split; [|done].
    intros ->. unfold cacheBlock in Ec. rewrite get_world_bind in Ec.
    by injection Ec.
Qed.

(** X8.  [getScript] never returns a script it has not verified.  For
    every script returned without error, from the cache or from the server,
    the configured public key decodes to an RSA key and
    [rsa.VerifyPKCS1v15] accepted a signature for the SHA-256 digest of
    exactly the contents that are returned.  For a script that is not
    marked as cached, these contents are the body of the response with
    status 200 that the server gave for the script URL, and the signature
    is the hex-decoded [X-Signature] header of that response. *)
Theorem getScript_verified name useCache w s w' :
  getScript L name useCache w = (Ret (s, None), w') →
  ∃ block rsaPub signature,
    pem_Decode L (PublicKey (scoutConfig w)) = Some block ∧
    x509_ParsePKIXPublicKey L block = PkixRSA rsaPub ∧
    rsa_VerifyPKCS1v15 L rsaPub (sha256_Sum L (Contents s)) signature = None ∧
    (Cached s = false →
     ∃ resp,
       server w !! getScriptURL L (goos w) (ServerURL (scoutConfig w)) name
         = Some resp ∧
       StatusCode resp = 200%Z ∧ Contents s = Body resp ∧
       hex_DecodeString (Header_X_Signature resp) = Some signature).
Proof.
  intros H. destruct (getScript_inv _ _ _ _ _ H)
    as [(_ & data & meta & w1 & _ & Hc)|(name' & w1 & Hb & _ & Hf)].
  - apply checkCached_inv in Hc
      as (signature & block & rsaPub & h & w2 & w3 & w4 & _ & _ & _ & _ & _
          & _ & Hp & Hx & Hv & ->).
    exists block, rsaPub, signature. split_and!; try done.
  - pose proof (SameEnv_cacheBlock _ _ _ _ _ Hb) as Hs.
    apply fetchScript_inv in Hf
      as (resp & signature & block & rsaPub & w2 & Hg & Hst & _ & Hh & Hp
          & Hx & Hv & -> & _).
    apply http_Get_inv in Hg as (Hsrv & _ & _).
    exists block, rsaPub, signature. split_and!; try done.
    intros _. exists resp. split_and!; try done.
    unfold same_env in Hs. destruct Hs as (_ & _ & _ & <- & _). done.
Qed.

(** X9.  A script that [getScript] fetched is in the cache when the call
    returns: the payload file of the key holds exactly the contents that
    are returned, the signature file holds the signature that was verified
    (the decoded [X-Signature] header of the response), and the metadata
    file holds the JSON record of the hash and the name of the returned
    script, stamped with the time of the call.  The path of the signature
    file is the one [filepath.Join] gives. *)
Theorem getScript_fetch_saves name useCache w s w' :
  let cfg := scoutConfig w in
  let url := getScriptURL L (goos w) (ServerURL cfg) name in
  let key := getCacheKey L url in
  let p := getCacheFilePath L key (CacheDir cfg) in
  getSignatureFilePath L key (CacheDir cfg) = p +:+ ".sig" →
  getScript L name useCache w = (Ret (s, None), w') →
  Cached s = false →
  files w' !! p = Some (Contents s)
  ∧ (∃ resp signature,
       server w !! url = Some resp ∧
       hex_DecodeString (Header_X_Signature resp) = Some signature ∧
       files w' !! (p +:+ ".sig") = Some signature)
  ∧ ∃ text,
      json_Marshal_CacheMeta L (mkCacheMeta (Hash s) (Name s) (clock w))
        = Some text ∧
      files w' !! (p +:+ ".meta") = Some text.
Proof.
  intros cfg url key p Hsig H Hc.
  destruct (getScript_inv _ _ _ _ _ H)
    as [(_ & data & meta & w1 & _ & Hk)|(name' & w1 & Hb & _ & Hf)].
  - apply checkCached_inv in Hk
      as (? & ? & ? & ? & ? & ? & ? & _ & _ & _ & _ & _ & _ & _ & _ & _ & ->).
    done.
  - pose proof (SameEnv_cacheBlock _ _ _ _ _ Hb) as Hs.
    apply fetchScript_inv in Hf
      as (resp & signature & block & rsaPub & w2 & Hg & Hst & _ & Hh & Hp
          & Hx & Hv & Hscript & Hsave).
    pose proof (SameEnv_http_Get _ _ _ _ Hg) as Hs2.
    apply http_Get_inv in Hg as (Hsrv & _ & _).
    fold cfg url key in Hsave.
    destruct (saveScriptToCache_files L key s signature (CacheDir cfg) w2 w'
                Hsig Hsave) as (text & Hm & Fp & Fm & Fs & _).
    fold p in Fp, Fm, Fs.
    assert (clock w2 = clock w) as Hclock.
    { unfold same_env in Hs, Hs2. destruct Hs as (_ & _ & <- & _).
      by destruct Hs2 as (_ & _ & <- & _). }
    assert (server w1 = server w) as Hserver.
    { unfold same_env in Hs. by destruct Hs as (_ & _ & _ & <- & _). }
    split_and!; [done| |].
    + exists resp, signature. by rewrite <- Hserver.
    + exists text. by rewrite <- Hclock.
Qed.

(** The resolver spawns nothing. *)
Lemma NoSpawn_getScript name useCache :
  Preserves (emits (λ e, is_spawn e = false)) (getScript L name useCache).
Proof.
  unfold getScript, cacheBlock, tryCache, checkCached, fetchScript,
    saveScriptToCache, remove_if_present, removeScriptFromCache,
    getScriptHashFromServer, loadSignatureFromCache, loadScriptFromCache.
  preserves.
Qed.

(** A payload file that is missing makes the load fail. *)
Lemma loadScriptFromCache_missing key dir w data meta w1 :
  files w !! getCacheFilePath L key dir = None →
  loadScriptFromCache L key dir w ≠ (Ret (data, meta, None), w1).
Proof.
  intros Hp H. apply loadScriptFromCache_reads in H as (? & H & _).
  cbn zeta in H. congruence.
Qed.

(** With [useCache] and an entry that does not load, the fetch path sees
    the empty script name. *)
Lemma cacheBlock_cold name w name' w1 :
  (∀ data meta w0,
     loadScriptFromCache L
       (getCacheKey L
          (getScriptURL L (goos w) (ServerURL (scoutConfig w)) name))
       (CacheDir (scoutConfig w)) w ≠ (Ret (data, meta, None), w0)) →
  cacheBlock L name true w = (Ret (None, name'), w1) → name' = "".
Proof.
  intros Hload. unfold cacheBlock. rewrite get_world_bind.
  unfold tryCache. munfold.
  destruct (loadScriptFromCache _ _ _ w) as [[[[data meta] [e|]]|?] w0] eqn:El;
    [|by destruct (Hload data meta w0)|done].
  assert (meta = CacheMeta_zero time_zero) as ->.
  { unfold loadScriptFromCache in El. munfold. by run_cases. }
  cbn. destruct (removeScriptFromCache _ _ _ w0) as [[[]|?] ?]; by intros [= <- <-].
Qed.

(** Reads leave the trace as it is. *)
Lemma emits_nothing w w' : emits (λ _, False) w w' → trace w' = trace w.
Proof.
  intros (evs & -> & H). destruct evs as [|e evs]; [by rewrite app_nil_r|].
  by apply Forall_cons in H as [[] _].
Qed.

Lemma Silent_loadScriptFromCache k d :
  Preserves (emits (λ _, False)) (loadScriptFromCache L k d).
Proof. unfold loadScriptFromCache. preserves. Qed.

Lemma Silent_loadSignatureFromCache k d :
  Preserves (emits (λ _, False)) (loadSignatureFromCache L k d).
Proof. unfold loadSignatureFromCache. preserves. Qed.

Lemma KeepsFiles_loadScriptFromCache k d :
  Preserves keeps_files (loadScriptFromCache L k d).
Proof. unfold loadScriptFromCache. preserves. Qed.

Lemma KeepsFiles_loadSignatureFromCache k d :
  Preserves keeps_files (loadSignatureFromCache L k d).
Proof. unfold loadSignatureFromCache. preserves. Qed.

Lemma KeepsFiles_getScriptHashFromServer u n :
  Preserves keeps_files (getScriptHashFromServer L u n).
Proof. unfold getScriptHashFromServer. preserves. Qed.

Lemma getScriptHashFromServer_trace u n w r w' :
  getScriptHashFromServer L u n w = (r, w') →
  trace w' = trace w
    ++ [EvHttpGet (strings_TrimRight u "/" +:+ "/hash/" +:+ url_PathEscape L n)].
Proof.
  unfold getScriptHashFromServer. munfold. intros H.
  destruct (http_Get _ w) as [r1 w1] eqn:E1.
  apply http_Get_trace in E1. rewrite <- E1.
  destruct r1 as [[[resp|] [e|]]|]; try by simplify_eq.
  destruct (negb _); [by simplify_eq|].
  destruct (io_ReadAll resp) as [body [e|]]; [by simplify_eq|].
  destruct (json_Unmarshal_hash_reply body); by simplify_eq.
Qed.

(** X10.  What a cache hit costs and requires.  When [getScript] returns a
    script marked as cached, the cache was asked for ([useCache]), no file
    was changed, and exactly one request went out, to the hash endpoint of
    the server under the script name recorded in the metadata (which is
    the name of the returned script); the entry was younger than the cache
    window, the payload file holds the returned contents, and the hash the
    server answered is the one recorded in the metadata. *)
Theorem getScript_cache_hit name useCache w s w' :
  let cfg := scoutConfig w in
  let key :=
    getCacheKey L (getScriptURL L (goos w) (ServerURL cfg) name) in
  let p := getCacheFilePath L key (CacheDir cfg) in
  getScript L name useCache w = (Ret (s, None), w') →
  Cached s = true →
  useCache = true
  ∧ files w' = files w
  ∧ trace w' = trace w
      ++ [EvHttpGet (strings_TrimRight (ServerURL cfg) "/" +:+ "/hash/"
                       +:+ url_PathEscape L (Name s))]
  ∧ files w !! p = Some (Contents s)
  ∧ ∃ text meta,
      files w !! (p +:+ ".meta") = Some text ∧
      json_Unmarshal_CacheMeta L text = Some meta ∧
      meta_ScriptName meta = Name s ∧
      (time_Sub (clock w) (meta_CacheTime meta) < CacheWindow cfg)%Z ∧
      ∃ resp,
        server w !! (strings_TrimRight (ServerURL cfg) "/" +:+ "/hash/"
                       +:+ url_PathEscape L (Name s)) = Some resp ∧
        json_Unmarshal_hash_reply (Body resp) = Some (meta_ScriptHash meta).
Proof.
  intros cfg key p H Hc.
  destruct (getScript_inv _ _ _ _ _ H)
    as [(Hu & data & meta & w1 & Hl & Hk)|(name' & w1 & _ & _ & Hf)].
  2:{ by apply fetchScript_inv in Hf
        as (? & ? & ? & ? & ? & _ & _ & _ & _ & _ & _ & _ & -> & _). }
  fold cfg key in Hl, Hk.
  pose proof (emits_nothing _ _ (Silent_loadScriptFromCache _ _ _ _ _ Hl)) as T1.
  pose proof (KeepsFiles_loadScriptFromCache _ _ _ _ _ Hl) as F1.
  pose proof (SameEnv_loadScriptFromCache _ _ _ _ _ Hl) as S1.
  apply loadScriptFromCache_reads in Hl as (text & Rp & Rm & Ru).
  apply checkCached_inv in Hk
    as (signature & block & rsaPub & h & w2 & w3 & w4 & Hwin & Hh & -> & Hst
        & Hsig & -> & _ & _ & _ & ->).
  pose proof (getScriptHashFromServer_trace _ _ _ _ _ Hh) as T2.
  pose proof (KeepsFiles_getScriptHashFromServer _ _ _ _ _ Hh) as F2.
  pose proof (emits_nothing _ _ (Emits_os_Stat _ _ _ _ _ Hst)) as T3.
  pose proof (KeepsFiles_os_Stat _ _ _ _ Hst) as F3.
  pose proof (emits_nothing _ _ (Silent_loadSignatureFromCache _ _ _ _ _ Hsig))
    as T4.
  pose proof (KeepsFiles_loadSignatureFromCache _ _ _ _ _ Hsig) as F4.
  unfold keeps_files in *. cbn [Name Contents].
  assert (clock w1 = clock w ∧ server w1 = server w) as [Hclock Hserver].
  { unfold same_env in S1. tauto. }
  split_and!.
  - done.
  - congruence.
  - rewrite T4, T3, T2, T1. done.
  - done.
  - exists text, meta. split_and!; [done..|by rewrite <- Hclock|].
    unfold getScriptHashFromServer in Hh. munfold.
    destruct (http_Get _ w1) as [[[[resp|] [e|]]|?] w5] eqn:Eg;
      try by simplify_eq.
    apply http_Get_inv in Eg as (Hsrv & _ & _).
    destruct (negb _); [by simplify_eq|].
    unfold io_ReadAll in Hh. destruct (BodyErr resp); [by simplify_eq|].
    destruct (json_Unmarshal_hash_reply (Body resp)) eqn:Ej; [|by simplify_eq].
    exists resp. rewrite <- Hserver. split; [done|]. by simplify_eq.
Qed.

(** X11.  After [removeScriptFromCache], when no system call fails, the
    three files of the key are gone, every other file is as it was, and a
    load of the key answers "cache file does not exist" (the payload path
    not being a directory). *)
Theorem removeScriptFromCache_then_load key dir w w1 :
  let p := getCacheFilePath L key dir in
  faults w = [] → p ∉ dirs w →
  removeScriptFromCache L key dir w = (Ret tt, w1) →
  files w1 !! p = None
  ∧ files w1 !! (p +:+ ".meta") = None
  ∧ files w1 !! getSignatureFilePath L key dir = None
  ∧ (∀ q, q ≠ p → q ≠ p +:+ ".meta" → q ≠ getSignatureFilePath L key dir →
          files w1 !! q = files w !! q)
  ∧ loadScriptFromCache L key dir w1
    = (Ret ("", CacheMeta_zero time_zero, Some "cache file does not exist"),
       w1).
Proof.
  intros p Hf Hd Hrm.
  pose proof (SameEnv_removeScriptFromCache _ _ _ _ _ Hrm) as Hs.
  pose proof (same_env_faults _ _ Hs Hf) as Hf1.
  destruct (removeScriptFromCache_spec L _ _ _ _ Hrm) as [_ Hgone].
  destruct (Hgone Hf) as (G1 & G2 & G3). fold p in G1, G2.
  assert (dirs w1 = dirs w ∧
          ∀ q, q ≠ p → q ≠ p +:+ ".meta" →
               q ≠ getSignatureFilePath L key dir →
               files w1 !! q = files w !! q) as [Hdirs Hframe].
  { unfold removeScriptFromCache in Hrm. munfold. fold p in Hrm.
    destruct (os_Remove p w) as [[r1|?] wa] eqn:E1; [|done].
    destruct (os_Remove _ wa) as [[r2|?] wb] eqn:E2; [|done].
    destruct (os_Remove _ wb) as [[r3|?] wc] eqn:E3; [|done].
    simplify_eq.
    assert (∀ q a r b, os_Remove q a = (r, b) → dirs b = dirs a) as Hdir.
    { intros q a r b. unfold os_Remove, emit, fault. munfold. cbn.
      destruct (faults a) as [|[] ?]; cbn; try destruct (files a !! q);
        by intros [= <- <-]. }
    split.
    - rewrite (Hdir _ _ _ _ E3), (Hdir _ _ _ _ E2), (Hdir _ _ _ _ E1). done.
    - intros q Q1 Q2 Q3.
      apply os_Remove_frame in E1 as [A1 _].
      apply os_Remove_frame in E2 as [A2 _].
      apply os_Remove_frame in E3 as [A3 _].
      rewrite A3, A2, A1; done. }
  split_and!; [done..|].
  unfold loadScriptFromCache, os_Stat, fault. munfold. fold p.
  rewrite Hf1. cbn. rewrite G1, Hdirs.
  rewrite bool_decide_eq_false_2 by (by intros [? ?]).
  rewrite bool_decide_eq_false_2 by done. done.
Qed.

End ResolverRuns.

Lemma getScript_verified_witness :
  ∃ block rsaPub signature,
    pem_Decode demoLib (PublicKey demo_config) = Some block ∧
    x509_ParsePKIXPublicKey demoLib block = PkixRSA rsaPub ∧
    rsa_VerifyPKCS1v15 demoLib rsaPub (sha256_Sum demoLib "echo hi") signature
      = None ∧
    (false = false →
     ∃ resp,
       hello_server !! "http://h/s/linux/hello.sh" = Some resp ∧
       StatusCode resp = 200%Z ∧ "echo hi" = Body resp ∧
       hex_DecodeString (Header_X_Signature resp) = Some signature).
Proof.
  apply (getScript_verified demoLib "hello.sh" false hello_world hello_script
           warm_world).
  reflexivity.
Defined.

Lemma getScript_fetch_saves_witness :
  files warm_world !! ("/c/" +:+ hello_key +:+ ".script") = Some "echo hi"
  ∧ files warm_world !! ("/c/" +:+ hello_key +:+ ".script.sig")
    = hex_DecodeString (demo_signature "echo hi").
Proof.
  destruct (getScript_fetch_saves demoLib "hello.sh" false hello_world
              hello_script warm_world) as (H1 & (resp & σ & Hr & Hs & H2) & _).
  - reflexivity.
  - reflexivity.
  - reflexivity.
  - split; [exact H1|].
    injection Hr as <-. rewrite <- Hs in H2. exact H2.
Defined.

Lemma getScript_cache_hit_witness :
  files rewarmed_world = files warm_world
  ∧ trace rewarmed_world
    = trace warm_world ++ [EvHttpGet "http://h/s/hash/hello.sh"].
Proof.
  destruct (getScript_cache_hit demoLib "hello.sh" true warm_world
              hello_cached rewarmed_world) as (_ & H1 & H2 & _).
  - reflexivity.
  - reflexivity.
  - split; [exact H1|exact H2].
Defined.

Lemma removeScriptFromCache_then_load_witness :
  files emptied_world = ∅
  ∧ loadScriptFromCache demoLib hello_key "/c" emptied_world
    = (Ret ("", CacheMeta_zero time_zero, Some "cache file does not exist"),
       emptied_world).
Proof.
  split; [reflexivity|].
  apply (removeScriptFromCache_then_load demoLib hello_key "/c" warm_world
           emptied_world).
  - reflexivity.
  - apply (bool_decide_unpack _). vm_compute. exact I.
  - reflexivity.
Defined.

(** ** The table [scout_exec], call by call *)

Lemma processContextConstraints_none (q : QueryContext) column :
  Forall (λ c, Op c ≠ OperatorEquals) (default [] (q !! column)) →
  processContextConstraints q column = [].
Proof.
  unfold processContextConstraints. destruct (q !! column) as [cs|]; [|done].
  cbn. induction 1 as [|c cs Hc _ IH]; [done|].
  cbn. destruct (Op c); by try done.
Qed.

Lemma processContextConstraints_two (q : QueryContext) column pre c1 mid c2 post :
  q !! column = Some (pre ++ c1 :: mid ++ c2 :: post) →
  Op c1 = OperatorEquals → Op c2 = OperatorEquals →
  ∃ a b rest, processContextConstraints q column = a :: b :: rest.
Proof.
  intros Hq H1 H2. unfold processContextConstraints. rewrite Hq.
  rewrite omap_app. cbn. rewrite H1. rewrite omap_app. cbn. rewrite H2.
  destruct (omap _ pre) as [|a [|b rest]]; cbn.
  - destruct (omap _ mid) as [|b rest]; cbn; eauto.
  - destruct (omap _ mid) as [|b rest]; cbn; eauto.
  - eauto.
Qed.

Section GeneratorRuns.

Context (L : GoLib).

(** X12.  The table [scout_exec] needs exactly one equality constraint on
    [script_name].  A query without one (no constraint on the column, or
    only constraints with other operators, such as LIKE) fails with "no
    script specified in the query", a query with two or more fails with
    "only one script can be executed at a time"; in both cases nothing is
    fetched, written or run: the world is left as it was. *)
Theorem generate_script_name_constraint (q : QueryContext) (w : World) :
  (Forall (λ c, Op c ≠ OperatorEquals) (default [] (q !! "script_name")) →
   ScoutQuickExecGenerate L q w
   = (Ret ([], Some "no script specified in the query"), w))
  ∧ (∀ pre c1 mid c2 post,
       q !! "script_name" = Some (pre ++ c1 :: mid ++ c2 :: post) →
       Op c1 = OperatorEquals → Op c2 = OperatorEquals →
       ScoutQuickExecGenerate L q w
       = (Ret ([], Some "only one script can be executed at a time"), w)).
Proof.
  split.
  - intros H. unfold ScoutQuickExecGenerate.
    by rewrite processContextConstraints_none.
  - intros pre c1 mid c2 post Hq H1 H2. unfold ScoutQuickExecGenerate.
    by destruct (processContextConstraints_two q _ _ _ _ _ _ Hq H1 H2)
      as (a & b & rest & ->).
Qed.

(** X13.  With [from_cache] true and no payload file for the script in the
    cache, a call that succeeds returns no row and runs nothing.  The
    resolver takes the script name from the metadata it failed to load, so
    the script is fetched, verified and saved under the empty name, and
    the executor finds no interpreter for it. *)
Theorem generate_cold_cache (q : QueryContext) (name : string)
    (w w' : World) (rows : list Row) :
  let cfg := scoutConfig w in
  let key := getCacheKey L (getScriptURL L (goos w) (ServerURL cfg) name) in
  processContextConstraints q "script_name" = [name] →
  processBoolConstraint
    (default "false" (head (processContextConstraints q "from_cache"))) = true →
  files w !! getCacheFilePath L key (CacheDir cfg) = None →
  ScoutQuickExecGenerate L q w = (Ret (rows, None), w') →
  rows = [] ∧ emits (λ e, is_spawn e = false) w w'.
Proof.
  intros cfg key Hname Hcache Hfile Hrun.
  unfold ScoutQuickExecGenerate in Hrun. rewrite Hname, Hcache in Hrun.
  munfold.
  destruct (getScript L name true w) as [[[script [e|]]|?] w0] eqn:Eg;
    try done.
  destruct (executeScript L script _ _ w0) as [[[r [e|]]|?] w1] eqn:Ee;
    try done.
  injection Hrun as <- <-.
  assert (Name script = "") as Hn.
  { destruct (getScript_inv L _ _ _ _ _ Eg)
      as [(_ & data & meta & w2 & Hl & _)|(name' & w2 & Hb & _ & Hf)].
    - by apply loadScriptFromCache_missing in Hl.
    - apply cacheBlock_cold in Hb as ->.
      + by apply fetchScript_inv in Hf
          as (? & ? & ? & ? & ? & _ & _ & _ & _ & _ & _ & _ & -> & _).
      + intros data meta w3. by apply loadScriptFromCache_missing. }
  assert (supported (goos w0) (Name script) = false) as Hs
    by (rewrite Hn; apply supported_no_name).
  split.
  - rewrite projectRows_set_FromCache. apply projectRows_no_output.
    by eapply executeScript_unsupported_output.
  - etrans; [by eapply NoSpawn_getScript|].
    destruct (no_spawn_events _ _
                (executeScript_unsupported_no_spawn L _ _ _ _ _ _ Hs Ee))
      as (evs & Ht & He).
    by exists evs.
Qed.



End GeneratorRuns.

Lemma generate_script_name_constraint_witness :
  ScoutQuickExecGenerate demoLib like_query hello_world
  = (Ret ([], Some "no script specified in the query"), hello_world)
  ∧ ScoutQuickExecGenerate demoLib two_scripts_query hello_world
    = (Ret ([], Some "only one script can be executed at a time"), hello_world).
Proof.
  destruct (generate_script_name_constraint demoLib like_query hello_world)
    as [H1 _].
  destruct (generate_script_name_constraint demoLib two_scripts_query
              hello_world) as [_ H2].
  split.
  - apply H1. repeat constructor. discriminate.
  - apply (H2 [] (mkConstraint OperatorEquals "a.sh") []
              (mkConstraint OperatorEquals "b.sh") []); reflexivity.
Defined.

Lemma generate_cold_cache_witness :
  ScoutQuickExecGenerate demoLib spoof_query hello_world
  = (Ret ([], None), cold_end)
  ∧ emits (λ e, is_spawn e = false) hello_world cold_end.
Proof.
  split; [reflexivity|].
  apply (generate_cold_cache demoLib spoof_query "hello.sh" hello_world
           cold_end []); reflexivity.
Defined.


(** ** Keys and URLs *)

Lemma hex_byte_roundtrip c :
  hex_value (hex_digit (N.shiftr (byte_val c) 4)) = Some (N.shiftr (byte_val c) 4)
  ∧ hex_value (hex_digit (N.land (byte_val c) 15)) = Some (N.land (byte_val c) 15)
  ∧ ascii_of_N (16 * N.shiftr (byte_val c) 4 + N.land (byte_val c) 15) = c
  ∧ is_lower_hex (hex_digit (N.shiftr (byte_val c) 4)) = true
  ∧ is_lower_hex (hex_digit (N.land (byte_val c) 15)) = true.
Proof. destruct c as [[] [] [] [] [] [] [] []]; vm_compute; done. Qed.

Lemma hex_EncodeToString_roundtrip s :
  hex_DecodeString (hex_EncodeToString s) = Some s.
Proof.
  induction s as [|c s IH]; [done|].
  destruct (hex_byte_roundtrip c) as (H1 & H2 & H3 & _).
  cbn [hex_EncodeToString hex_DecodeString]. by rewrite H1, H2, IH, H3.
Qed.

Lemma hex_EncodeToString_digits s :
  string_forallb is_lower_hex (hex_EncodeToString s) = true
  ∧ String.length (hex_EncodeToString s) = 2 * String.length s.
Proof.
  induction s as [|c s [IH1 IH2]]; [done|].
  destruct (hex_byte_roundtrip c) as (_ & _ & _ & H4 & H5).
  cbn [hex_EncodeToString string_forallb String.length].
  rewrite H4, H5, IH1, IH2. split; [done|lia].
Qed.

Lemma rev_app_app a : ∀ b c,
  String.rev_app (a +:+ b) c = String.rev_app b (String.rev_app a c).
Proof.
  induction a as [|x a IH]; intros b c; [done|].
  rewrite string_app_cons. cbn. by rewrite IH.
Qed.

Lemma strings_TrimRight_snoc u c :
  strings_TrimRight (u +:+ String c "") c = strings_TrimRight u c.
Proof.
  unfold strings_TrimRight, String.rev. rewrite rev_app_app. cbn.
  by rewrite bool_decide_eq_true_2.
Qed.

Section Keys.

Context (L : GoLib).

(** X15.  Whatever the script name and the server URL, the cache key is a
    string of lower-case hexadecimal digits, two for each byte of the
    digest of the script URL, and decoding it gives that digest back: the
    names of the cache files contain no byte of the script name, no path
    separator in particular. *)
Theorem getCacheKey_hex (url : string) :
  string_forallb is_lower_hex (getCacheKey L url) = true
  ∧ String.length (getCacheKey L url) = 2 * String.length (sha256_Sum L url)
  ∧ hex_DecodeString (getCacheKey L url) = Some (sha256_Sum L url).
Proof.
  unfold getCacheKey.
  destruct (hex_EncodeToString_digits (sha256_Sum L url)) as [H1 H2].
  split_and!; [done..|]. apply hex_EncodeToString_roundtrip.
Qed.

(** X16.  A slash at the end of the server URL makes no difference: the
    script URL, hence the cache key, and the request to the hash endpoint
    are those of the URL without it. *)
Theorem server_url_trailing_slash (g serverURL scriptName : string) (w : World) :
  getScriptURL L g (serverURL +:+ "/") scriptName
  = getScriptURL L g serverURL scriptName
  ∧ getCacheKey L (getScriptURL L g (serverURL +:+ "/") scriptName)
    = getCacheKey L (getScriptURL L g serverURL scriptName)
  ∧ getScriptHashFromServer L (serverURL +:+ "/") scriptName w
    = getScriptHashFromServer L serverURL scriptName w.
Proof.
  unfold getScriptURL, getScriptHashFromServer.
  rewrite strings_TrimRight_snoc. done.
Qed.

End Keys.

(** ** The row projector in plain-text mode *)

Lemma omap_filter_fmap {A B} (P : A → bool) (f : A → B) (l : list A) :
  omap (λ x, if P x then None else Some (f x)) l
  = f <$> filter (λ x, P x = false) l.
Proof.
  induction l as [|x l IH]; [done|]. rewrite filter_cons. cbn. rewrite IH.
  destruct (P x); [by rewrite decide_False|by rewrite decide_True].
Qed.

Lemma textRow_dom u r line :
  dom (textRow u r line) = column_names QuickExecColumns ∪ {["status"]}.
Proof.
  unfold textRow, column_names. rewrite !dom_insert_L, dom_empty_L. cbn.
  set_solver.
Qed.

(** X17.  Plain-text mode, which is chosen when the first line of the
    console output does not unmarshal into a [map[string]interface{}]: when
    it is not JSON for an object or for [null], or has a number out of the
    range of [float64].  The rows are,
    in order, one for each line that is not blank, with that line as
    [console_out] and "console_out" as [columns]; every row has exactly
    the columns that the table [scout_exec] declares, and one more key,
    [status], which the table does not declare. *)
Theorem projectRows_text_mode (useCache : string) (result : ExecutionResult) :
  isValidJSON (ConsoleOut result) = false →
  let lines :=
    filter (λ line, trims_to_empty line = false)
      (strings_Split (ConsoleOut result) "010") in
  projectRows useCache result = textRow useCache result <$> lines
  ∧ (λ row : Row, row !! "console_out") <$> projectRows useCache result
    = Some <$> lines
  ∧ (∀ row, row ∈ projectRows useCache result →
       dom row = column_names QuickExecColumns ∪ {["status"]}
       ∧ row !! "columns" = Some "console_out"
       ∧ row !! "status" = Some (Status result))
  ∧ "status" ∉ column_names QuickExecColumns.
Proof.
  intros Hmode lines.
  assert (Hrows : projectRows useCache result = textRow useCache result <$> lines).
  { unfold projectRows. unfold isValidJSON in Hmode.
    apply bool_decide_eq_false in Hmode.
    destruct (json_Unmarshal_any_map _) as [ms|]; [by destruct Hmode|].
    apply omap_filter_fmap. }
  split_and!.
  - done.
  - rewrite Hrows, <- list_fmap_compose. by apply list_fmap_ext.
  - intros row. rewrite Hrows. intros (line & -> & _)%list_elem_of_fmap.
    split; [apply textRow_dom|done].
  - apply (bool_decide_unpack _). by vm_compute.
Qed.

Lemma projectRows_text_mode_witness :
  let result :=
    set_ConsoleOut ("hi" +:+ String "010" "" +:+ String "010" "there")
      (running hello_script "") in
  let result' := set_ConsoleOut overflow_line (running hello_script "") in
  (λ row : Row, row !! "console_out") <$> projectRows "false" result
  = [Some "hi"; Some "there"]
  ∧ (λ row : Row, row !! "console_out") <$> projectRows "false" result'
    = [Some overflow_line].
Proof.
  intros result result'. split.
  - destruct (projectRows_text_mode "false" result) as (_ & H & _).
    + vm_compute. reflexivity.
    + rewrite H. vm_compute. reflexivity.
  - destruct (projectRows_text_mode "false" result') as (_ & H & _).
    + vm_compute. reflexivity.
    + rewrite H. vm_compute. reflexivity.
Defined.

(** ** The table [scout_cache] *)

Lemma cacheRow_dom name description hash last_updated path :
  dom (cacheRow name description hash last_updated path)
  = column_names CachedScriptsColumns.
Proof.
  unfold cacheRow, column_names. rewrite !dom_insert_L, dom_empty_L. cbn.
  set_solver.
Qed.

(** Strings: reversal, prefixes, suffixes and splitting. *)
Lemma rev_app_rev_app a : ∀ b c,
  String.rev_app (String.rev_app a b) c = String.rev_app b (a +:+ c).
Proof.
  induction a as [|x a IH]; intros b c; [done|].
  cbn. rewrite IH. done.
Qed.

Lemma string_rev_involutive s : String.rev (String.rev s) = s.
Proof.
  unfold String.rev. rewrite rev_app_rev_app. cbn.
  by rewrite string_app_nil_r.
Qed.

Lemma rev_app_append a : ∀ c, String.rev_app a c = String.rev a +:+ c.
Proof.
  unfold String.rev. induction a as [|x a IH]; intros c; [done|].
  cbn. rewrite IH, (IH (String x "")), string_app_assoc. done.
Qed.

Lemma string_rev_app a b : String.rev (a +:+ b) = String.rev b +:+ String.rev a.
Proof.
  unfold String.rev at 1. rewrite rev_app_app, rev_app_append. done.
Qed.

Lemma strings_HasPrefix_app p rest : strings_HasPrefix (p +:+ rest) p = true.
Proof.
  induction p as [|c p IH]; [by destruct rest|].
  rewrite string_app_cons. cbn. by rewrite bool_decide_eq_true_2.
Qed.

Lemma str_drop_app p rest : str_drop (String.length p) (p +:+ rest) = rest.
Proof. induction p as [|c p IH]; [done|]. by rewrite string_app_cons. Qed.

Lemma str_take_app p rest : str_take (String.length p) (p +:+ rest) = p.
Proof.
  induction p as [|c p IH]; [by destruct rest|].
  rewrite string_app_cons. cbn. by rewrite IH.
Qed.

Lemma strings_TrimSuffix_app a suffix :
  strings_HasSuffix (a +:+ suffix) suffix = true
  ∧ strings_TrimSuffix (a +:+ suffix) suffix = a.
Proof.
  assert (H : strings_HasSuffix (a +:+ suffix) suffix = true).
  { unfold strings_HasSuffix. rewrite string_rev_app.
    apply strings_HasPrefix_app. }
  split; [done|]. unfold strings_TrimSuffix. rewrite H, string_app_length.
  replace (String.length a + String.length suffix - String.length suffix)
    with (String.length a) by lia.
  apply str_take_app.
Qed.

Lemma split_go_no_sep sep s : ∀ cur,
  string_forallb (λ c, negb (bool_decide (c = sep))) s = true →
  split_go sep cur s = [String.rev (String.rev_app s cur)].
Proof.
  induction s as [|c s IH]; intros cur Hs; [done|].
  cbn in Hs. apply andb_true_iff in Hs as [Hc Hs].
  apply negb_true_iff in Hc. cbn. rewrite Hc. by apply IH.
Qed.

Lemma strings_Split_no_sep sep s :
  string_forallb (λ c, negb (bool_decide (c = sep))) s = true →
  strings_Split s sep = [s].
Proof.
  intros Hs. unfold strings_Split. rewrite split_go_no_sep by done.
  by rewrite <- (string_rev_involutive s) at 2.
Qed.

Lemma string_forallb_app f a b :
  string_forallb f (a +:+ b) = string_forallb f a && string_forallb f b.
Proof.
  induction a as [|c a IH]; [done|].
  rewrite string_app_cons. cbn. by rewrite IH, andb_assoc.
Qed.

Lemma string_forallb_impl (f g : ascii → bool) s :
  (∀ c, f c = true → g c = true) →
  string_forallb f s = true → string_forallb g s = true.
Proof.
  intros Hfg. induction s as [|c s IH]; [done|]. cbn.
  intros [Hc Hs]%andb_true_iff. by rewrite (Hfg c Hc), IH.
Qed.

Lemma is_lower_hex_not_slash c :
  is_lower_hex c = true → negb (bool_decide (c = "/"%char)) = true.
Proof.
  intros H. apply negb_true_iff, bool_decide_eq_false. by intros ->.
Qed.

(** A file [dir/name] whose name has no slash is an entry of [dir]. *)
Lemma entry_of_file dir name :
  name ≠ "" →
  string_forallb (λ c, negb (bool_decide (c = "/"%char))) name = true →
  entry_of dir (dir +:+ "/" +:+ name) = Some (name, true).
Proof.
  intros Hne Hs. unfold entry_of.
  rewrite <- string_app_assoc, strings_HasPrefix_app, str_drop_app.
  rewrite strings_Split_no_sep by done.
  by rewrite str_eqb_false.
Qed.

Lemma dir_entries_file dir name w text :
  name ≠ "" →
  string_forallb (λ c, negb (bool_decide (c = "/"%char))) name = true →
  files w !! (dir +:+ "/" +:+ name) = Some text →
  mkDirEntry name false ∈ dir_entries dir w.
Proof.
  intros Hne Hs Hfile. unfold dir_entries.
  set (of_files := omap (entry_of dir) (map_to_list (files w)).*1).
  set (of_dirs := omap (entry_of dir) (elements (dirs w))).
  assert ((name, true) ∈ of_files) as Hin.
  { apply list_elem_of_omap. exists (dir +:+ "/" +:+ name).
    split; [|by apply entry_of_file].
    apply list_elem_of_fmap. exists (dir +:+ "/" +:+ name, text).
    split; [done|]. by apply elem_of_map_to_list. }
  apply list_elem_of_fmap. exists name. split.
  - rewrite bool_decide_eq_true_2; [done|].
    apply list_elem_of_omap. by exists (name, true).
  - rewrite merge_sort_Permutation. apply elem_of_remove_dups.
    apply list_elem_of_fmap. exists (name, true). split; [done|].
    apply elem_of_app. by left.
Qed.

Section CacheTable.

Context (L : GoLib).

Lemma KeepsFiles_cacheEntryRow mtime dir file :
  Preserves keeps_files (cacheEntryRow L mtime dir file).
Proof. unfold cacheEntryRow. preserves. Qed.

Lemma Silent_cacheEntryRow mtime dir file :
  Preserves (emits (λ _, False)) (cacheEntryRow L mtime dir file).
Proof. unfold cacheEntryRow. preserves. Qed.

Lemma SameEnv_cacheEntryRow mtime dir file :
  Preserves same_env (cacheEntryRow L mtime dir file).
Proof. unfold cacheEntryRow. preserves. Qed.

Lemma Preserves_cacheRows (R : relation World) `{!PreOrder R} mtime dir files :
  (∀ file, Preserves R (cacheEntryRow L mtime dir file)) →
  Preserves R (cacheRows L mtime dir files).
Proof.
  intros H. induction files as [|file files IH]; cbn [cacheRows]; preserves.
Qed.

Lemma cacheEntryRow_inv mtime dir file w row w' :
  cacheEntryRow L mtime dir file w = (Ret (Some row), w') →
  describes_entry L mtime dir w row.
Proof.
  unfold cacheEntryRow. munfold. intros H.
  destruct (entry_IsDir file); [done|].
  destruct (strings_HasSuffix (entry_Name file) ".meta") eqn:Hsuf; [|done].
  cbn in H.
  destruct (os_Stat _ w) as [[[]|?] w1] eqn:E1; try done.
  pose proof (KeepsFiles_os_Stat _ _ _ _ E1) as F1.
  destruct (os_ReadFile _ w1) as [[[text [e|]]|?] w2] eqn:E2; try done.
  apply os_ReadFile_frame in E2 as [R2 F2].
  destruct (json_Unmarshal_CacheMeta L text) as [meta|] eqn:Ej; [|done].
  destruct (os_ReadFile _ w2) as [[[data [e|]]|?] w3] eqn:E3; try done.
  apply os_ReadFile_frame in E3 as [R3 F3].
  injection H as <- <-. unfold keeps_files in F1.
  exists (entry_Name file), text, meta, data.
  split_and!; [done| | | |done]; congruence.
Qed.

Lemma cacheRows_inv mtime dir files : ∀ w rows w',
  cacheRows L mtime dir files w = (Ret rows, w') →
  Forall (describes_entry L mtime dir w) rows.
Proof.
  induction files as [|file files IH]; intros w rows w'; cbn [cacheRows];
    munfold.
  - by intros [= <- <-].
  - destruct (cacheEntryRow L mtime dir file w) as [[row|?] w1] eqn:E1;
      [|done].
    destruct (cacheRows L mtime dir files w1) as [[rest|?] w2] eqn:E2;
      [|done].
    intros [= <- <-].
    pose proof (KeepsFiles_cacheEntryRow _ _ _ _ _ _ E1) as F1.
    apply IH in E2. apply Forall_app. split.
    + destruct row as [row|]; [|done]. constructor; [|done].
      by eapply cacheEntryRow_inv.
    + eapply Forall_impl; [exact E2|]. intros row'.
      unfold describes_entry, keeps_files in *. by rewrite F1.
Qed.

(** X18.  What the table [scout_cache] reports.  Every row of a call
    that succeeds stands for a file [name] of the cache directory whose
    name ends in [.meta] and whose content decodes as cache metadata: its
    [path] is the cache directory, a slash and [name], its [name] is the
    script name of the metadata, its [hash] is the hex-encoded SHA-256 of
    the content that the file without the suffix [.meta] has at the time
    of the call (the hash recorded in the metadata is not what is shown),
    [description] is empty and [cache] is "true".  The row has exactly the
    columns that the table declares. *)
Theorem ScoutScriptCacheGenerate_rows mtime (q : QueryContext) w rows w' :
  ScoutScriptCacheGenerate L mtime q w = (Ret (rows, None), w') →
  Forall (λ row : Row,
            describes_entry L mtime (CacheDir (scoutConfig w)) w row
            ∧ dom row = column_names CachedScriptsColumns
            ∧ row !! "cache" = Some "true"
            ∧ row !! "description" = Some "")
    rows.
Proof.
  unfold ScoutScriptCacheGenerate. rewrite get_world_bind. munfold.
  set (dir := CacheDir (scoutConfig w)). intros H.
  destruct (os_Stat dir w) as [[st|?] w1] eqn:E1; [|done].
  pose proof (KeepsFiles_os_Stat _ _ _ _ E1) as F1.
  assert (∃ w2, files w2 = files w ∧
            match os_ReadDir dir w2 with
            | (Ret (files, Some e), w3) =>
                (Ret ([], Some ("failed to read cache directory: " +:+ e)), w3)
            | (Ret (files, None), w3) =>
                match cacheRows L mtime dir files w3 with
                | (Ret results, w4) => (Ret (results, None), w4)
                | (Panic msg, w4) => (Panic msg, w4)
                end
            | (Panic msg, w3) => (Panic msg, w3)
            end = (Ret (rows, None), w')) as (w2 & F2 & H2).
  { destruct st.
    - exists w1. split; [done|]. revert H.
      destruct (os_ReadDir dir w1) as [[[? [?|]]|?] ?]; try done.
    - destruct (os_MkdirAll dir w1) as [[[e|]|?] w2] eqn:E2; try done.
      pose proof (KeepsFiles_os_MkdirAll _ _ _ _ E2) as F2.
      exists w2. split; [unfold keeps_files in *; congruence|]. revert H.
      destruct (os_ReadDir dir w2) as [[[? [?|]]|?] ?]; try done.
    - exists w1. split; [done|]. revert H.
      destruct (os_ReadDir dir w1) as [[[? [?|]]|?] ?]; try done. }
  clear H.
  destruct (os_ReadDir dir w2) as [[[entries [e|]]|?] w3] eqn:E3; try done.
  pose proof (KeepsFiles_os_ReadDir _ _ _ _ E3) as F3.
  destruct (cacheRows L mtime dir entries w3) as [[results|?] w4] eqn:E4;
    [|done].
  injection H2 as -> <-.
  apply cacheRows_inv in E4.
  eapply Forall_impl; [exact E4|]. intros row Hrow.
  assert (describes_entry L mtime dir w row) as Hrow'.
  { unfold describes_entry, keeps_files in *. by rewrite <- F2, <- F3. }
  split; [done|].
  destruct Hrow' as (name & text & meta & data & _ & _ & _ & _ & ->).
  split; [apply cacheRow_dom|done].
Qed.

(** X19.  The table [scout_cache] only reads.  In every run of the call,
    failing or not, the files keep their contents, and the only system
    call that is recorded is the creation of the cache directory: nothing
    is fetched, written, removed or run. *)
Theorem ScoutScriptCacheGenerate_reads_only mtime (q : QueryContext) w r w' :
  ScoutScriptCacheGenerate L mtime q w = (r, w') →
  files w' = files w
  ∧ emits (λ e, e = EvMkdirAll (CacheDir (scoutConfig w))) w w'.
Proof.
  intros H. split.
  - revert H. apply (Preserves_run keeps_files).
    unfold ScoutScriptCacheGenerate.
    pose proof (λ d fs, Preserves_cacheRows keeps_files mtime d fs
                          (KeepsFiles_cacheEntryRow mtime d)).
    preserves.
  - revert H. unfold ScoutScriptCacheGenerate. rewrite get_world_bind.
    generalize (CacheDir (scoutConfig w)). intros dir.
    apply Preserves_run.
    assert (∀ fs, Preserves (emits (λ e, e = EvMkdirAll dir))
                    (cacheRows L mtime dir fs)) as Hrows.
    { intros fs. apply Preserves_cacheRows; [apply _|].
      intros file a ra a' Ha. apply Silent_cacheEntryRow in Ha.
      apply emits_nothing in Ha. by apply emits_same. }
    preserves.
Qed.

(** When no system call fails, the loop leaves the world as it is, and the
    row of every entry that has one is among the rows. *)
Lemma cacheEntryRow_fault_free mtime dir file w :
  faults w = [] → ∃ row, cacheEntryRow L mtime dir file w = (Ret row, w).
Proof.
  intros Hf. unfold cacheEntryRow.
  destruct (entry_IsDir file); [by eexists|].
  destruct (negb _); [by eexists|].
  unfold os_Stat, os_ReadFile, fault. munfold. rewrite Hf. cbn.
  destruct (bool_decide _ || _); cbn; [|by eexists].
  rewrite Hf. cbn. destruct (files w !! _); cbn; [|by eexists].
  destruct (json_Unmarshal_CacheMeta L _); [|by eexists].
  rewrite Hf. cbn. destruct (files w !! _); by eexists.
Qed.

Lemma cacheEntryRow_file mtime dir name w text meta data :
  faults w = [] →
  strings_HasSuffix name ".meta" = true →
  files w !! (dir +:+ "/" +:+ name) = Some text →
  json_Unmarshal_CacheMeta L text = Some meta →
  files w !! strings_TrimSuffix (dir +:+ "/" +:+ name) ".meta" = Some data →
  cacheEntryRow L mtime dir (mkDirEntry name false) w
  = (Ret (Some (cacheRow (meta_ScriptName meta) ""
                  (hex_EncodeToString (sha256_Sum L data))
                  (time_Format_RFC3339 L (mtime (dir +:+ "/" +:+ name)))
                  (dir +:+ "/" +:+ name))), w).
Proof.
  intros Hf Hsuf Hmeta Hj Hdata.
  unfold cacheEntryRow. cbn [entry_IsDir entry_Name]. rewrite Hsuf.
  cbn [negb]. unfold os_Stat, os_ReadFile, fault. munfold.
  rewrite Hf. cbn [fst snd]. rewrite Hmeta.
  rewrite (bool_decide_eq_true_2 (is_Some (Some text))) by done.
  cbn [orb]. rewrite Hf, Hmeta, Hj, Hf, Hdata. done.
Qed.

Lemma cacheRows_fault_free mtime dir entries w :
  faults w = [] →
  ∃ rows,
    cacheRows L mtime dir entries w = (Ret rows, w) ∧
    ∀ file row, file ∈ entries →
      cacheEntryRow L mtime dir file w = (Ret (Some row), w) → row ∈ rows.
Proof.
  intros Hf. induction entries as [|file entries (rows & Hrows & Hin)].
  - exists []. split; [done|]. intros file row H. by apply elem_of_nil in H.
  - destruct (cacheEntryRow_fault_free mtime dir file w Hf) as [r Hr].
    exists (option_list r ++ rows). split.
    + cbn [cacheRows]. munfold. by rewrite Hr, Hrows.
    + intros file' row [->|H]%elem_of_cons Hrow; apply elem_of_app.
      * left. rewrite Hr in Hrow. injection Hrow as ->. by left.
      * right. by eapply Hin.
Qed.

Lemma GrowsDirs_saveScriptToCache k s sig d :
  Preserves grows_dirs (saveScriptToCache L k s sig d).
Proof. unfold saveScriptToCache, remove_if_present. preserves. Qed.

(** X20.  A script that was saved is listed.  In a world where the cache
    directory exists and no system call fails, after [saveScriptToCache]
    has succeeded for a key of hexadecimal digits (every cache key is one)
    and a script whose name and hash are valid UTF-8, the table
    [scout_cache] has a row for the metadata file of the key, with the name
    of the script and the hex-encoded SHA-256 of its contents.  The paths
    of the cache files are the cache directory, a slash and the file name,
    as [filepath.Join] gives them for a clean directory path, and the time
    codec reads back what it prints. *)
Theorem saveScriptToCache_then_listed mtime (q : QueryContext) K s σ w w1 :
  let dir := CacheDir (scoutConfig w) in
  let p := dir +:+ "/" +:+ K +:+ ".script" in
  faults w = [] → dir ∈ dirs w →
  string_forallb is_lower_hex K = true →
  getCacheFilePath L K dir = p →
  getSignatureFilePath L K dir = p +:+ ".sig" →
  utf8_ValidString (Name s) = true →
  utf8_ValidString (Hash s) = true →
  (∀ t, time_MarshalJSON L (clock w) = Some t →
        json_plain t ∧ is_Some (time_UnmarshalJSON L t)) →
  saveScriptToCache L K s σ dir w = (Ret None, w1) →
  ∃ rows,
    ScoutScriptCacheGenerate L mtime q w1 = (Ret (rows, None), w1) ∧
    cacheRow (Name s) "" (hex_EncodeToString (sha256_Sum L (Contents s)))
      (time_Format_RFC3339 L (mtime (p +:+ ".meta"))) (p +:+ ".meta")
    ∈ rows.
Proof.
  intros dir p Hf Hdir HK Hp Hsig Hn Hh Ht Hsave.
  pose proof (SameEnv_saveScriptToCache L _ _ _ _ _ _ _ Hsave) as Hs.
  pose proof (same_env_faults _ _ Hs Hf) as Hf1.
  pose proof (GrowsDirs_saveScriptToCache _ _ _ _ _ _ _ Hsave) as Hd.
  assert (scoutConfig w1 = scoutConfig w) as Hcfg
    by (unfold same_env in Hs; tauto).
  assert (getSignatureFilePath L K dir
          = getCacheFilePath L K dir +:+ ".sig") as Hsig' by congruence.
  destruct (saveScriptToCache_files L K s σ dir w w1 Hsig' Hsave)
    as (text & Hm & Fp & Fm & _ & _).
  rewrite Hp in Fp, Fm.
  destruct (json_CacheMeta_roundtrip L
              (mkCacheMeta (Hash s) (Name s) (clock w)) text Hh Hn Ht Hm)
    as [t' Hu].
  cbn [meta_ScriptHash meta_ScriptName] in Hu.
  set (name := K +:+ ".script.meta").
  assert (dir +:+ "/" +:+ name = p +:+ ".meta") as Hpath.
  { unfold name, p. by rewrite !string_app_assoc. }
  assert (Hrow : cacheEntryRow L mtime dir (mkDirEntry name false) w1
    = (Ret (Some (cacheRow (Name s) ""
                    (hex_EncodeToString (sha256_Sum L (Contents s)))
                    (time_Format_RFC3339 L (mtime (p +:+ ".meta")))
                    (p +:+ ".meta"))), w1)).
  { rewrite <- Hpath.
    apply (cacheEntryRow_file mtime dir name w1 text
             (mkCacheMeta (Hash s) (Name s) t') (Contents s)).
    - done.
    - unfold name.
      replace (K +:+ ".script.meta") with ((K +:+ ".script") +:+ ".meta")
        by by rewrite string_app_assoc.
      apply strings_TrimSuffix_app.
    - by rewrite Hpath.
    - done.
    - rewrite Hpath.
      by rewrite (proj2 (strings_TrimSuffix_app p ".meta")). }
  assert (mkDirEntry name false ∈ dir_entries dir w1) as Hentry.
  { apply dir_entries_file with (text := text).
    - unfold name. destruct K; discriminate.
    - unfold name. rewrite string_forallb_app. apply andb_true_iff.
      split; [|done].
      eapply string_forallb_impl; [|exact HK]. apply is_lower_hex_not_slash.
    - by rewrite Hpath. }
  destruct (cacheRows_fault_free mtime dir (dir_entries dir w1) w1 Hf1)
    as (rows & Hrows & Hin).
  exists rows. split; [|by eapply Hin].
  unfold ScoutScriptCacheGenerate. rewrite get_world_bind, Hcfg. fold dir.
  unfold os_Stat, os_ReadDir, fault. munfold. rewrite Hf1. cbn.
  assert (dir ∈ dirs w1) as Hdir1 by (by apply Hd).
  rewrite (bool_decide_eq_true_2 (dir ∈ dirs w1)) by done.
  rewrite orb_true_r. cbn. rewrite Hf1. cbn.
  rewrite (bool_decide_eq_true_2 (dir ∈ dirs w1)) by done.
  by rewrite Hrows.
Qed.

(** X21.  [ensureCacheDir] on the directory it is given, or on the
    directory [scout_cache] of the temporary directory when it is given the
    empty path.  It changes no file, and the only system call it records
    is the creation of that directory; an error it returns is the one of
    [os.MkdirAll], under the prefix "failed to create cache directory";
    and when no system call fails it returns nil and leaves a world in
    which [os.Stat] finds the directory. *)
Theorem ensureCacheDir_spec (cacheDir : string) w r w' :
  let d := if str_eqb cacheDir "" then filepath_Join L (temp_dir w) cacheDirName
           else cacheDir in
  ensureCacheDir L cacheDir w = (r, w') →
  files w' = files w
  ∧ emits (λ e, e = EvMkdirAll d) w w'
  ∧ (∀ e, r = Ret (Some e) →
       ∃ e', e = "failed to create cache directory " +:+ d +:+ ": " +:+ e')
  ∧ (faults w = [] → r = Ret None ∧ os_Stat d w' = (Ret StatOk, w')).
Proof.
  intros d H. unfold ensureCacheDir in H. rewrite get_world_bind in H.
  fold d in H. split_and!.
  - revert H. apply (Preserves_run keeps_files). preserves.
  - revert H. apply Preserves_run. preserves.
  - intros e ->. munfold.
    destruct (os_Stat d w) as [[[]|?] w1]; try done.
    destruct (os_MkdirAll d w1) as [[[e'|]|?] w2]; try done.
    injection H as <- <-. by exists e'.
  - intros Hf. revert H.
    unfold os_Stat, os_MkdirAll, emit, fault. munfold. rewrite Hf. cbn.
    destruct (bool_decide (is_Some (files w !! d)) || bool_decide (d ∈ dirs w))
      eqn:Hex; cbn; rewrite ?Hf; cbn.
    + intros [= <- <-]. rewrite Hf, Hex. done.
    + intros [= <- <-]. cbn. rewrite Hf. cbn.
      rewrite (bool_decide_eq_true_2 (d ∈ _)) by set_solver.
      by rewrite orb_true_r.
Qed.

End CacheTable.

Lemma ScoutScriptCacheGenerate_rows_witness :
  warm_listing
  = [cacheRow "hello.sh" "" "6968206f686365" "2024-05-01T10:00:00Z"
       ("/c/" +:+ hello_key +:+ ".script.meta")]
  ∧ Forall (λ row : Row,
              describes_entry demoLib (λ _, 0%Z) "/c" warm_world row
              ∧ dom row = column_names CachedScriptsColumns
              ∧ row !! "cache" = Some "true"
              ∧ row !! "description" = Some "")
      warm_listing.
Proof.
  split; [reflexivity|].
  apply (ScoutScriptCacheGenerate_rows demoLib (λ _, 0%Z) ∅ warm_world
           warm_listing warm_world).
  reflexivity.
Defined.

Lemma ScoutScriptCacheGenerate_reads_only_witness :
  files warm_world = files warm_world
  ∧ emits (λ e, e = EvMkdirAll "/c") warm_world warm_world.
Proof.
  apply (ScoutScriptCacheGenerate_reads_only demoLib (λ _, 0%Z) ∅ warm_world
           (Ret (warm_listing, None)) warm_world).
  reflexivity.
Defined.

Lemma saveScriptToCache_then_listed_witness :
  ∃ rows,
    ScoutScriptCacheGenerate demoLib (λ _, 0%Z) ∅ resaved_world
    = (Ret (rows, None), resaved_world)
    ∧ cacheRow "hello.sh" "" (hex_EncodeToString (String.rev "echo bye"))
        "2024-05-01T10:00:00Z" ("/c/" +:+ hello_key +:+ ".script.meta")
      ∈ rows.
Proof.
  apply (saveScriptToCache_then_listed demoLib (λ _, 0%Z) ∅ hello_key
           bye_script "s2" warm_world resaved_world).
  - reflexivity.
  - apply (bool_decide_unpack _). vm_compute. exact I.
  - reflexivity.
  - reflexivity.
  - reflexivity.
  - reflexivity.
  - reflexivity.
  - intros t [= <-]. split; [split; reflexivity|]. eexists. reflexivity.
  - reflexivity.
Defined.

Lemma ensureCacheDir_spec_witness :
  ensureCacheDir demoLib "" hello_world = (Ret None, ensured_world)
  ∧ trace ensured_world = [EvMkdirAll "/tmp/scout_cache"]
  ∧ os_Stat "/tmp/scout_cache" ensured_world = (Ret StatOk, ensured_world).
Proof.
  split; [reflexivity|]. split; [reflexivity|].
  apply (ensureCacheDir_spec demoLib "" hello_world (Ret None) ensured_world);
    reflexivity.
Defined.

(** ** What the resolver writes *)

Lemma emits_weaken (Q1 Q2 : event → Prop) w w' :
  (∀ e, Q1 e → Q2 e) → emits Q1 w w' → emits Q2 w w'.
Proof.
  intros HQ (evs & Ht & Hevs). exists evs. split; [done|].
  eapply Forall_impl; [exact Hevs|exact HQ].
Qed.

Lemma no_write_emits w w' :
  no_write w w' → emits (λ e, is_write e = false) w w'.
Proof. by intros [_ H]. Qed.

Lemma not_write_writes_entry p data signature e :
  is_write e = false → writes_entry p data signature e.
Proof. by destruct e. Qed.

(** A branch of the fetch path that returns before anything is saved. *)
Ltac fetch_fails H :=
  cbn beta in H; injection H as <- <-;
  split; [by intros ? ? [= <- _]|by left].

Section ResolverWrites.

Context (L : GoLib).

Lemma Emits_saveScriptToCache k s σ d :
  Preserves (emits (writes_entry (getCacheFilePath L k d) (Contents s) σ))
    (saveScriptToCache L k s σ d).
Proof. unfold saveScriptToCache, remove_if_present. preserves. Qed.

Lemma fetchScript_writes url key dir pk name w r w' :
  fetchScript L url key dir pk name w = (r, w') →
  (∀ s e, r = Ret (s, Some e) → s = Script_zero)
  ∧ (emits (λ e, is_write e = false) w w'
     ∨ ∃ resp signature block rsaPub,
         server w !! url = Some resp ∧ StatusCode resp = 200%Z ∧
         hex_DecodeString (Header_X_Signature resp) = Some signature ∧
         pem_Decode L pk = Some block ∧
         x509_ParsePKIXPublicKey L block = PkixRSA rsaPub ∧
         rsa_VerifyPKCS1v15 L rsaPub (sha256_Sum L (Body resp)) signature
           = None ∧
         emits (writes_entry (getCacheFilePath L key dir) (Body resp)
                  signature) w w').
Proof.
  unfold fetchScript, io_ReadAll. munfold. intros H.
  destruct (http_Get url w) as [rg w1] eqn:E1.
  pose proof (no_write_emits _ _ (NoWrite_http_Get _ _ _ _ E1)) as N1.
  destruct rg as [[[resp|] [e|]]|msg]; try by fetch_fails H.
  apply http_Get_inv in E1 as (Hsrv & _ & _).
  destruct (negb (StatusCode resp =? 200)%Z) eqn:Est; [by fetch_fails H|].
  apply negb_false_iff, Z.eqb_eq in Est.
  destruct (BodyErr resp) eqn:Eb; [by fetch_fails H|].
  destruct (str_eqb (Header_X_Signature resp) ""); [by fetch_fails H|].
  destruct (hex_DecodeString _) as [signature|] eqn:Eh; [|by fetch_fails H].
  destruct (pem_Decode L pk) as [block|] eqn:Ep; [|by fetch_fails H].
  destruct (x509_ParsePKIXPublicKey L block) as [?|rsaPub|] eqn:Ex;
    [by fetch_fails H| |by fetch_fails H].
  destruct (rsa_VerifyPKCS1v15 _ _ _ _) eqn:Ev; [by fetch_fails H|].
  destruct (saveScriptToCache _ _ _ _ _ w1) as [rs w2] eqn:Es.
  apply Emits_saveScriptToCache in Es as Hw. cbn [Contents] in Hw.
  assert (w' = w2 ∧ ∀ s e, r = Ret (s, Some e) → s = Script_zero) as [-> Hz].
  { destruct rs as [[?|]|?]; injection H as <- <-;
      (split; [done|]); by intros ? ? [=]. }
  split; [done|]. right. exists resp, signature, block, rsaPub.
  split_and!; try done.
  etransitivity; [|exact Hw].
  eapply emits_weaken; [|exact N1]. apply not_write_writes_entry.
Qed.

(** X22.  Nothing reaches the cache unverified.  In every run of
    [getScript], whatever fails and whatever is returned, either no file is
    written at all, or the server answered the request for the script URL
    with status 200 and an [X-Signature] header that hex-decodes to a
    signature which [rsa.VerifyPKCS1v15] accepts, under the configured
    public key, for the SHA-256 digest of the body; and then every file
    that is written is the payload file of the key with that body, the
    signature file with that signature, or the metadata file.  A call that
    returns an error returns the zero [Script] with it. *)
Theorem getScript_writes_verified name useCache w r w' :
  let cfg := scoutConfig w in
  let url := getScriptURL L (goos w) (ServerURL cfg) name in
  let p := getCacheFilePath L (getCacheKey L url) (CacheDir cfg) in
  getScript L name useCache w = (r, w') →
  (∀ s e, r = Ret (s, Some e) → s = Script_zero)
  ∧ (emits (λ e, is_write e = false) w w'
     ∨ ∃ resp signature block rsaPub,
         server w !! url = Some resp ∧ StatusCode resp = 200%Z ∧
         hex_DecodeString (Header_X_Signature resp) = Some signature ∧
         pem_Decode L (PublicKey cfg) = Some block ∧
         x509_ParsePKIXPublicKey L block = PkixRSA rsaPub ∧
         rsa_VerifyPKCS1v15 L rsaPub (sha256_Sum L (Body resp)) signature
           = None ∧
         emits (writes_entry p (Body resp) signature) w w').
Proof.
  intros cfg url p H. unfold getScript in H. rewrite get_world_bind in H.
  fold cfg in H. fold url in H. munfold.
  destruct (cacheBlock L name useCache w) as [rc w1] eqn:Ec.
  pose proof (no_write_emits _ _ (NoWrite_cacheBlock L _ _ _ _ _ Ec)) as N1.
  pose proof (SameEnv_cacheBlock L _ _ _ _ _ Ec) as S1.
  destruct rc as [[[hit|] name']|msg].
  - injection H as <- <-. split; [by intros ? ? [=]|by left].
  - apply fetchScript_writes in H as [Hz [Hn|Hv]].
    + split; [done|]. left. by etransitivity.
    + split; [done|]. right.
      destruct Hv as (resp & signature & block & rsaPub & Hsrv & Hrest).
      exists resp, signature, block, rsaPub.
      assert (server w1 = server w) as Hs by (unfold same_env in S1; tauto).
      rewrite Hs in Hsrv. split; [done|].
      destruct Hrest as (? & ? & ? & ? & ? & Hw). split_and!; try done.
      etransitivity; [|exact Hw].
      eapply emits_weaken; [|exact N1]. apply not_write_writes_entry.
  - injection H as <- <-. split; [done|by left].
Qed.

End ResolverWrites.

Lemma getScript_writes_verified_witness :
  emits (writes_entry ("/c/" +:+ hello_key +:+ ".script") "echo hi"
           "Pih ohce")
    hello_world warm_world
  ∧ ¬ emits (λ e, is_write e = false) hello_world warm_world.
Proof.
  assert (¬ emits (λ e, is_write e = false) hello_world warm_world) as Hno.
  { intros (evs & Ht & Hevs). vm_compute in Ht. subst evs.
    apply Forall_cons in Hevs as [_ Hevs].
    apply Forall_cons in Hevs as [Hevs _]. discriminate Hevs. }
  destruct (getScript_writes_verified demoLib "hello.sh" false hello_world
              (Ret (hello_script, None)) warm_world) as [_ [Hn|Hv]].
  - reflexivity.
  - destruct (Hno Hn).
  - destruct Hv as (resp & signature & _ & _ & Hsrv & _ & Hsig & _ & _ & _ & Hw).
    injection Hsrv as <-. injection Hsig as <-.
    split; [exact Hw|exact Hno].
Defined.

(** ** Script kinds *)

(** Two prefixes of one string: one is a prefix of the other. *)
Lemma strings_HasPrefix_both s : ∀ a b,
  strings_HasPrefix s a = true → strings_HasPrefix s b = true →
  strings_HasPrefix a b || strings_HasPrefix b a = true.
Proof.
  induction s as [|c s IH]; intros [|x a] [|y b]; cbn; try done.
  intros [Hx Ha]%andb_true_iff [Hy Hb]%andb_true_iff.
  apply bool_decide_eq_true in Hx, Hy. subst x y.
  rewrite !bool_decide_eq_true_2 by done. cbn. by apply IH.
Qed.

Lemma has_ext_excl name a b :
  strings_HasPrefix (String.rev a) (String.rev b)
  || strings_HasPrefix (String.rev b) (String.rev a) = false →
  has_ext name a = true → has_ext name b = false.
Proof.
  unfold has_ext, strings_HasSuffix. intros Hab Ha.
  destruct (strings_HasPrefix (String.rev (strings_ToLower name)) (String.rev b))
    eqn:Hb; [|done].
  by rewrite (strings_HasPrefix_both _ _ _ Ha Hb) in Hab.
Qed.

Ltac ext_excl :=
  match goal with
  | H : has_ext ?n ?a = true |- has_ext ?n ?b = false =>
      apply (has_ext_excl n a b); [vm_compute; reflexivity|exact H]
  end.

Ltac kind_excl :=
  unfold isPowerShellScript, isBatchScript, isVBScript, isPythonScript,
    isShellScript;
  rewrite ?orb_true_iff; intros H; rewrite ?orb_false_iff;
  repeat split; destruct_or?; ext_excl.

Lemma kinds_excl name :
  (isPowerShellScript name = true →
   isBatchScript name = false ∧ isVBScript name = false
   ∧ isPythonScript name = false ∧ isShellScript name = false)
  ∧ (isBatchScript name = true →
     isVBScript name = false ∧ isPythonScript name = false
     ∧ isShellScript name = false)
  ∧ (isVBScript name = true →
     isPythonScript name = false ∧ isShellScript name = false)
  ∧ (isPythonScript name = true → isShellScript name = false).
Proof.
  split_and!.
  - intros H.
    assert (isBatchScript name = false) by (revert H; kind_excl).
    assert (isVBScript name = false) by (revert H; kind_excl).
    assert (isPythonScript name = false) by (revert H; kind_excl).
    assert (isShellScript name = false) by (revert H; kind_excl).
    done.
  - intros H.
    assert (isVBScript name = false) by (revert H; kind_excl).
    assert (isPythonScript name = false) by (revert H; kind_excl).
    assert (isShellScript name = false) by (revert H; kind_excl).
    done.
  - intros H.
    assert (isPythonScript name = false) by (revert H; kind_excl).
    assert (isShellScript name = false) by (revert H; kind_excl).
    done.
  - kind_excl.
Qed.

(** X23.  A script name is of one kind at most: of the five tests
    [isPowerShellScript], [isBatchScript], [isVBScript], [isPythonScript]
    and [isShellScript] no two accept the same name, so that the order in
    which [executeScript] tries them makes no difference.  The temporary
    file gets the first extension of the kind, not the one of the name: a
    [.cmd] script is run from a file [.bat], a [.vbscript] from [.vbs], a
    compiled [.pyc] from [.py], a module [.psm1] or [.psd1] from [.ps1];
    and a name of no kind gets no extension. *)
Theorem script_kinds_exclusive (name : string) :
  count_occ bool_dec
    [isPowerShellScript name; isBatchScript name; isVBScript name;
     isPythonScript name; isShellScript name] true <= 1
  ∧ (isPowerShellScript name = true → fileExt name = ".ps1")
  ∧ (isBatchScript name = true → fileExt name = ".bat")
  ∧ (isVBScript name = true → fileExt name = ".vbs")
  ∧ (isPythonScript name = true → fileExt name = ".py")
  ∧ (isShellScript name = true → fileExt name = ".sh")
  ∧ (count_occ bool_dec
       [isPowerShellScript name; isBatchScript name; isVBScript name;
        isPythonScript name; isShellScript name] true = 0 →
     fileExt name = "").
Proof.
  destruct (kinds_excl name) as (H1 & H2 & H3 & H4). unfold fileExt.
  destruct (isPowerShellScript name).
  { destruct H1 as (-> & -> & -> & ->); [done|]. by cbn. }
  destruct (isBatchScript name).
  { destruct H2 as (-> & -> & ->); [done|]. by cbn. }
  destruct (isVBScript name).
  { destruct H3 as (-> & ->); [done|]. by cbn. }
  destruct (isPythonScript name).
  { rewrite H4 by done. by cbn. }
  destruct (isShellScript name); cbn; split_and!; (lia || done).
Qed.

Lemma script_kinds_exclusive_witness :
  fileExt "Report.PYC" = ".py" ∧ fileExt "setup.cmd" = ".bat"
  ∧ fileExt "notes.txt" = "".
Proof.
  split_and!.
  - apply (script_kinds_exclusive "Report.PYC"). vm_compute. reflexivity.
  - apply (script_kinds_exclusive "setup.cmd"). vm_compute. reflexivity.
  - apply (script_kinds_exclusive "notes.txt"). vm_compute. reflexivity.
Defined.
